(** * tensor_converter: a shallow embedding of gsttensor_converter.c

    The element converts media streams (video, audio, text, octet streams,
    flexible tensors, custom formats) into tensor streams.  This file embeds
    the negotiation functions ([gst_tensor_converter_parse_*],
    [gst_tensor_converter_parse_caps], [gst_tensor_converter_update_caps])
    and the data path ([gst_tensor_converter_chain] and its private
    routines) as functions over an explicit element state, and proves
    properties of them.

    Conventions.
    - C integers are kept as [Z] and every narrowing store or wrapping
      operation is written with [to_guint], [to_gint] or [to_guint64]
      ([gsize] and [size_t] are 64 bits wide, as on LP64 hosts).
    - [g_assert] failures, divisions by zero and out-of-bounds [memcpy]
      end the process; they are the [Abort] outcome of the monad [M].
    - Logging is dropped. *)

From Stdlib Require Import ZArith Lia Bool.
From Stdlib.Strings Require Import Byte.
From stdpp Require Import base option list gmap strings.

Local Open Scope Z_scope.

(** ** Machine integers *)

Definition to_guint (z : Z) : Z := z mod 2 ^ 32.
Definition to_gint (z : Z) : Z := (z + 2 ^ 31) mod 2 ^ 32 - 2 ^ 31.
Definition to_guint64 (z : Z) : Z := z mod 2 ^ 64.

Definition G_MAXUINT64 : Z := 2 ^ 64 - 1.

(** GstClockTime is a guint64 counting nanoseconds. *)
Definition GstClockTime := Z.
Definition GST_CLOCK_TIME_NONE : GstClockTime := G_MAXUINT64.
Definition GST_SECOND : Z := 1000000000.
Definition GST_CLOCK_TIME_IS_VALID (t : GstClockTime) : bool :=
  negb (t =? GST_CLOCK_TIME_NONE).

(** Modelled from the spec: gst_util_uint64_scale_int of GStreamer (not part
    of this repository): val * num / denom without intermediate overflow,
    saturating at G_MAXUINT64; a non-positive denominator or a negative
    numerator is refused with G_MAXUINT64.  [num] and [denom] are gint
    parameters, so the arguments are narrowed at the call. *)
Definition gst_util_uint64_scale_int (val num denom : Z) : Z :=
  let num := to_gint num in
  let denom := to_gint denom in
  if (denom <=? 0) || (num <? 0) then G_MAXUINT64
  else
    let r := val * num / denom in
    if G_MAXUINT64 <? r then G_MAXUINT64 else r.

(** ** The abort monad *)

Inductive M (A : Type) : Type :=
| Done (a : A)
| Abort.
Arguments Done {A} a.
Arguments Abort {A}.

#[global] Instance M_ret : MRet M := @Done.
#[global] Instance M_bind : MBind M := fun A B k m =>
  match m with
  | Done a => k a
  | Abort => Abort
  end.

(** [g_assert (c)] *)
Definition g_assert (c : bool) : M unit := if c then Done tt else Abort.

(** ** Tensor descriptors (tensor_typedef.h) *)

Inductive tensor_type : Set :=
| _NNS_INT32 | _NNS_UINT32 | _NNS_INT16 | _NNS_UINT16 | _NNS_INT8
| _NNS_UINT8 | _NNS_FLOAT64 | _NNS_FLOAT32 | _NNS_INT64 | _NNS_UINT64
| _NNS_FLOAT16 | _NNS_END.

Inductive tensor_format : Set :=
| _NNS_TENSOR_FORMAT_STATIC
| _NNS_TENSOR_FORMAT_FLEXIBLE
| _NNS_TENSOR_FORMAT_SPARSE
| _NNS_TENSOR_FORMAT_END.

Inductive media_type : Set :=
| _NNS_MEDIA_INVALID
| _NNS_VIDEO | _NNS_AUDIO | _NNS_TEXT | _NNS_OCTET | _NNS_TENSOR
| _NNS_MEDIA_ANY.

#[global] Instance tensor_type_eq_dec : EqDecision tensor_type.
Proof. solve_decision. Defined.
#[global] Instance tensor_format_eq_dec : EqDecision tensor_format.
Proof. solve_decision. Defined.
#[global] Instance media_type_eq_dec : EqDecision media_type.
Proof. solve_decision. Defined.

(** Modelled from the spec: the limits of tensor_typedef.h, a header kept
    elsewhere in the nnstreamer tree.  The spec only says that rank and count
    are bounded by fixed limits; the values are those of the nnstreamer
    headers.  Nothing proved below depends on them beyond 4 <= rank limit and
    1 <= size limit. *)
Definition NNS_TENSOR_RANK_LIMIT : nat := 16.
Definition NNS_TENSOR_SIZE_LIMIT : nat := 16.

(** tensor_dim: uint32_t [NNS_TENSOR_RANK_LIMIT] *)
Abbreviation tensor_dim := (list Z) (only parsing).

Record GstTensorInfo : Type := {
  info_name : option string;
  info_type : tensor_type;
  info_dimension : tensor_dim
}.

Record GstTensorsInfo : Type := {
  num_tensors : Z;
  info : list GstTensorInfo;
  format : tensor_format
}.

Record GstTensorsConfig : Type := {
  config_info : GstTensorsInfo;
  rate_n : Z;
  rate_d : Z
}.

#[global] Instance GstTensorInfo_eq_dec : EqDecision GstTensorInfo.
Proof. solve_decision. Defined.
#[global] Instance GstTensorsInfo_eq_dec : EqDecision GstTensorsInfo.
Proof. solve_decision. Defined.
#[global] Instance GstTensorsConfig_eq_dec : EqDecision GstTensorsConfig.
Proof. solve_decision. Defined.

Definition tensor_dim_init : tensor_dim := replicate NNS_TENSOR_RANK_LIMIT 0.

(** Modelled from the spec: gst_tensor_info_init of the common library: no
    name, the sentinel type, all dimensions 0. *)
Definition gst_tensor_info_init : GstTensorInfo :=
  {| info_name := None; info_type := _NNS_END;
     info_dimension := tensor_dim_init |}.

(** Modelled from the spec: gst_tensors_info_init: no tensor, every entry
    initialised, static format. *)
Definition gst_tensors_info_init : GstTensorsInfo :=
  {| num_tensors := 0;
     info := replicate NNS_TENSOR_SIZE_LIMIT gst_tensor_info_init;
     format := _NNS_TENSOR_FORMAT_STATIC |}.

(** Modelled from the spec: gst_tensors_config_init: an initialised
    descriptor and the frame rate -1/-1. *)
Definition gst_tensors_config_init : GstTensorsConfig :=
  {| config_info := gst_tensors_info_init; rate_n := -1; rate_d := -1 |}.

(** Modelled from the spec: gst_tensors_info_get_nth_info of the common
    library, the n-th entry of the descriptor; an index outside the array
    reads as an initialised entry. *)
Definition gst_tensors_info_get_nth_info (i : GstTensorsInfo) (n : nat)
  : GstTensorInfo :=
  default gst_tensor_info_init (info i !! n).

(** dimension[k] *)
Definition dim_get (d : tensor_dim) (k : nat) : Z := default 0 (d !! k).

(** Field updates written as the C assignments they stand for. *)
Definition set_info_type (t : tensor_type) (i : GstTensorInfo) : GstTensorInfo :=
  {| info_name := info_name i; info_type := t;
     info_dimension := info_dimension i |}.

Definition set_info_dimension (k : nat) (v : Z) (i : GstTensorInfo)
  : GstTensorInfo :=
  {| info_name := info_name i; info_type := info_type i;
     info_dimension := <[k := to_guint v]> (info_dimension i) |}.

(** for (i = from; i < NNS_TENSOR_RANK_LIMIT; i++) dimension[i] = 0; *)
Definition clear_dimension_from (from : nat) (i : GstTensorInfo)
  : GstTensorInfo :=
  foldl (fun acc k => set_info_dimension k 0 acc) i
        (seq from (NNS_TENSOR_RANK_LIMIT - from)).

Definition set_num_tensors (n : Z) (i : GstTensorsInfo) : GstTensorsInfo :=
  {| num_tensors := n; info := info i; format := format i |}.

Definition set_format (f : tensor_format) (i : GstTensorsInfo) : GstTensorsInfo :=
  {| num_tensors := num_tensors i; info := info i; format := f |}.

(** info->info[n] = f (info->info[n]) *)
Definition upd_nth_info (n : nat) (f : GstTensorInfo → GstTensorInfo)
    (i : GstTensorsInfo) : GstTensorsInfo :=
  {| num_tensors := num_tensors i;
     info := <[n := f (gst_tensors_info_get_nth_info i n)]> (info i);
     format := format i |}.

Definition set_config_info (i : GstTensorsInfo) (c : GstTensorsConfig)
  : GstTensorsConfig :=
  {| config_info := i; rate_n := rate_n c; rate_d := rate_d c |}.

Definition upd_config_info (f : GstTensorsInfo → GstTensorsInfo)
    (c : GstTensorsConfig) : GstTensorsConfig :=
  set_config_info (f (config_info c)) c.

Definition set_rate (n d : Z) (c : GstTensorsConfig) : GstTensorsConfig :=
  {| config_info := config_info c; rate_n := n; rate_d := d |}.

(** config->info.info[0].<field> = ... *)
Definition upd_info0 (f : GstTensorInfo → GstTensorInfo) (c : GstTensorsConfig)
  : GstTensorsConfig :=
  upd_config_info (upd_nth_info 0 f) c.

(** ** Descriptor helpers of the nnstreamer common library

    The element calls these helpers of nnstreamer_plugin_api_util, which is
    kept elsewhere in the nnstreamer tree; each is written down from what
    the specification of the element says of it. *)

(** Modelled from the spec: gst_tensor_get_element_size, the byte width of
    the element types (integers of width 8/16/32/64, float16/32/64); the
    sentinel has no size. *)
Definition gst_tensor_get_element_size (t : tensor_type) : Z :=
  match t with
  | _NNS_INT32 | _NNS_UINT32 | _NNS_FLOAT32 => 4
  | _NNS_INT16 | _NNS_UINT16 | _NNS_FLOAT16 => 2
  | _NNS_INT8 | _NNS_UINT8 => 1
  | _NNS_FLOAT64 | _NNS_INT64 | _NNS_UINT64 => 8
  | _NNS_END => 0
  end.

(** The rank of a dimension array: the number of leading non-zero entries. *)
Fixpoint dimension_rank (d : tensor_dim) : nat :=
  match d with
  | [] => 0
  | x :: d' => if x =? 0 then 0%nat else S (dimension_rank d')
  end.

(** Modelled from the spec: gst_tensor_dimension_is_valid.  "Every declared
    dimension must be non-zero": at least one dimension is declared and
    nothing is declared after the first zero. *)
Definition gst_tensor_dimension_is_valid (d : tensor_dim) : bool :=
  (0 <? dimension_rank d)%nat
  && forallb (fun x => x =? 0) (drop (dimension_rank d) d).

(** Modelled from the spec: gst_tensor_get_element_count, the product of the
    declared dimensions (a gulong). *)
Definition gst_tensor_get_element_count (d : tensor_dim) : Z :=
  if (dimension_rank d =? 0)%nat then 0
  else to_guint64 (foldr Z.mul 1 (take (dimension_rank d) d)).

(** Modelled from the spec: gst_tensor_info_get_size, the byte size of one
    tensor: element size times element count. *)
Definition gst_tensor_info_get_size (i : GstTensorInfo) : Z :=
  to_guint64 (gst_tensor_get_element_size (info_type i)
              * gst_tensor_get_element_count (info_dimension i)).

(** The indices 0 .. num_tensors - 1 of a loop over the tensors. *)
Definition tensor_indices (n : Z) : list nat := seq 0 (Z.to_nat n).

(** Modelled from the spec: gst_tensors_info_get_size (info, -1), the sum of
    the sizes of all tensors. *)
Definition gst_tensors_info_get_size (i : GstTensorsInfo) : Z :=
  to_guint64
    (foldr Z.add 0
       (map (fun n => gst_tensor_info_get_size (gst_tensors_info_get_nth_info i n))
            (tensor_indices (num_tensors i)))).

(** Modelled from the spec: gst_tensor_info_validate: the element type is
    not the sentinel and the dimension is valid. *)
Definition gst_tensor_info_validate (i : GstTensorInfo) : bool :=
  negb (bool_decide (info_type i = _NNS_END))
  && gst_tensor_dimension_is_valid (info_dimension i).

(** Modelled from the spec: gst_tensors_info_validate: "all dimensions
    non-zero for Static; element type set".  A descriptor that is not static
    has no shape to check. *)
Definition gst_tensors_info_validate (i : GstTensorsInfo) : bool :=
  match format i with
  | _NNS_TENSOR_FORMAT_END => false
  | _NNS_TENSOR_FORMAT_STATIC =>
      (1 <=? num_tensors i)
      && forallb (fun n => gst_tensor_info_validate
                             (gst_tensors_info_get_nth_info i n))
                 (tensor_indices (num_tensors i))
  | _ => true
  end.

(** Modelled from the spec: gst_tensors_config_validate: a frame rate with
    numerator >= 0 and denominator > 0, and a valid descriptor. *)
Definition gst_tensors_config_validate (c : GstTensorsConfig) : bool :=
  (0 <=? rate_n c) && (0 <? rate_d c)
  && gst_tensors_info_validate (config_info c).

(** Modelled from the spec: gst_tensor_info_is_equal: structural equality of
    two valid tensor descriptors (element type and dimensions). *)
Definition gst_tensor_info_is_equal (i1 i2 : GstTensorInfo) : bool :=
  gst_tensor_info_validate i1 && gst_tensor_info_validate i2
  && bool_decide (info_type i1 = info_type i2)
  && bool_decide (info_dimension i1 = info_dimension i2).

(** Modelled from the spec: gst_tensors_info_is_equal: structural equality of
    two descriptors: same format, and for static descriptors the same count
    and equal tensors in order.  Descriptors that are not static carry no
    shape and compare equal when their formats agree. *)
Definition gst_tensors_info_is_equal (i1 i2 : GstTensorsInfo) : bool :=
  bool_decide (format i1 = format i2)
  && match format i1 with
     | _NNS_TENSOR_FORMAT_END => false
     | _NNS_TENSOR_FORMAT_STATIC =>
         gst_tensors_info_validate i1 && gst_tensors_info_validate i2
         && (num_tensors i1 =? num_tensors i2)
         && forallb (fun n => gst_tensor_info_is_equal
                                (gst_tensors_info_get_nth_info i1 n)
                                (gst_tensors_info_get_nth_info i2 n))
                    (tensor_indices (num_tensors i1))
     | _ => true
     end.

(** Modelled from the spec: gst_tensors_config_is_equal: both configurations
    are valid, their frame rates are the same fraction and their descriptors
    are equal. *)
Definition gst_tensors_config_is_equal (c1 c2 : GstTensorsConfig) : bool :=
  gst_tensors_config_validate c1 && gst_tensors_config_validate c2
  && (rate_n c1 * rate_d c2 =? rate_n c2 * rate_d c1)
  && gst_tensors_info_is_equal (config_info c1) (config_info c2).

(** Modelled from the spec: gst_tensors_config_is_flexible, whether the
    descriptor is of flexible format. *)
Definition gst_tensors_config_is_flexible (c : GstTensorsConfig) : bool :=
  bool_decide (format (config_info c) = _NNS_TENSOR_FORMAT_FLEXIBLE).

(** Modelled from the spec: gst_tensors_info_copy; the destination becomes a
    copy of the source. *)
Definition gst_tensors_info_copy (src : GstTensorsInfo) : GstTensorsInfo := src.

(** ** Media descriptions (GStreamer) *)

(** The build switches that the file is compiled under: NO_VIDEO and NO_AUDIO
    (through is_video_supported and is_audio_supported of the media headers)
    and GST_CHECK_VERSION (1, 20, 0). *)
Record BuildConfig : Type := {
  video_support : bool;
  audio_support : bool;
  gst_check_version_1_20 : bool
}.

(** GstVideoFormat: the formats the element names, and the rest of the
    enumeration. *)
Inductive GstVideoFormat : Set :=
| GST_VIDEO_FORMAT_UNKNOWN
| GST_VIDEO_FORMAT_ENCODED
| GST_VIDEO_FORMAT_I420
| GST_VIDEO_FORMAT_GRAY8
| GST_VIDEO_FORMAT_GRAY16_BE
| GST_VIDEO_FORMAT_GRAY16_LE
| GST_VIDEO_FORMAT_RGB
| GST_VIDEO_FORMAT_BGR
| GST_VIDEO_FORMAT_RGBx
| GST_VIDEO_FORMAT_BGRx
| GST_VIDEO_FORMAT_xRGB
| GST_VIDEO_FORMAT_xBGR
| GST_VIDEO_FORMAT_RGBA
| GST_VIDEO_FORMAT_BGRA
| GST_VIDEO_FORMAT_ARGB
| GST_VIDEO_FORMAT_ABGR
| GST_VIDEO_FORMAT_RGBP
| GST_VIDEO_FORMAT_BGRP
| GST_VIDEO_FORMAT_OTHER (id : positive).

#[global] Instance GstVideoFormat_eq_dec : EqDecision GstVideoFormat.
Proof. solve_decision. Defined.

(** GstVideoInfo as filled by gst_video_info_from_caps: the fields read
    through GST_VIDEO_INFO_FORMAT, _WIDTH, _HEIGHT, _VIEWS, _FPS_N, _FPS_D
    and _SIZE. *)
Record GstVideoInfo : Type := {
  vinfo_format : GstVideoFormat;
  vinfo_width : Z;
  vinfo_height : Z;
  vinfo_views : Z;
  vinfo_fps_n : Z;
  vinfo_fps_d : Z;
  vinfo_size : Z
}.

(** GstAudioFormat, in the host's byte order. *)
Inductive GstAudioFormat : Set :=
| GST_AUDIO_FORMAT_UNKNOWN
| GST_AUDIO_FORMAT_S8
| GST_AUDIO_FORMAT_U8
| GST_AUDIO_FORMAT_S16
| GST_AUDIO_FORMAT_U16
| GST_AUDIO_FORMAT_S32
| GST_AUDIO_FORMAT_U32
| GST_AUDIO_FORMAT_F32
| GST_AUDIO_FORMAT_F64
| GST_AUDIO_FORMAT_OTHER (id : positive).

(** GstAudioInfo as filled by gst_audio_info_from_caps: GST_AUDIO_INFO_FORMAT,
    _CHANNELS, _RATE and _BPF. *)
Record GstAudioInfo : Type := {
  ainfo_format : GstAudioFormat;
  ainfo_channels : Z;
  ainfo_rate : Z;
  ainfo_bpf : Z
}.

(** The first structure of a capability: its name and the two fields the
    element reads from it. *)
Record GstStructure : Type := {
  structure_name : string;
  structure_format : option string;
  structure_framerate : option (Z * Z)
}.

(** An incoming capability: its first structure, whether it is fixed, and
    what gst_video_info_from_caps and gst_audio_info_from_caps make of it
    ([None] when they return FALSE). *)
Record GstCaps : Type := {
  caps_structure : GstStructure;
  caps_is_fixed : bool;
  caps_video_info : option GstVideoInfo;
  caps_audio_info : option GstAudioInfo
}.

Definition gst_caps_is_fixed (c : GstCaps) : bool := caps_is_fixed c.
Definition gst_caps_get_structure (c : GstCaps) : GstStructure := caps_structure c.
Definition gst_structure_get_name (s : GstStructure) : string := structure_name s.
Definition gst_video_info_from_caps (c : GstCaps) : option GstVideoInfo :=
  caps_video_info c.
Definition gst_audio_info_from_caps (c : GstCaps) : option GstAudioInfo :=
  caps_audio_info c.

(** Modelled from the spec: gst_structure_get_media_type of the common
    library: the media kind of a capability name. *)
Definition gst_structure_get_media_type (s : GstStructure) : media_type :=
  let name := structure_name s in
  if String.prefix "video/" name then _NNS_VIDEO
  else if String.prefix "audio/" name then _NNS_AUDIO
  else if String.prefix "text/" name then _NNS_TEXT
  else if String.eqb name "application/octet-stream" then _NNS_OCTET
  else if String.eqb name "other/tensors" || String.eqb name "other/tensor"
       then _NNS_TENSOR
  else _NNS_MEDIA_INVALID.

(** g_ascii_strcasecmp (s1, s2) == 0 *)
Definition g_ascii_tolower (c : Ascii.ascii) : Ascii.ascii :=
  let n := Ascii.N_of_ascii c in
  if ((65 <=? n) && (n <=? 90))%N then Ascii.ascii_of_N (n + 32) else c.

Fixpoint g_ascii_strcaseeq (s1 s2 : string) : bool :=
  match s1, s2 with
  | EmptyString, EmptyString => true
  | String c1 s1', String c2 s2' =>
      Ascii.eqb (g_ascii_tolower c1) (g_ascii_tolower c2)
      && g_ascii_strcaseeq s1' s2'
  | _, _ => false
  end.

(** ** Buffers and the flexible wire record *)

(** A memory block is its bytes; a buffer is its memory blocks with the
    metadata the element reads or writes: the timestamps and the client
    identity carried by the query meta (gst_buffer_get_meta_query).  Mapping
    a buffer (gst_buffer_map) is taken to succeed and gives the bytes of all
    its blocks. *)
Abbreviation GstMemory := (list byte) (only parsing).

Record GstBuffer : Type := {
  buffer_memory : list GstMemory;
  buffer_pts : GstClockTime;
  buffer_dts : GstClockTime;
  buffer_duration : GstClockTime;
  buffer_meta_query : option Z
}.

Definition gst_memory_get_sizes (m : GstMemory) : Z := Z.of_nat (length m).

Definition gst_buffer_get_size (b : GstBuffer) : Z :=
  foldr Z.add 0 (map gst_memory_get_sizes (buffer_memory b)).

Definition gst_buffer_n_memory (b : GstBuffer) : Z :=
  Z.of_nat (length (buffer_memory b)).

(** gst_buffer_get_all_memory: the blocks merged into one. *)
Definition gst_buffer_get_all_memory (b : GstBuffer) : GstMemory :=
  concat (buffer_memory b).

(** gst_buffer_new: no memory, no timestamps. *)
Definition gst_buffer_new : GstBuffer :=
  {| buffer_memory := []; buffer_pts := GST_CLOCK_TIME_NONE;
     buffer_dts := GST_CLOCK_TIME_NONE;
     buffer_duration := GST_CLOCK_TIME_NONE; buffer_meta_query := None |}.

Definition set_buffer_memory (m : list GstMemory) (b : GstBuffer) : GstBuffer :=
  {| buffer_memory := m; buffer_pts := buffer_pts b;
     buffer_dts := buffer_dts b; buffer_duration := buffer_duration b;
     buffer_meta_query := buffer_meta_query b |}.

Definition set_buffer_pts (t : GstClockTime) (b : GstBuffer) : GstBuffer :=
  {| buffer_memory := buffer_memory b; buffer_pts := t;
     buffer_dts := buffer_dts b; buffer_duration := buffer_duration b;
     buffer_meta_query := buffer_meta_query b |}.

Definition set_buffer_dts (t : GstClockTime) (b : GstBuffer) : GstBuffer :=
  {| buffer_memory := buffer_memory b; buffer_pts := buffer_pts b;
     buffer_dts := t; buffer_duration := buffer_duration b;
     buffer_meta_query := buffer_meta_query b |}.

Definition set_buffer_duration (t : GstClockTime) (b : GstBuffer) : GstBuffer :=
  {| buffer_memory := buffer_memory b; buffer_pts := buffer_pts b;
     buffer_dts := buffer_dts b; buffer_duration := t;
     buffer_meta_query := buffer_meta_query b |}.

(** gst_buffer_new_and_alloc (size) followed by gst_buffer_memset (.., 0, ..) *)
Definition gst_buffer_new_zeroed (size : Z) : GstBuffer :=
  set_buffer_memory [replicate (Z.to_nat size) x00] gst_buffer_new.

(** gst_buffer_copy_into (dest, src, GST_BUFFER_COPY_METADATA, 0, -1) *)
Definition gst_buffer_copy_metadata (dest src : GstBuffer) : GstBuffer :=
  {| buffer_memory := buffer_memory dest; buffer_pts := buffer_pts src;
     buffer_dts := buffer_dts src; buffer_duration := buffer_duration src;
     buffer_meta_query := buffer_meta_query src |}.

(** gst_memory_share (mem, offset, size): the region of the block. *)
Definition gst_memory_share (m : GstMemory) (offset size : Z) : GstMemory :=
  take (Z.to_nat size) (drop (Z.to_nat offset) m).

(** Modelled from the spec: gst_tensor_buffer_get_nth_memory of the common
    library, for buffers that hold one memory block per tensor: the n-th
    block, NULL beyond the last one. *)
Definition gst_tensor_buffer_get_nth_memory (b : GstBuffer) (n : nat)
  : option GstMemory :=
  buffer_memory b !! n.

(** Modelled from the spec: gst_tensor_buffer_append_memory: the block
    becomes the last one of the buffer; a NULL block is refused. *)
Definition gst_tensor_buffer_append_memory (b : GstBuffer) (m : option GstMemory)
  : GstBuffer :=
  match m with
  | Some m => set_buffer_memory (buffer_memory b ++ [m]) b
  | None => b
  end.

(** Modelled from the spec: gst_tensor_buffer_get_count: the number of
    tensors in the buffer, one per block. *)
Definition gst_tensor_buffer_get_count (b : GstBuffer) : Z := gst_buffer_n_memory b.

(** GstTensorMetaInfo: the decoded header of a flexible record. *)
Record GstTensorMetaInfo : Type := {
  meta_magic : Z;
  meta_version : Z;
  meta_type : tensor_type;
  meta_dimension : tensor_dim;
  meta_format : tensor_format;
  meta_media_type : media_type
}.

Definition GST_TENSOR_META_MAGIC : Z := 0xfeedcced.
Definition GST_TENSOR_META_VERSION : Z := 0xDE001000.
Definition GST_TENSOR_META_HEADER_SIZE : Z := 128.

(** Modelled from the spec: gst_tensor_meta_info_init *)
Definition gst_tensor_meta_info_init : GstTensorMetaInfo :=
  {| meta_magic := GST_TENSOR_META_MAGIC;
     meta_version := GST_TENSOR_META_VERSION;
     meta_type := _NNS_END; meta_dimension := tensor_dim_init;
     meta_format := _NNS_TENSOR_FORMAT_STATIC;
     meta_media_type := _NNS_TENSOR |}.

Definition set_meta_media_type (m : media_type) (meta : GstTensorMetaInfo)
  : GstTensorMetaInfo :=
  {| meta_magic := meta_magic meta; meta_version := meta_version meta;
     meta_type := meta_type meta; meta_dimension := meta_dimension meta;
     meta_format := meta_format meta; meta_media_type := m |}.

(** The enumerations as the integers of tensor_typedef.h. *)
Definition tensor_type_code (t : tensor_type) : Z :=
  match t with
  | _NNS_INT32 => 0 | _NNS_UINT32 => 1 | _NNS_INT16 => 2 | _NNS_UINT16 => 3
  | _NNS_INT8 => 4 | _NNS_UINT8 => 5 | _NNS_FLOAT64 => 6 | _NNS_FLOAT32 => 7
  | _NNS_INT64 => 8 | _NNS_UINT64 => 9 | _NNS_FLOAT16 => 10 | _NNS_END => 11
  end.

Definition tensor_type_of_code (z : Z) : tensor_type :=
  match z with
  | 0 => _NNS_INT32 | 1 => _NNS_UINT32 | 2 => _NNS_INT16 | 3 => _NNS_UINT16
  | 4 => _NNS_INT8 | 5 => _NNS_UINT8 | 6 => _NNS_FLOAT64 | 7 => _NNS_FLOAT32
  | 8 => _NNS_INT64 | 9 => _NNS_UINT64 | 10 => _NNS_FLOAT16 | _ => _NNS_END
  end.

Definition tensor_format_code (f : tensor_format) : Z :=
  match f with
  | _NNS_TENSOR_FORMAT_STATIC => 0 | _NNS_TENSOR_FORMAT_FLEXIBLE => 1
  | _NNS_TENSOR_FORMAT_SPARSE => 2 | _NNS_TENSOR_FORMAT_END => 3
  end.

Definition tensor_format_of_code (z : Z) : tensor_format :=
  match z with
  | 0 => _NNS_TENSOR_FORMAT_STATIC | 1 => _NNS_TENSOR_FORMAT_FLEXIBLE
  | 2 => _NNS_TENSOR_FORMAT_SPARSE | _ => _NNS_TENSOR_FORMAT_END
  end.

Definition media_type_code (m : media_type) : Z :=
  match m with
  | _NNS_MEDIA_INVALID => to_guint (-1)
  | _NNS_VIDEO => 0 | _NNS_AUDIO => 1 | _NNS_TEXT => 2 | _NNS_OCTET => 3
  | _NNS_TENSOR => 4 | _NNS_MEDIA_ANY => 0x1000
  end.

Definition media_type_of_code (z : Z) : media_type :=
  match z with
  | 0 => _NNS_VIDEO | 1 => _NNS_AUDIO | 2 => _NNS_TEXT | 3 => _NNS_OCTET
  | 4 => _NNS_TENSOR | 0x1000 => _NNS_MEDIA_ANY | _ => _NNS_MEDIA_INVALID
  end.

(** Little-endian 32-bit words. *)
Definition byte_of_Z (z : Z) : byte :=
  default x00 (Byte.of_N (Z.to_N (z mod 256))).

Definition Z_of_byte (b : byte) : Z := Z.of_N (Byte.to_N b).

Definition encode_uint32 (z : Z) : list byte :=
  map (fun k => byte_of_Z (z / 2 ^ (8 * k))) [0; 1; 2; 3].

Definition decode_uint32 (l : list byte) : Z :=
  foldr (fun b acc => Z_of_byte b + 256 * acc) 0 (take 4 l).

(** Modelled from the spec: the header of a flexible record, whose layout is
    defined in the common library: "a fixed-size header encoding {element
    type, rank, dimensions, media-kind tag}".  The header is 32 words of 32
    bits: magic, version, type, the dimension array, format and media type;
    the rest is reserved. *)
Definition meta_header_words (meta : GstTensorMetaInfo) : list Z :=
  [meta_magic meta; meta_version meta; tensor_type_code (meta_type meta)]
  ++ take NNS_TENSOR_RANK_LIMIT
       (meta_dimension meta ++ replicate NNS_TENSOR_RANK_LIMIT 0)
  ++ [tensor_format_code (meta_format meta);
      media_type_code (meta_media_type meta)].

Definition meta_header_bytes (meta : GstTensorMetaInfo) : list byte :=
  take (Z.to_nat GST_TENSOR_META_HEADER_SIZE)
       (concat (map encode_uint32 (meta_header_words meta))
        ++ replicate (Z.to_nat GST_TENSOR_META_HEADER_SIZE) x00).

Definition header_word (l : list byte) (k : nat) : Z :=
  decode_uint32 (drop (4 * k) l).

(** Modelled from the spec: gst_tensor_meta_info_parse_memory: the decoded
    header at the start of a block; a block too short to hold a header
    leaves the initialised meta. *)
Definition gst_tensor_meta_info_parse_memory (m : GstMemory) : GstTensorMetaInfo :=
  if gst_memory_get_sizes m <? GST_TENSOR_META_HEADER_SIZE
  then gst_tensor_meta_info_init
  else
    {| meta_magic := header_word m 0;
       meta_version := header_word m 1;
       meta_type := tensor_type_of_code (header_word m 2);
       meta_dimension :=
         map (fun k => header_word m (3 + k)) (seq 0 NNS_TENSOR_RANK_LIMIT);
       meta_format :=
         tensor_format_of_code (header_word m (3 + NNS_TENSOR_RANK_LIMIT));
       meta_media_type :=
         media_type_of_code (header_word m (4 + NNS_TENSOR_RANK_LIMIT)) |}.

(** Modelled from the spec: gst_tensor_meta_info_validate *)
Definition gst_tensor_meta_info_validate (meta : GstTensorMetaInfo) : bool :=
  (meta_magic meta =? GST_TENSOR_META_MAGIC)
  && (meta_version meta =? GST_TENSOR_META_VERSION)
  && negb (bool_decide (meta_type meta = _NNS_END))
  && gst_tensor_dimension_is_valid (meta_dimension meta)
  && negb (bool_decide (meta_format meta = _NNS_TENSOR_FORMAT_END))
  && negb (bool_decide (meta_media_type meta = _NNS_MEDIA_ANY)).

(** Modelled from the spec: gst_tensor_meta_info_get_header_size: the fixed
    header size of a valid meta, 0 otherwise. *)
Definition gst_tensor_meta_info_get_header_size (meta : GstTensorMetaInfo) : Z :=
  if gst_tensor_meta_info_validate meta then GST_TENSOR_META_HEADER_SIZE else 0.

(** Modelled from the spec: gst_tensor_meta_info_convert: the tensor
    descriptor a header stands for ("recover its effective descriptor"). *)
Definition gst_tensor_meta_info_convert (meta : GstTensorMetaInfo) : GstTensorInfo :=
  {| info_name := None; info_type := meta_type meta;
     info_dimension := meta_dimension meta |}.

(** Modelled from the spec: gst_tensor_info_convert_to_meta *)
Definition gst_tensor_info_convert_to_meta (i : GstTensorInfo) : GstTensorMetaInfo :=
  {| meta_magic := GST_TENSOR_META_MAGIC;
     meta_version := GST_TENSOR_META_VERSION;
     meta_type := info_type i; meta_dimension := info_dimension i;
     meta_format := _NNS_TENSOR_FORMAT_STATIC;
     meta_media_type := _NNS_TENSOR |}.

(** Modelled from the spec: gst_tensor_meta_info_append_header: "each output
    tensor is prefixed with a fixed-size header". *)
Definition gst_tensor_meta_info_append_header (meta : GstTensorMetaInfo)
    (m : option GstMemory) : option GstMemory :=
  match m with
  | Some m => Some (meta_header_bytes meta ++ m)
  | None => None
  end.

(** The records of a single block that holds several header-prefixed
    records "concatenated without padding between them". *)
Fixpoint flex_records (fuel : nat) (data : list byte) : option (list GstMemory) :=
  match fuel with
  | O => None
  | S fuel' =>
      match data with
      | [] => Some []
      | _ =>
          let meta := gst_tensor_meta_info_parse_memory data in
          let size :=
            gst_tensor_meta_info_get_header_size meta
            + gst_tensor_info_get_size (gst_tensor_meta_info_convert meta) in
          if (size <=? 0) || (gst_memory_get_sizes data <? size) then None
          else
            rest ← flex_records fuel' (drop (Z.to_nat size) data);
            Some (take (Z.to_nat size) data :: rest)
      end
  end.

(** Modelled from the spec: gst_tensor_buffer_from_config for a flexible
    configuration: a buffer that already has one block per tensor is kept;
    a single block holding several well-formed records is split into them. *)
Definition gst_tensor_buffer_from_config (b : GstBuffer) (c : GstTensorsConfig)
  : GstBuffer :=
  match buffer_memory b with
  | [m] =>
      match flex_records (S (length m)) m with
      | Some (r1 :: r2 :: rs) => set_buffer_memory (r1 :: r2 :: rs) b
      | _ => b
      end
  | _ => b
  end.

(** ** The source pad and what lies downstream *)

Inductive GstFlowReturn : Set :=
| GST_FLOW_OK
| GST_FLOW_NOT_LINKED
| GST_FLOW_FLUSHING
| GST_FLOW_EOS
| GST_FLOW_NOT_NEGOTIATED
| GST_FLOW_ERROR
| GST_FLOW_NOT_SUPPORTED.

#[global] Instance GstFlowReturn_eq_dec : EqDecision GstFlowReturn.
Proof. solve_decision. Defined.

Inductive GstFormat : Set :=
| GST_FORMAT_UNDEFINED
| GST_FORMAT_DEFAULT
| GST_FORMAT_BYTES
| GST_FORMAT_TIME
| GST_FORMAT_BUFFERS
| GST_FORMAT_PERCENT.

Record GstSegment : Type := {
  segment_format : GstFormat;
  segment_start : Z;
  segment_time : Z
}.

(** gst_segment_init (&seg, format) *)
Definition gst_segment_init (f : GstFormat) : GstSegment :=
  {| segment_format := f; segment_start := 0; segment_time := 0 |}.

(** The outbound capability published for a descriptor: the stream format,
    and for a static stream the number of tensors with their dimensions and
    types, and the frame rate. *)
Record GstTensorsCaps : Type := {
  tcaps_format : tensor_format;
  tcaps_num_tensors : Z;
  tcaps_dimensions : list tensor_dim;
  tcaps_types : list tensor_type;
  tcaps_framerate : Z * Z
}.

#[global] Instance GstTensorsCaps_eq_dec : EqDecision GstTensorsCaps.
Proof. solve_decision. Defined.

(** gst_caps_is_equal on outbound capabilities *)
Definition gst_caps_is_equal (c1 c2 : GstTensorsCaps) : bool :=
  bool_decide (c1 = c2).

(** What has been sent through the source pad, in order. *)
Inductive downstream_item : Type :=
| pushed_buffer (b : GstBuffer)
| pushed_caps (c : GstTensorsCaps)
| pushed_segment (s : GstSegment).

(** The source pad: its current capability, the answers of the peer
    (gst_tensors_config_from_peer gives a configuration and whether the peer
    capability is fixed, or fails; the peer's chain function answers every
    pushed buffer, possibly depending on what it has received before), and
    the record of everything pushed. *)
Record GstPad : Type := {
  pad_current_caps : option GstTensorsCaps;
  pad_peer_config : option (GstTensorsConfig * bool);
  pad_peer_chain : list downstream_item → GstBuffer → GstFlowReturn;
  pad_pushed : list downstream_item
}.

Definition gst_pad_get_current_caps (p : GstPad) : option GstTensorsCaps :=
  pad_current_caps p.

(** Modelled from the spec: gst_tensors_config_from_peer: the descriptor
    accepted by the downstream neighbour, with the initialised configuration
    and is_fixed = FALSE when the query fails. *)
Definition gst_tensors_config_from_peer (p : GstPad)
  : bool * GstTensorsConfig * bool :=
  match pad_peer_config p with
  | Some (c, is_fixed) => (true, c, is_fixed)
  | None => (false, gst_tensors_config_init, false)
  end.

(** Modelled from the spec: gst_tensor_pad_caps_from_config: the outbound
    capability for a descriptor.  It is flexible when the descriptor or the
    peer is, and it lists the tensors of a static descriptor. *)
Definition gst_tensor_pad_caps_from_config (p : GstPad) (c : GstTensorsConfig)
  : GstTensorsCaps :=
  let peer_is_flexible :=
    match pad_peer_config p with
    | Some (pc, _) => gst_tensors_config_is_flexible pc
    | None => false
    end in
  if gst_tensors_config_is_flexible c || peer_is_flexible then
    {| tcaps_format := _NNS_TENSOR_FORMAT_FLEXIBLE; tcaps_num_tensors := 0;
       tcaps_dimensions := []; tcaps_types := [];
       tcaps_framerate := (rate_n c, rate_d c) |}
  else
    let idx := tensor_indices (num_tensors (config_info c)) in
    {| tcaps_format := format (config_info c);
       tcaps_num_tensors := num_tensors (config_info c);
       tcaps_dimensions :=
         map (fun n => info_dimension
                         (gst_tensors_info_get_nth_info (config_info c) n)) idx;
       tcaps_types :=
         map (fun n => info_type
                         (gst_tensors_info_get_nth_info (config_info c) n)) idx;
       tcaps_framerate := (rate_n c, rate_d c) |}.

(** Modelled from the spec: gst_tensor_pad_caps_is_flexible: whether the
    capability currently set on the pad is of flexible format. *)
Definition gst_tensor_pad_caps_is_flexible (p : GstPad) : bool :=
  match pad_current_caps p with
  | Some c => bool_decide (tcaps_format c = _NNS_TENSOR_FORMAT_FLEXIBLE)
  | None => false
  end.

(** gst_pad_set_caps: the capability becomes current and a caps event goes
    downstream. *)
Definition gst_pad_set_caps (p : GstPad) (c : GstTensorsCaps) : GstPad :=
  {| pad_current_caps := Some c; pad_peer_config := pad_peer_config p;
     pad_peer_chain := pad_peer_chain p;
     pad_pushed := pad_pushed p ++ [pushed_caps c] |}.

(** gst_pad_push_event (pad, gst_event_new_segment (&seg)) *)
Definition gst_pad_push_segment (p : GstPad) (s : GstSegment) : GstPad :=
  {| pad_current_caps := pad_current_caps p;
     pad_peer_config := pad_peer_config p;
     pad_peer_chain := pad_peer_chain p;
     pad_pushed := pad_pushed p ++ [pushed_segment s] |}.

(** gst_pad_push: the buffer goes downstream and the peer's answer comes
    back. *)
Definition gst_pad_push (p : GstPad) (b : GstBuffer) : GstFlowReturn * GstPad :=
  (pad_peer_chain p (pad_pushed p) b,
   {| pad_current_caps := pad_current_caps p;
      pad_peer_config := pad_peer_config p;
      pad_peer_chain := pad_peer_chain p;
      pad_pushed := pad_pushed p ++ [pushed_buffer b] |}).

(** The buffers among what has been pushed. *)
Definition pushed_buffers (l : list downstream_item) : list GstBuffer :=
  omap (fun i => match i with pushed_buffer b => Some b | _ => None end) l.

(** The caps events among what has been pushed. *)
Definition pushed_caps_events (l : list downstream_item) : list GstTensorsCaps :=
  omap (fun i => match i with pushed_caps c => Some c | _ => None end) l.

(** ** GstAdapter

    Modelled from the spec: the Adapter, "an ordered byte queue plus the
    timestamp/duration of each pushed chunk and its consumed-byte offset".
    GstAdapter belongs to GStreamer; the queue of pushed buffers, the number
    of bytes consumed from the head buffer, and the last timestamps seen
    with the byte distance from them follow its documentation. *)
Module Adapter.

Record GstAdapter : Type := {
  queue : list GstBuffer;
  skip : Z;
  pts : GstClockTime;
  pts_distance : Z;
  dts : GstClockTime;
  dts_distance : Z
}.

Definition gst_adapter_new : GstAdapter :=
  {| queue := []; skip := 0;
     pts := GST_CLOCK_TIME_NONE; pts_distance := 0;
     dts := GST_CLOCK_TIME_NONE; dts_distance := 0 |}.

(** gst_adapter_clear *)
Definition gst_adapter_clear (a : GstAdapter) : GstAdapter := gst_adapter_new.

Definition queue_size (q : list GstBuffer) : Z :=
  foldr Z.add 0 (map gst_buffer_get_size q).

Definition gst_adapter_available (a : GstAdapter) : Z :=
  queue_size (queue a) - skip a.

(** update_timestamps_and_offset: a valid timestamp of the buffer becomes
    the reference and its distance restarts. *)
Definition update_timestamps (a : GstAdapter) (b : GstBuffer) : GstAdapter :=
  let valid_pts := GST_CLOCK_TIME_IS_VALID (buffer_pts b) in
  let valid_dts := GST_CLOCK_TIME_IS_VALID (buffer_dts b) in
  {| queue := queue a; skip := skip a;
     pts := if valid_pts then buffer_pts b else pts a;
     pts_distance := if valid_pts then 0 else pts_distance a;
     dts := if valid_dts then buffer_dts b else dts a;
     dts_distance := if valid_dts then 0 else dts_distance a |}.

Definition set_queue (q : list GstBuffer) (a : GstAdapter) : GstAdapter :=
  {| queue := q; skip := skip a; pts := pts a;
     pts_distance := pts_distance a; dts := dts a;
     dts_distance := dts_distance a |}.

Definition add_distance (n : Z) (a : GstAdapter) : GstAdapter :=
  {| queue := queue a; skip := skip a; pts := pts a;
     pts_distance := pts_distance a + n; dts := dts a;
     dts_distance := dts_distance a + n |}.

Definition set_skip (n : Z) (a : GstAdapter) : GstAdapter :=
  {| queue := queue a; skip := n; pts := pts a;
     pts_distance := pts_distance a; dts := dts a;
     dts_distance := dts_distance a |}.

(** gst_adapter_push *)
Definition gst_adapter_push (a : GstAdapter) (b : GstBuffer) : GstAdapter :=
  match queue a with
  | [] => update_timestamps (set_queue [b] a) b
  | q => set_queue (q ++ [b]) a
  end.

(** gst_adapter_prev_pts and gst_adapter_prev_dts: the reference timestamp
    and the distance in bytes from it. *)
Definition gst_adapter_prev_pts (a : GstAdapter) : GstClockTime * Z :=
  (pts a, pts_distance a).
Definition gst_adapter_prev_dts (a : GstAdapter) : GstClockTime * Z :=
  (dts a, dts_distance a).

(** The loop of gst_adapter_flush_unchecked: whole buffers are dropped
    from the head while the bytes to flush cover them; each new head
    updates the reference timestamps. *)
Fixpoint flush_whole (q : list GstBuffer) (flush : Z) (a : GstAdapter)
  : GstAdapter * Z :=
  match q with
  | [] => (set_queue [] a, flush)
  | cur :: q' =>
      let size := gst_buffer_get_size cur in
      if size <=? flush then
        let a := add_distance size a in
        match q' with
        | [] => (set_queue [] a, flush - size)
        | next :: _ => flush_whole q' (flush - size) (update_timestamps a next)
        end
      else (set_queue q a, flush)
  end.

Definition gst_adapter_flush_unchecked (a : GstAdapter) (flush : Z) : GstAdapter :=
  let flush := flush + skip a in
  let a := add_distance (- skip a) a in
  let '(a, flush) := flush_whole (queue a) flush a in
  add_distance flush (set_skip flush a).

(** The bytes held by the adapter, from the current position on. *)
Definition adapter_bytes (a : GstAdapter) : list byte :=
  drop (Z.to_nat (skip a)) (concat (map gst_buffer_get_all_memory (queue a))).

(** gst_adapter_take_buffer: the next nbytes bytes as a buffer (carrying
    the metadata of the head buffer), flushed from the adapter; NULL when
    nbytes is 0 or more than what is available. *)
Definition gst_adapter_take_buffer (a : GstAdapter) (nbytes : Z)
  : option (GstBuffer * GstAdapter) :=
  if (nbytes <=? 0) || (gst_adapter_available a <? nbytes) then None
  else
    let head := default gst_buffer_new (queue a !! 0%nat) in
    Some (set_buffer_memory [take (Z.to_nat nbytes) (adapter_bytes a)] head,
          gst_adapter_flush_unchecked a nbytes).

End Adapter.
Export Adapter.

(** Modelled from the spec: gst_tensor_aggregation_get_adapter of the common
    library: the adapter of a substream, "created on first use". *)
Definition gst_tensor_aggregation_get_adapter (table : gmap Z GstAdapter)
    (key : Z) : GstAdapter * gmap Z GstAdapter :=
  match table !! key with
  | Some a => (a, table)
  | None => (gst_adapter_new, <[key := gst_adapter_new]> table)
  end.

(** Modelled from the spec: gst_tensor_aggregation_clear_all: every adapter
    is cleared, none is removed. *)
Definition gst_tensor_aggregation_clear_all (table : gmap Z GstAdapter)
  : gmap Z GstAdapter :=
  gst_adapter_clear <$> table.

(** ** Custom converters and converter sub-plugins *)

(** tensor_converter_custom: a registered callback turns a buffer into a
    tensor buffer and fills the configuration, or returns NULL. *)
Definition tensor_converter_custom : Type :=
  GstBuffer → option (GstBuffer * GstTensorsConfig).

(** NNStreamerExternalConverter: the callbacks of a sub-plugin; a missing
    callback is [None]. query_caps is kept as the names of the structures of
    the capability it returns; get_out_config receives the configuration
    found so far and returns FALSE as [None]; open returns its status and
    the private data. *)
Record NNStreamerExternalConverter : Type := {
  converter_name : string;
  converter_query_caps : option (list string);
  converter_get_out_config :
    option (GstCaps → GstTensorsConfig → option GstTensorsConfig);
  converter_convert :
    option (GstBuffer → Z → option (GstBuffer * GstTensorsConfig));
  converter_open : option (option string → Z * Z)
}.

Inductive converter_mode : Set :=
| _CONVERTER_MODE_NONE
| _CONVERTER_MODE_CUSTOM_CODE
| _CONVERTER_MODE_CUSTOM_SCRIPT.

#[global] Instance converter_mode_eq_dec : EqDecision converter_mode.
Proof. solve_decision. Defined.

(** What the element reads from outside itself: the registry of converter
    sub-plugins in registration order, and the pipeline clock with the
    element's base time. *)
Record World : Type := {
  subplugins : list (string * NNStreamerExternalConverter);
  element_clock : option GstClockTime;
  element_base_time : GstClockTime
}.

(** get_all_subplugins (NNS_SUBPLUGIN_CONVERTER) *)
Definition get_all_subplugins (w : World) : list string := (subplugins w).*1.

(** get_subplugin (NNS_SUBPLUGIN_CONVERTER, name) *)
Fixpoint get_subplugin (l : list (string * NNStreamerExternalConverter))
    (name : string) : option NNStreamerExternalConverter :=
  match l with
  | [] => None
  | (n, ex) :: l' => if String.eqb n name then Some ex else get_subplugin l' name
  end.

(** nnstreamer_converter_find *)
Definition nnstreamer_converter_find (w : World) (name : string)
  : option NNStreamerExternalConverter :=
  get_subplugin (subplugins w) name.

(** ** The element *)

Record GstTensorConverter : Type := {
  srcpad : GstPad;
  silent : bool;
  set_timestamp : bool;
  frames_per_tensor : Z;
  in_media_type : media_type;
  frame_size : Z;
  remove_padding : bool;
  externalConverter : option NNStreamerExternalConverter;
  priv_data : Z;
  mode : converter_mode;
  mode_option : option string;
  ext_fw : option string;
  custom_func : option tensor_converter_custom;
  do_not_append_header : bool;
  tensors_info : GstTensorsInfo;
  tensors_config : GstTensorsConfig;
  tensors_configured : bool;
  adapter_table : gmap Z GstAdapter;
  have_segment : bool;
  need_segment : bool;
  segment : GstSegment;
  old_timestamp : GstClockTime
}.

(** Assignments to the fields of self. *)
Definition set_srcpad (v : GstPad) (s : GstTensorConverter) : GstTensorConverter :=
  {| srcpad := v; silent := silent s; set_timestamp := set_timestamp s;
     frames_per_tensor := frames_per_tensor s;
     in_media_type := in_media_type s; frame_size := frame_size s;
     remove_padding := remove_padding s;
     externalConverter := externalConverter s; priv_data := priv_data s;
     mode := mode s; mode_option := mode_option s; ext_fw := ext_fw s;
     custom_func := custom_func s;
     do_not_append_header := do_not_append_header s;
     tensors_info := tensors_info s; tensors_config := tensors_config s;
     tensors_configured := tensors_configured s;
     adapter_table := adapter_table s; have_segment := have_segment s;
     need_segment := need_segment s; segment := segment s;
     old_timestamp := old_timestamp s |}.

Definition set_frames_per_tensor (v : Z) (s : GstTensorConverter) : GstTensorConverter :=
  {| srcpad := srcpad s; silent := silent s; set_timestamp := set_timestamp s;
     frames_per_tensor := v;
     in_media_type := in_media_type s; frame_size := frame_size s;
     remove_padding := remove_padding s;
     externalConverter := externalConverter s; priv_data := priv_data s;
     mode := mode s; mode_option := mode_option s; ext_fw := ext_fw s;
     custom_func := custom_func s;
     do_not_append_header := do_not_append_header s;
     tensors_info := tensors_info s; tensors_config := tensors_config s;
     tensors_configured := tensors_configured s;
     adapter_table := adapter_table s; have_segment := have_segment s;
     need_segment := need_segment s; segment := segment s;
     old_timestamp := old_timestamp s |}.

Definition set_in_media_type (v : media_type) (s : GstTensorConverter) : GstTensorConverter :=
  {| srcpad := srcpad s; silent := silent s; set_timestamp := set_timestamp s;
     frames_per_tensor := frames_per_tensor s;
     in_media_type := v; frame_size := frame_size s;
     remove_padding := remove_padding s;
     externalConverter := externalConverter s; priv_data := priv_data s;
     mode := mode s; mode_option := mode_option s; ext_fw := ext_fw s;
     custom_func := custom_func s;
     do_not_append_header := do_not_append_header s;
     tensors_info := tensors_info s; tensors_config := tensors_config s;
     tensors_configured := tensors_configured s;
     adapter_table := adapter_table s; have_segment := have_segment s;
     need_segment := need_segment s; segment := segment s;
     old_timestamp := old_timestamp s |}.

Definition set_frame_size (v : Z) (s : GstTensorConverter) : GstTensorConverter :=
  {| srcpad := srcpad s; silent := silent s; set_timestamp := set_timestamp s;
     frames_per_tensor := frames_per_tensor s;
     in_media_type := in_media_type s; frame_size := v;
     remove_padding := remove_padding s;
     externalConverter := externalConverter s; priv_data := priv_data s;
     mode := mode s; mode_option := mode_option s; ext_fw := ext_fw s;
     custom_func := custom_func s;
     do_not_append_header := do_not_append_header s;
     tensors_info := tensors_info s; tensors_config := tensors_config s;
     tensors_configured := tensors_configured s;
     adapter_table := adapter_table s; have_segment := have_segment s;
     need_segment := need_segment s; segment := segment s;
     old_timestamp := old_timestamp s |}.

Definition set_remove_padding (v : bool) (s : GstTensorConverter) : GstTensorConverter :=
  {| srcpad := srcpad s; silent := silent s; set_timestamp := set_timestamp s;
     frames_per_tensor := frames_per_tensor s;
     in_media_type := in_media_type s; frame_size := frame_size s;
     remove_padding := v;
     externalConverter := externalConverter s; priv_data := priv_data s;
     mode := mode s; mode_option := mode_option s; ext_fw := ext_fw s;
     custom_func := custom_func s;
     do_not_append_header := do_not_append_header s;
     tensors_info := tensors_info s; tensors_config := tensors_config s;
     tensors_configured := tensors_configured s;
     adapter_table := adapter_table s; have_segment := have_segment s;
     need_segment := need_segment s; segment := segment s;
     old_timestamp := old_timestamp s |}.

Definition set_externalConverter (v : option NNStreamerExternalConverter)
    (s : GstTensorConverter) : GstTensorConverter :=
  {| srcpad := srcpad s; silent := silent s; set_timestamp := set_timestamp s;
     frames_per_tensor := frames_per_tensor s;
     in_media_type := in_media_type s; frame_size := frame_size s;
     remove_padding := remove_padding s;
     externalConverter := v; priv_data := priv_data s;
     mode := mode s; mode_option := mode_option s; ext_fw := ext_fw s;
     custom_func := custom_func s;
     do_not_append_header := do_not_append_header s;
     tensors_info := tensors_info s; tensors_config := tensors_config s;
     tensors_configured := tensors_configured s;
     adapter_table := adapter_table s; have_segment := have_segment s;
     need_segment := need_segment s; segment := segment s;
     old_timestamp := old_timestamp s |}.

Definition set_priv_data (v : Z) (s : GstTensorConverter) : GstTensorConverter :=
  {| srcpad := srcpad s; silent := silent s; set_timestamp := set_timestamp s;
     frames_per_tensor := frames_per_tensor s;
     in_media_type := in_media_type s; frame_size := frame_size s;
     remove_padding := remove_padding s;
     externalConverter := externalConverter s; priv_data := v;
     mode := mode s; mode_option := mode_option s; ext_fw := ext_fw s;
     custom_func := custom_func s;
     do_not_append_header := do_not_append_header s;
     tensors_info := tensors_info s; tensors_config := tensors_config s;
     tensors_configured := tensors_configured s;
     adapter_table := adapter_table s; have_segment := have_segment s;
     need_segment := need_segment s; segment := segment s;
     old_timestamp := old_timestamp s |}.

Definition set_do_not_append_header (v : bool) (s : GstTensorConverter) : GstTensorConverter :=
  {| srcpad := srcpad s; silent := silent s; set_timestamp := set_timestamp s;
     frames_per_tensor := frames_per_tensor s;
     in_media_type := in_media_type s; frame_size := frame_size s;
     remove_padding := remove_padding s;
     externalConverter := externalConverter s; priv_data := priv_data s;
     mode := mode s; mode_option := mode_option s; ext_fw := ext_fw s;
     custom_func := custom_func s;
     do_not_append_header := v;
     tensors_info := tensors_info s; tensors_config := tensors_config s;
     tensors_configured := tensors_configured s;
     adapter_table := adapter_table s; have_segment := have_segment s;
     need_segment := need_segment s; segment := segment s;
     old_timestamp := old_timestamp s |}.

Definition set_tensors_info (v : GstTensorsInfo) (s : GstTensorConverter) : GstTensorConverter :=
  {| srcpad := srcpad s; silent := silent s; set_timestamp := set_timestamp s;
     frames_per_tensor := frames_per_tensor s;
     in_media_type := in_media_type s; frame_size := frame_size s;
     remove_padding := remove_padding s;
     externalConverter := externalConverter s; priv_data := priv_data s;
     mode := mode s; mode_option := mode_option s; ext_fw := ext_fw s;
     custom_func := custom_func s;
     do_not_append_header := do_not_append_header s;
     tensors_info := v; tensors_config := tensors_config s;
     tensors_configured := tensors_configured s;
     adapter_table := adapter_table s; have_segment := have_segment s;
     need_segment := need_segment s; segment := segment s;
     old_timestamp := old_timestamp s |}.

Definition set_tensors_config (v : GstTensorsConfig) (s : GstTensorConverter) : GstTensorConverter :=
  {| srcpad := srcpad s; silent := silent s; set_timestamp := set_timestamp s;
     frames_per_tensor := frames_per_tensor s;
     in_media_type := in_media_type s; frame_size := frame_size s;
     remove_padding := remove_padding s;
     externalConverter := externalConverter s; priv_data := priv_data s;
     mode := mode s; mode_option := mode_option s; ext_fw := ext_fw s;
     custom_func := custom_func s;
     do_not_append_header := do_not_append_header s;
     tensors_info := tensors_info s; tensors_config := v;
     tensors_configured := tensors_configured s;
     adapter_table := adapter_table s; have_segment := have_segment s;
     need_segment := need_segment s; segment := segment s;
     old_timestamp := old_timestamp s |}.

Definition set_tensors_configured (v : bool) (s : GstTensorConverter) : GstTensorConverter :=
  {| srcpad := srcpad s; silent := silent s; set_timestamp := set_timestamp s;
     frames_per_tensor := frames_per_tensor s;
     in_media_type := in_media_type s; frame_size := frame_size s;
     remove_padding := remove_padding s;
     externalConverter := externalConverter s; priv_data := priv_data s;
     mode := mode s; mode_option := mode_option s; ext_fw := ext_fw s;
     custom_func := custom_func s;
     do_not_append_header := do_not_append_header s;
     tensors_info := tensors_info s; tensors_config := tensors_config s;
     tensors_configured := v;
     adapter_table := adapter_table s; have_segment := have_segment s;
     need_segment := need_segment s; segment := segment s;
     old_timestamp := old_timestamp s |}.

Definition set_adapter_table (v : gmap Z GstAdapter) (s : GstTensorConverter) : GstTensorConverter :=
  {| srcpad := srcpad s; silent := silent s; set_timestamp := set_timestamp s;
     frames_per_tensor := frames_per_tensor s;
     in_media_type := in_media_type s; frame_size := frame_size s;
     remove_padding := remove_padding s;
     externalConverter := externalConverter s; priv_data := priv_data s;
     mode := mode s; mode_option := mode_option s; ext_fw := ext_fw s;
     custom_func := custom_func s;
     do_not_append_header := do_not_append_header s;
     tensors_info := tensors_info s; tensors_config := tensors_config s;
     tensors_configured := tensors_configured s;
     adapter_table := v; have_segment := have_segment s;
     need_segment := need_segment s; segment := segment s;
     old_timestamp := old_timestamp s |}.

Definition set_have_segment (v : bool) (s : GstTensorConverter) : GstTensorConverter :=
  {| srcpad := srcpad s; silent := silent s; set_timestamp := set_timestamp s;
     frames_per_tensor := frames_per_tensor s;
     in_media_type := in_media_type s; frame_size := frame_size s;
     remove_padding := remove_padding s;
     externalConverter := externalConverter s; priv_data := priv_data s;
     mode := mode s; mode_option := mode_option s; ext_fw := ext_fw s;
     custom_func := custom_func s;
     do_not_append_header := do_not_append_header s;
     tensors_info := tensors_info s; tensors_config := tensors_config s;
     tensors_configured := tensors_configured s;
     adapter_table := adapter_table s; have_segment := v;
     need_segment := need_segment s; segment := segment s;
     old_timestamp := old_timestamp s |}.

Definition set_need_segment (v : bool) (s : GstTensorConverter) : GstTensorConverter :=
  {| srcpad := srcpad s; silent := silent s; set_timestamp := set_timestamp s;
     frames_per_tensor := frames_per_tensor s;
     in_media_type := in_media_type s; frame_size := frame_size s;
     remove_padding := remove_padding s;
     externalConverter := externalConverter s; priv_data := priv_data s;
     mode := mode s; mode_option := mode_option s; ext_fw := ext_fw s;
     custom_func := custom_func s;
     do_not_append_header := do_not_append_header s;
     tensors_info := tensors_info s; tensors_config := tensors_config s;
     tensors_configured := tensors_configured s;
     adapter_table := adapter_table s; have_segment := have_segment s;
     need_segment := v; segment := segment s;
     old_timestamp := old_timestamp s |}.

Definition set_segment (v : GstSegment) (s : GstTensorConverter) : GstTensorConverter :=
  {| srcpad := srcpad s; silent := silent s; set_timestamp := set_timestamp s;
     frames_per_tensor := frames_per_tensor s;
     in_media_type := in_media_type s; frame_size := frame_size s;
     remove_padding := remove_padding s;
     externalConverter := externalConverter s; priv_data := priv_data s;
     mode := mode s; mode_option := mode_option s; ext_fw := ext_fw s;
     custom_func := custom_func s;
     do_not_append_header := do_not_append_header s;
     tensors_info := tensors_info s; tensors_config := tensors_config s;
     tensors_configured := tensors_configured s;
     adapter_table := adapter_table s; have_segment := have_segment s;
     need_segment := need_segment s; segment := v;
     old_timestamp := old_timestamp s |}.

Definition set_old_timestamp (v : GstClockTime) (s : GstTensorConverter) : GstTensorConverter :=
  {| srcpad := srcpad s; silent := silent s; set_timestamp := set_timestamp s;
     frames_per_tensor := frames_per_tensor s;
     in_media_type := in_media_type s; frame_size := frame_size s;
     remove_padding := remove_padding s;
     externalConverter := externalConverter s; priv_data := priv_data s;
     mode := mode s; mode_option := mode_option s; ext_fw := ext_fw s;
     custom_func := custom_func s;
     do_not_append_header := do_not_append_header s;
     tensors_info := tensors_info s; tensors_config := tensors_config s;
     tensors_configured := tensors_configured s;
     adapter_table := adapter_table s; have_segment := have_segment s;
     need_segment := need_segment s; segment := segment s;
     old_timestamp := v |}.

(** ** Element set-up *)

(** gst_tensor_converter_reset *)
Definition gst_tensor_converter_reset (self : GstTensorConverter)
  : GstTensorConverter :=
  let self :=
    set_adapter_table (gst_tensor_aggregation_clear_all (adapter_table self))
                      self in
  let self := set_have_segment false self in
  let self := set_need_segment false self in
  let self := set_segment (gst_segment_init GST_FORMAT_TIME) self in
  set_old_timestamp GST_CLOCK_TIME_NONE self.

(** gst_tensor_converter_init, for a source pad linked to the given peer. *)
Definition gst_tensor_converter_init (pad : GstPad) : GstTensorConverter :=
  gst_tensor_converter_reset
    {| srcpad := pad; silent := true; set_timestamp := true;
       frames_per_tensor := 1; in_media_type := _NNS_MEDIA_INVALID;
       frame_size := 0; remove_padding := false;
       externalConverter := None; priv_data := 0;
       mode := _CONVERTER_MODE_NONE; mode_option := None; ext_fw := None;
       custom_func := None; do_not_append_header := false;
       tensors_info := gst_tensors_info_init;
       tensors_config := gst_tensors_config_init;
       tensors_configured := false; adapter_table := ∅;
       have_segment := false; need_segment := false;
       segment := gst_segment_init GST_FORMAT_TIME;
       old_timestamp := GST_CLOCK_TIME_NONE |}.

(** gst_tensor_converter_get_adapter: the key of a buffer's substream is the
    client id of its query meta, 0 without one. *)
Definition adapter_key (buf : GstBuffer) : Z := default 0 (buffer_meta_query buf).

Definition gst_tensor_converter_get_adapter (self : GstTensorConverter)
    (buf : GstBuffer) : GstAdapter * gmap Z GstAdapter :=
  gst_tensor_aggregation_get_adapter (adapter_table self) (adapter_key buf).

(** ** Publishing the descriptor *)

(** gst_tensor_converter_update_caps *)
Definition gst_tensor_converter_update_caps (self : GstTensorConverter)
  : GstTensorConverter :=
  let config := tensors_config self in
  let out_caps := gst_tensor_pad_caps_from_config (srcpad self) config in
  (* Update src pad caps if it is different. *)
  let curr_caps := gst_pad_get_current_caps (srcpad self) in
  match curr_caps with
  | Some curr =>
      if negb (gst_caps_is_equal curr out_caps)
      then set_srcpad (gst_pad_set_caps (srcpad self) out_caps) self
      else self
  | None => set_srcpad (gst_pad_set_caps (srcpad self) out_caps) self
  end.

(** ** The data path *)

(** _gst_tensor_converter_chain_segment *)
Definition _gst_tensor_converter_chain_segment (self : GstTensorConverter)
    (frame_size : Z) : M GstTensorConverter :=
  if need_segment self then
    let config := tensors_config self in
    let have_framerate := (0 <? rate_n config) && (0 <? rate_d config) in
    (* This is an internal logic error. *)
    _ ← g_assert (have_segment self);
    let start := segment_start (segment self) in
    let seg := gst_segment_init GST_FORMAT_TIME in
    let seg :=
      if have_framerate && (0 <? start) then
        let start :=
          gst_util_uint64_scale_int (to_guint64 (start * rate_d config))
            GST_SECOND (to_guint64 (frame_size * rate_n config)) in
        {| segment_format := segment_format seg;
           segment_start := start; segment_time := start |}
      else seg in
    let self := set_segment seg self in
    let self := set_need_segment false self in
    mret (set_srcpad (gst_pad_push_segment (srcpad self) seg) self)
  else mret self.

(** _gst_tensor_converter_chain_timestamp *)
Definition _gst_tensor_converter_chain_timestamp (w : World)
    (self : GstTensorConverter) (inbuf : GstBuffer) (frames_in : Z)
  : GstTensorConverter * GstBuffer :=
  let inbuf :=
    if set_timestamp self then
      let config := tensors_config self in
      let have_framerate := (0 <? rate_n config) && (0 <? rate_d config) in
      (* set duration *)
      let duration := buffer_duration inbuf in
      let '(duration, inbuf) :=
        if negb (GST_CLOCK_TIME_IS_VALID duration) && have_framerate then
          let duration :=
            gst_util_uint64_scale_int (to_guint64 (frames_in * rate_d config))
              GST_SECOND (rate_n config) in
          (duration, set_buffer_duration duration inbuf)
        else (duration, inbuf) in
      (* set timestamp if buffer has invalid timestamp *)
      let pts := buffer_pts inbuf in
      if negb (GST_CLOCK_TIME_IS_VALID pts) then
        let pts := segment_start (segment self) in
        let pts :=
          if have_framerate then
            if GST_CLOCK_TIME_IS_VALID (old_timestamp self)
            then to_guint64 (old_timestamp self + duration)
            else pts
          else
            match element_clock w with
            | Some now =>
                let base := element_base_time w in
                if base <? now then now - base else 0
            | None => pts
            end in
        set_buffer_pts pts inbuf
      else inbuf
    else inbuf in
  (* update old timestamp *)
  (set_old_timestamp (buffer_pts inbuf) self, inbuf).

(** _gst_tensor_converter_chain_octet *)
Definition _gst_tensor_converter_chain_octet (self : GstTensorConverter)
    (buf : GstBuffer) : M GstBuffer :=
  let info := config_info (tensors_config self) in
  let multi := 1 <? num_tensors info in
  (* configure multi tensors *)
  if multi || (1 <? gst_buffer_n_memory buf) then
    _ ← g_assert (frames_per_tensor self =? 1);
    let buffer := gst_buffer_new in
    let mem := gst_buffer_get_all_memory buf in
    let buffer :=
      if multi then
        fst (foldl
               (fun '(buffer, offset) i =>
                  let _info := gst_tensors_info_get_nth_info info i in
                  let size := gst_tensor_info_get_size _info in
                  let new_mem := gst_memory_share mem offset size in
                  (gst_tensor_buffer_append_memory buffer (Some new_mem),
                   to_guint64 (offset + size)))
               (buffer, 0) (tensor_indices (num_tensors info)))
      else gst_tensor_buffer_append_memory buffer (Some mem) in
    (* copy timestamps *)
    mret (gst_buffer_copy_metadata buffer buf)
  else mret buf.

(** _gst_tensor_converter_chain_flex_tensor *)
Definition _gst_tensor_converter_chain_flex_tensor (self : GstTensorConverter)
    (buf : GstBuffer) : GstBuffer :=
  let info := config_info (tensors_config self) in
  let buffer :=
    foldl
      (fun buffer i =>
         let _info := gst_tensors_info_get_nth_info info i in
         let meta := gst_tensor_info_convert_to_meta _info in
         (* set media type *)
         let meta :=
           match in_media_type self with
           | _NNS_VIDEO | _NNS_AUDIO | _NNS_TEXT | _NNS_OCTET =>
               set_meta_media_type (in_media_type self) meta
           | _ => set_meta_media_type _NNS_TENSOR meta
           end in
         let mem := gst_tensor_buffer_get_nth_memory buf i in
         let new_mem := gst_tensor_meta_info_append_header meta mem in
         gst_tensor_buffer_append_memory buffer new_mem)
      gst_buffer_new (tensor_indices (num_tensors info)) in
  gst_buffer_copy_metadata buffer buf.

(** _gst_tensor_converter_chain_push *)
Definition _gst_tensor_converter_chain_push (self : GstTensorConverter)
    (buf : GstBuffer) : M (GstFlowReturn * GstTensorConverter) :=
  buffer ← (if bool_decide (in_media_type self = _NNS_OCTET)
            then _gst_tensor_converter_chain_octet self buf
            else mret buf);
  (* if output is flexible, add header. *)
  let buffer :=
    if negb (do_not_append_header self)
       && gst_tensor_pad_caps_is_flexible (srcpad self)
    then _gst_tensor_converter_chain_flex_tensor self buffer
    else buffer in
  let '(ret, pad) := gst_pad_push (srcpad self) buffer in
  mret (ret, set_srcpad pad self).

(** The while loop of _gst_tensor_converter_chain_chunk.  Every round takes
    out_size > 0 bytes from the adapter, so the number of rounds is bounded
    by the bytes available on entry; the loop is given that many rounds and
    one more for the final test. *)
Fixpoint chain_chunk_loop (rounds : nat) (self : GstTensorConverter)
    (adapter : GstAdapter) (frames_in frame_size out_size : Z)
    (duration : GstClockTime) (ret : GstFlowReturn)
  : M (GstFlowReturn * GstTensorConverter * GstAdapter) :=
  match rounds with
  | O => Abort
  | S rounds' =>
      let config := tensors_config self in
      let have_framerate := (0 <? rate_n config) && (0 <? rate_d config) in
      let avail := gst_adapter_available adapter in
      if (out_size <=? avail) && bool_decide (ret = GST_FLOW_OK) then
        let '(pts, pts_dist) := gst_adapter_prev_pts adapter in
        let '(dts, dts_dist) := gst_adapter_prev_dts adapter in
        (* Update timestamp. *)
        let '(pts, dts) :=
          if (1 <? frames_in) && have_framerate then
            (if GST_CLOCK_TIME_IS_VALID pts then
               to_guint64
                 (pts + gst_util_uint64_scale_int
                          (to_guint64 (pts_dist * rate_d config)) GST_SECOND
                          (to_guint64 (rate_n config * frame_size)))
             else pts,
             if GST_CLOCK_TIME_IS_VALID dts then
               to_guint64
                 (dts + gst_util_uint64_scale_int
                          (to_guint64 (dts_dist * rate_d config)) GST_SECOND
                          (to_guint64 (rate_n config * frame_size)))
             else dts)
          else (pts, dts) in
        match gst_adapter_take_buffer adapter out_size with
        | None => Abort
        | Some (outbuf, adapter) =>
            (* set timestamp *)
            let outbuf := set_buffer_pts pts outbuf in
            let outbuf := set_buffer_dts dts outbuf in
            let outbuf := set_buffer_duration duration outbuf in
            '(ret, self) ← _gst_tensor_converter_chain_push self outbuf;
            chain_chunk_loop rounds' self adapter frames_in frame_size
                             out_size duration ret
        end
      else mret (ret, self, adapter)
  end.

(** _gst_tensor_converter_chain_chunk *)
Definition _gst_tensor_converter_chain_chunk (self : GstTensorConverter)
    (inbuf : GstBuffer) (frames_in frames_out frame_size : Z)
  : M (GstFlowReturn * GstTensorConverter) :=
  let '(adapter, table) := gst_tensor_converter_get_adapter self inbuf in
  let self := set_adapter_table table self in
  let duration := buffer_duration inbuf in
  let duration :=
    if GST_CLOCK_TIME_IS_VALID duration then
      (* supposed same duration for incoming buffer *)
      gst_util_uint64_scale_int duration frames_out frames_in
    else duration in
  let adapter := gst_adapter_push adapter inbuf in
  let out_size := to_guint64 (frames_out * frame_size) in
  '(ret, self, adapter) ←
    chain_chunk_loop (S (Z.to_nat (gst_adapter_available adapter))) self
                     adapter frames_in frame_size out_size duration GST_FLOW_OK;
  mret (ret, set_adapter_table (<[adapter_key inbuf := adapter]>
                                  (adapter_table self)) self).

(** n rounds of a loop body. *)
Fixpoint iterM {A : Type} (n : nat) (body : A → M A) (a : A) : M A :=
  match n with
  | O => mret a
  | S n' => a' ← body a; iterM n' body a'
  end.

(** memcpy (dest + dest_idx, src + src_idx, n) on mapped buffers; a copy
    that leaves either buffer is a memory fault. *)
Definition memcpy (dest : list byte) (dest_idx : Z) (src : list byte)
    (src_idx : Z) (n : Z) : M (list byte) :=
  if (src_idx + n <=? Z.of_nat (length src))
     && (dest_idx + n <=? Z.of_nat (length dest))
  then mret (take (Z.to_nat dest_idx) dest
             ++ take (Z.to_nat n) (drop (Z.to_nat src_idx) src)
             ++ drop (Z.to_nat (dest_idx + n)) dest)
  else Abort.

(** The copy loops of the video case: the cursor is the destination data
    with the two unsigned int indices src_idx and dest_idx. *)
Definition depad_row (src : list byte) (size offset : Z)
    (cur : list byte * Z * Z) : M (list byte * Z * Z) :=
  let '(dest, src_idx, dest_idx) := cur in
  dest ← memcpy dest dest_idx src src_idx size;
  mret (dest, to_guint (src_idx + offset), to_guint (dest_idx + size)).

Definition depad_frames (src : list byte) (frames_in height size offset : Z)
    (dest : list byte) : M (list byte) :=
  '(dest, _, _) ←
    iterM (Z.to_nat frames_in)
          (iterM (Z.to_nat height) (depad_row src size offset))
          (dest, 0, 0);
  mret dest.

(** What the switch over the media type of gst_tensor_converter_chain leaves
    behind: either the jump to the error label, or the element, the buffer
    to forward, the frame size and the number of frames in the buffer. *)
Inductive chain_media : Type :=
| chain_error
| chain_next (self : GstTensorConverter) (inbuf : GstBuffer)
             (frame_size frames_in : Z).

(** case _NNS_VIDEO *)
Definition chain_video (self : GstTensorConverter) (buf : GstBuffer)
    (buf_size frames_in : Z) : M chain_media :=
  let config := tensors_config self in
  let info0 := gst_tensors_info_get_nth_info (config_info config) 0 in
  let color := dim_get (info_dimension info0) 0 in
  let width := dim_get (info_dimension info0) 1 in
  let height := dim_get (info_dimension info0) 2 in
  let type := gst_tensor_get_element_size (info_type info0) in
  let self_frame_size := frame_size self in
  (* type * colorspace * width * height *)
  let frame_size := to_guint64 (type * color * width * height) in
  (* supposed 1 frame in buffer; the division traps on a zero divisor *)
  _ ← g_assert (negb (self_frame_size =? 0));
  _ ← g_assert (buf_size / self_frame_size =? 1);
  if remove_padding self then
    let src := gst_buffer_get_all_memory buf in
    let inbuf := gst_buffer_new_zeroed frame_size in
    let size := to_guint64 (type * color * width) in
    let offset := size in
    _ ← g_assert (negb (offset mod 4 =? 0)); (* Internal logic error! *)
    let offset :=
      if negb (offset mod 4 =? 0)
      then to_guint64 (offset + (4 - offset mod 4)) else offset in
    dest ← depad_frames src frames_in height size offset
                        (gst_buffer_get_all_memory inbuf);
    let inbuf := set_buffer_memory [dest] inbuf in
    (* copy timestamps *)
    let inbuf := gst_buffer_copy_metadata inbuf buf in
    mret (chain_next self inbuf frame_size frames_in)
  else mret (chain_next self buf frame_size frames_in).

(** case _NNS_AUDIO *)
Definition chain_audio (self : GstTensorConverter) (buf : GstBuffer)
    (buf_size : Z) : M chain_media :=
  let frame_size := frame_size self in
  (* the division traps on a zero divisor *)
  _ ← g_assert (negb (frame_size =? 0));
  (* number of bytes for one frame *)
  let frames_in := to_guint (buf_size / frame_size) in
  mret (chain_next self buf frame_size frames_in).

(** case _NNS_TEXT *)
Definition chain_text (self : GstTensorConverter) (buf : GstBuffer)
    (buf_size frames_in : Z) : M chain_media :=
  let frame_size := frame_size self in
  if negb (buf_size =? frame_size) then
    let block_size := Z.min buf_size frame_size in
    let src := gst_buffer_get_all_memory buf in
    let inbuf := gst_buffer_new_zeroed frame_size in
    dest ← memcpy (gst_buffer_get_all_memory inbuf) 0 src 0 block_size;
    let inbuf := set_buffer_memory [dest] inbuf in
    (* copy timestamps *)
    let inbuf := gst_buffer_copy_metadata inbuf buf in
    mret (chain_next self inbuf frame_size frames_in)
  else mret (chain_next self buf frame_size frames_in).

(** case _NNS_OCTET *)
Definition chain_octet (self : GstTensorConverter) (buf : GstBuffer)
    (buf_size frames_in : Z) : M chain_media :=
  let config := tensors_config self in
  if gst_tensors_config_is_flexible config then
    (* update dimension with buffer size *)
    let config := upd_info0 (set_info_dimension 0 buf_size) config in
    let self := set_tensors_config config self in
    mret (chain_next self buf buf_size frames_in)
  else
    (* get frame size from the properties *)
    let frame_size := frame_size self in
    (* the remainder traps on a zero divisor *)
    _ ← g_assert (negb (frame_size =? 0));
    _ ← g_assert (buf_size mod frame_size =? 0);
    let frames_in := to_guint (buf_size / frame_size) in
    mret (chain_next self buf frame_size frames_in).

(** The loop of case _NNS_TENSOR over the records of the buffer: the
    descriptor found in each header is stored in tmp, the payload size is
    compared with the size of that descriptor, and the payload is appended
    to the new buffer.  [None] is the jump to the error label. *)
Definition chain_tensor_record (buf : GstBuffer)
    (acc : option (GstTensorsConfig * GstBuffer)) (n : nat)
  : option (GstTensorsConfig * GstBuffer) :=
  '(tmp, inbuf) ← acc;
  mem ← gst_tensor_buffer_get_nth_memory buf n;
  let s1 := gst_memory_get_sizes mem in
  (* flex-tensor has header in each mem block *)
  let meta := gst_tensor_meta_info_parse_memory mem in
  let _info := gst_tensor_meta_info_convert meta in
  let tmp := upd_config_info (upd_nth_info n (fun _ => _info)) tmp in
  let hsize := gst_tensor_meta_info_get_header_size meta in
  let s1 := to_guint64 (s1 - hsize) in
  let s2 := gst_tensor_info_get_size _info in
  if negb (s1 =? s2) then None
  else
    let new_mem := gst_memory_share mem hsize s1 in
    Some (tmp, gst_tensor_buffer_append_memory inbuf (Some new_mem)).

(** case _NNS_TENSOR *)
Definition chain_tensor (self : GstTensorConverter) (buf : GstBuffer)
    (frames_in : Z) : chain_media :=
  let config := tensors_config self in
  let tmp := gst_tensors_config_init in
  let tmp := set_rate (rate_n config) (rate_d config) tmp in
  let tmp := upd_config_info (set_format _NNS_TENSOR_FORMAT_FLEXIBLE) tmp in
  let buf := gst_tensor_buffer_from_config buf tmp in
  (* type and dimension from buffer *)
  let tmp := upd_config_info (set_format _NNS_TENSOR_FORMAT_STATIC) tmp in
  let tmp :=
    upd_config_info (set_num_tensors (gst_tensor_buffer_get_count buf)) tmp in
  (* compare data size and append memory *)
  let inbuf := gst_buffer_new in
  match foldl (chain_tensor_record buf) (Some (tmp, inbuf))
              (tensor_indices (num_tensors (config_info tmp))) with
  | None => chain_error
  | Some (tmp, inbuf) =>
      let inbuf := gst_buffer_copy_metadata inbuf buf in
      if negb (gst_tensors_config_is_equal config tmp) then
        if gst_tensors_info_validate (tensors_info self) then chain_error
        else
          (* update caps with new configuration *)
          let self := set_tensors_config tmp self in
          let self := gst_tensor_converter_update_caps self in
          chain_next self inbuf (frame_size self) frames_in
      else chain_next self inbuf (frame_size self) frames_in
  end.

(** case _NNS_MEDIA_ANY *)
Definition chain_any (self : GstTensorConverter) (buf : GstBuffer)
  : chain_media :=
  let config := tensors_config self in
  let converted :=
    if bool_decide (mode self = _CONVERTER_MODE_CUSTOM_CODE) then
      match custom_func self with
      | None => None
      | Some func => func buf
      end
    else
      match externalConverter self with
      | Some ex =>
          match converter_convert ex with
          | Some convert => convert buf (priv_data self)
          | None => None
          end
      | None => None
      end in
  match converted with
  | None => chain_error
  | Some (inbuf, new_config) =>
      let self :=
        set_do_not_append_header
          (bool_decide (format (config_info new_config)
                        = _NNS_TENSOR_FORMAT_FLEXIBLE)) self in
      let frames_in := 1 in
      let frame_size := gst_buffer_get_size inbuf in
      if negb (gst_tensors_config_is_equal config new_config) then
        let self := set_tensors_config new_config self in
        let self := gst_tensor_converter_update_caps self in
        chain_next self inbuf frame_size frames_in
      else chain_next self inbuf frame_size frames_in
  end.

(** gst_tensor_converter_chain *)
Definition gst_tensor_converter_chain (w : World) (self : GstTensorConverter)
    (buf : GstBuffer) : M (GstFlowReturn * GstTensorConverter) :=
  let buf_size := gst_buffer_get_size buf in
  if negb (0 <? buf_size) then mret (GST_FLOW_ERROR, self)
  else
    (* This is an internal logic error. *)
    _ ← g_assert (tensors_configured self);
    let frames_out := frames_per_tensor self in
    (* Supposed 1 frame in buffer (default). *)
    let frames_in := 1 in
    media ←
      match in_media_type self with
      | _NNS_VIDEO => chain_video self buf buf_size frames_in
      | _NNS_AUDIO => chain_audio self buf buf_size
      | _NNS_TEXT => chain_text self buf buf_size frames_in
      | _NNS_OCTET => chain_octet self buf buf_size frames_in
      | _NNS_TENSOR => mret (chain_tensor self buf frames_in)
      | _NNS_MEDIA_ANY => mret (chain_any self buf)
      | _NNS_MEDIA_INVALID => mret chain_error
      end;
    match media with
    | chain_error => mret (GST_FLOW_ERROR, self)
    | chain_next self inbuf frame_size frames_in =>
        (* convert format (bytes > time) and push segment event. *)
        self ← _gst_tensor_converter_chain_segment self frame_size;
        (* configures timestamp if required *)
        let '(self, inbuf) :=
          _gst_tensor_converter_chain_timestamp w self inbuf frames_in in
        if frames_in =? frames_out then
          (* do nothing, push the incoming buffer *)
          _gst_tensor_converter_chain_push self inbuf
        else
          (* push multiple buffers *)
          _gst_tensor_converter_chain_chunk self inbuf frames_in frames_out
                                            frame_size
    end.

(** ** Capability parsers *)

(** The C operator % on int. *)
Definition c_rem (a b : Z) : Z := Z.rem a b.

(** gst_tensor_converter_video_stride *)
Definition gst_tensor_converter_video_stride (b : BuildConfig)
    (format : GstVideoFormat) (width : Z) : bool :=
  match format with
  | GST_VIDEO_FORMAT_GRAY8
  | GST_VIDEO_FORMAT_RGB
  | GST_VIDEO_FORMAT_BGR
  | GST_VIDEO_FORMAT_I420 => negb (c_rem width 4 =? 0)
  | GST_VIDEO_FORMAT_RGBP
  | GST_VIDEO_FORMAT_BGRP =>
      if gst_check_version_1_20 b then negb (c_rem width 4 =? 0) else false
  | _ => false
  end.

(** config->info.info[0].type = t; the three dimension stores follow. *)
Definition set_video_info (t : tensor_type) (d0 d1 d2 : Z)
    (config : GstTensorsConfig) : GstTensorsConfig :=
  let config := upd_info0 (set_info_type t) config in
  let config := upd_info0 (set_info_dimension 0 d0) config in
  let config := upd_info0 (set_info_dimension 1 d1) config in
  upd_info0 (set_info_dimension 2 d2) config.

(** gst_tensor_converter_parse_video: the result, the element and the
    configuration that was filled. *)
Definition gst_tensor_converter_parse_video (b : BuildConfig)
    (self : GstTensorConverter) (caps : GstCaps)
  : bool * GstTensorConverter * GstTensorsConfig :=
  let config := gst_tensors_config_init in
  match gst_video_info_from_caps caps with
  | None => (false, self, config)
  | Some vinfo =>
      let format := vinfo_format vinfo in
      let width := vinfo_width vinfo in
      let height := vinfo_height vinfo in
      let config := upd_config_info (set_num_tensors 1) config in
      (* [color-space][width][height][frames] *)
      let config :=
        match format with
        | GST_VIDEO_FORMAT_GRAY8 =>
            set_video_info _NNS_UINT8 1 width height config
        | GST_VIDEO_FORMAT_GRAY16_BE
        | GST_VIDEO_FORMAT_GRAY16_LE =>
            set_video_info _NNS_UINT16 1 width height config
        | GST_VIDEO_FORMAT_RGB
        | GST_VIDEO_FORMAT_BGR =>
            set_video_info _NNS_UINT8 3 width height config
        | GST_VIDEO_FORMAT_RGBx
        | GST_VIDEO_FORMAT_BGRx
        | GST_VIDEO_FORMAT_xRGB
        | GST_VIDEO_FORMAT_xBGR
        | GST_VIDEO_FORMAT_RGBA
        | GST_VIDEO_FORMAT_BGRA
        | GST_VIDEO_FORMAT_ARGB
        | GST_VIDEO_FORMAT_ABGR =>
            set_video_info _NNS_UINT8 4 width height config
        | GST_VIDEO_FORMAT_RGBP
        | GST_VIDEO_FORMAT_BGRP =>
            if gst_check_version_1_20 b
            then set_video_info _NNS_UINT8 width height 3 config
            else config
        | _ => config
        end in
      (* Supposed 1 frame in tensor, change dimension[3] if tensor contains
         N frames. *)
      let config := upd_info0 (set_info_dimension 3 1) config in
      let config := upd_info0 (clear_dimension_from 4) config in
      let config := set_rate (vinfo_fps_n vinfo) (vinfo_fps_d vinfo) config in
      let finish (self : GstTensorConverter) :=
        (negb (bool_decide
                 (info_type (gst_tensors_info_get_nth_info (config_info config) 0)
                  = _NNS_END)),
         set_frame_size (vinfo_size vinfo) self, config) in
      if gst_tensor_converter_video_stride b format width then
        let self := set_remove_padding true self in
        if gst_check_version_1_20 b
           && (bool_decide (format = GST_VIDEO_FORMAT_RGBP)
               || bool_decide (format = GST_VIDEO_FORMAT_BGRP))
           && remove_padding self
        then (false, self, config)
        else finish self
      else finish self
  end.

(** gst_tensor_converter_parse_audio *)
Definition gst_tensor_converter_parse_audio (self : GstTensorConverter)
    (caps : GstCaps) : bool * GstTensorConverter * GstTensorsConfig :=
  let config := gst_tensors_config_init in
  match gst_audio_info_from_caps caps with
  | None => (false, self, config)
  | Some ainfo =>
      let format := ainfo_format ainfo in
      let channels := ainfo_channels ainfo in
      let config := upd_config_info (set_num_tensors 1) config in
      (* [channels][frames] *)
      let config :=
        match format with
        | GST_AUDIO_FORMAT_S8 => upd_info0 (set_info_type _NNS_INT8) config
        | GST_AUDIO_FORMAT_U8 => upd_info0 (set_info_type _NNS_UINT8) config
        | GST_AUDIO_FORMAT_S16 => upd_info0 (set_info_type _NNS_INT16) config
        | GST_AUDIO_FORMAT_U16 => upd_info0 (set_info_type _NNS_UINT16) config
        | GST_AUDIO_FORMAT_S32 => upd_info0 (set_info_type _NNS_INT32) config
        | GST_AUDIO_FORMAT_U32 => upd_info0 (set_info_type _NNS_UINT32) config
        | GST_AUDIO_FORMAT_F32 => upd_info0 (set_info_type _NNS_FLOAT32) config
        | GST_AUDIO_FORMAT_F64 => upd_info0 (set_info_type _NNS_FLOAT64) config
        | _ => config
        end in
      let config := upd_info0 (set_info_dimension 0 channels) config in
      (* Supposed 1 frame in tensor, change dimension[1] if tensor contains
         N frames. *)
      let config := upd_info0 (set_info_dimension 1 1) config in
      let config := upd_info0 (clear_dimension_from 2) config in
      let config := set_rate (ainfo_rate ainfo) 1 config in
      (negb (bool_decide
               (info_type (gst_tensors_info_get_nth_info (config_info config) 0)
                = _NNS_END)),
       set_frame_size (ainfo_bpf ainfo) self, config)
  end.

(** The framerate field of the structure, or 0/1 without one. *)
Definition set_rate_from_structure (structure : GstStructure)
    (config : GstTensorsConfig) : GstTensorsConfig :=
  match structure_framerate structure with
  | Some (n, d) => set_rate n d config
  | None => set_rate 0 1 config (* cannot get the framerate *)
  end.

(** gst_tensor_converter_parse_text *)
Definition gst_tensor_converter_parse_text (self : GstTensorConverter)
    (structure : GstStructure)
  : bool * GstTensorConverter * GstTensorsConfig :=
  let config := gst_tensors_config_init in
  (* get fixed size of text string from property *)
  let text_size :=
    dim_get (info_dimension (gst_tensors_info_get_nth_info (tensors_info self) 0))
            0 in
  if text_size =? 0 then (false, self, config)
  else
    let format_ok :=
      match structure_format structure with
      | Some format_string =>
          if g_ascii_strcaseeq format_string "utf8"
          then Some (upd_info0 (set_info_type _NNS_UINT8) config)
          else None
      | None => Some config
      end in
    match format_ok with
    | None => (false, self, config)
    | Some config =>
        let config := upd_config_info (set_num_tensors 1) config in
        (* [size][frames] *)
        let config := upd_info0 (set_info_dimension 0 text_size) config in
        let config := upd_info0 (set_info_dimension 1 1) config in
        let config := upd_info0 (clear_dimension_from 2) config in
        let config := set_rate_from_structure structure config in
        let info0 := gst_tensors_info_get_nth_info (config_info config) 0 in
        (negb (bool_decide (info_type info0 = _NNS_END)),
         set_frame_size (gst_tensor_info_get_size info0) self, config)
    end.

(** The placeholder descriptor of a stream whose shape is only known from
    its buffers: one uint8 tensor of dimension [1]. *)
Definition set_placeholder_info (config : GstTensorsConfig) : GstTensorsConfig :=
  let config := upd_config_info (set_num_tensors 1) config in
  let config := upd_info0 (set_info_type _NNS_UINT8) config in
  let config := upd_info0 (set_info_dimension 0 1) config in
  upd_info0 (clear_dimension_from 1) config.

(** gst_tensor_converter_parse_octet *)
Definition gst_tensor_converter_parse_octet (self : GstTensorConverter)
    (structure : GstStructure)
  : bool * GstTensorConverter * GstTensorsConfig :=
  let info := tensors_info self in
  let config := gst_tensors_config_init in
  (* get possible tensors info from peer if no property is given *)
  let resolved :=
    if negb (gst_tensors_info_validate info) then
      let '(ok, peer, _) := gst_tensors_config_from_peer (srcpad self) in
      let flexible := ok && gst_tensors_config_is_flexible peer in
      let configured := ok && gst_tensors_info_validate (config_info peer) in
      let info := if configured then config_info peer else info in
      if negb flexible && negb configured then None
      else Some (info, flexible)
    else Some (info, false) in
  match resolved with
  | None => (false, self, config)
  | Some (info, flexible) =>
      if (1 <? frames_per_tensor self) && (1 <? num_tensors info)
      then (false, self, config)
      else if (1 <? frames_per_tensor self) && flexible
      then (false, self, config)
      else
        let config := set_rate_from_structure structure config in
        if flexible then
          let config :=
            upd_config_info (set_format _NNS_TENSOR_FORMAT_FLEXIBLE) config in
          (true, self, set_placeholder_info config)
        else
          let config := set_config_info (gst_tensors_info_copy info) config in
          (true,
           set_frame_size (gst_tensors_info_get_size (config_info config)) self,
           config)
  end.

(** gst_tensor_converter_parse_tensor *)
Definition gst_tensor_converter_parse_tensor (self : GstTensorConverter)
    (structure : GstStructure)
  : bool * GstTensorConverter * GstTensorsConfig :=
  let info := tensors_info self in
  let config := gst_tensors_config_init in
  if 1 <? frames_per_tensor self then (false, self, config)
  else
    (* update tensor info from properties *)
    let '(self, config) :=
      if gst_tensors_info_validate info then
        let config := set_config_info (gst_tensors_info_copy info) config in
        (set_frame_size (gst_tensors_info_get_size (config_info config)) self,
         config)
      else (self, set_placeholder_info config) in
    (true, self, set_rate_from_structure structure config).

(** g_strcmp0 (media_type, name) == 0, where media_type may be NULL. *)
Definition g_strcmp0_eq (media_type : option string) (name : string) : bool :=
  match media_type with
  | Some m => String.eqb m name
  | None => false
  end.

(** findExternalConverter: a sub-plugin by its name, or by the name of a
    structure of the capability it reports; the first registered wins. *)
Fixpoint findExternalConverter_loop (w : World) (media_type : option string)
    (str_array : list string) : option NNStreamerExternalConverter :=
  match str_array with
  | [] => None
  | name :: rest =>
      let ex := nnstreamer_converter_find w name in
      if g_strcmp0_eq media_type name then ex (* found matched media type *)
      else
        match ex with
        | Some e =>
            match converter_query_caps e with
            | Some caps_names =>
                if existsb (g_strcmp0_eq media_type) caps_names then Some e
                else findExternalConverter_loop w media_type rest
            | None => findExternalConverter_loop w media_type rest
            end
        | None => findExternalConverter_loop w media_type rest
        end
  end.

Definition findExternalConverter (w : World) (media_type : option string)
  : option NNStreamerExternalConverter :=
  findExternalConverter_loop w media_type (get_all_subplugins w).

(** gst_tensor_parse_dimension ("1:1:1:1", dim) *)
Definition dimension_1_1_1_1 : tensor_dim :=
  [1; 1; 1; 1] ++ replicate (NNS_TENSOR_RANK_LIMIT - 4) 0.

(** gst_tensor_converter_parse_custom *)
Definition gst_tensor_converter_parse_custom (w : World)
    (self : GstTensorConverter) (caps : GstCaps)
  : bool * GstTensorConverter * GstTensorsConfig :=
  if negb (gst_caps_is_fixed caps) then (false, self, gst_tensors_config_init)
  else
    let '(_, config, is_fixed) := gst_tensors_config_from_peer (srcpad self) in
    let structure := gst_caps_get_structure caps in
    let mimetype := Some (gst_structure_get_name structure) in
    if bool_decide (mode self = _CONVERTER_MODE_CUSTOM_CODE) then
      if negb is_fixed then
        let config := gst_tensors_config_init in
        (* All tensor info should be updated later in chain function. *)
        let config := upd_config_info (set_num_tensors 1) config in
        let config := upd_info0 (set_info_type _NNS_UINT8) config in
        let config :=
          upd_info0 (fun i => {| info_name := info_name i;
                                 info_type := info_type i;
                                 info_dimension := dimension_1_1_1_1 |})
                    config in
        (true, self, set_rate_from_structure structure config)
      else (true, self, config)
    else
      match externalConverter self with
      | Some _ => (true, self, config)
      | None =>
          let mimetype :=
            if bool_decide (mode self = _CONVERTER_MODE_CUSTOM_SCRIPT)
            then ext_fw self else mimetype in
          match findExternalConverter w mimetype with
          | None => (false, self, config)
          | Some ex =>
              let out_config :=
                if negb is_fixed then
                  match converter_get_out_config ex with
                  | None => None
                  | Some get_out_config => get_out_config caps config
                  end
                else Some config in
              match out_config with
              | None => (false, self, config)
              | Some config =>
                  let self := set_externalConverter (Some ex) self in
                  if bool_decide (mode self = _CONVERTER_MODE_CUSTOM_SCRIPT) then
                    match converter_open ex with
                    | Some open =>
                        let '(ret, priv) := open (mode_option self) in
                        let self := set_priv_data priv self in
                        if ret <? 0
                        then (false, set_externalConverter None self, config)
                        else (true, self, config)
                    | None => (true, self, config)
                    end
                  else (true, self, config)
              end
          end
      end.

(** ** Negotiation *)

(** gst_tensor_converter_parse_caps *)
Definition gst_tensor_converter_parse_caps (w : World) (b : BuildConfig)
    (self : GstTensorConverter) (caps : GstCaps) : bool * GstTensorConverter :=
  if negb (gst_caps_is_fixed caps) then (false, self)
  else
    let structure := gst_caps_get_structure caps in
    let in_type :=
      if negb (bool_decide (mode self = _CONVERTER_MODE_NONE))
      then _NNS_MEDIA_ANY
      else gst_structure_get_media_type structure in
    (* the parser's result, the element, the configuration, the media type
       and the dimension index of frames in configured tensors *)
    let '(ok, self, config, in_type, frames_dim) :=
      match in_type with
      | _NNS_VIDEO =>
          if video_support b then
            let '(ok, self, config) :=
              gst_tensor_converter_parse_video b self caps in
            (ok, self, config, in_type, Some 3%nat)
          else (false, self, gst_tensors_config_init, in_type, None)
      | _NNS_AUDIO =>
          if audio_support b then
            let '(ok, self, config) :=
              gst_tensor_converter_parse_audio self caps in
            (ok, self, config, in_type, Some 1%nat)
          else (false, self, gst_tensors_config_init, in_type, None)
      | _NNS_TEXT =>
          let '(ok, self, config) :=
            gst_tensor_converter_parse_text self structure in
          (ok, self, config, in_type, Some 1%nat)
      | _NNS_OCTET =>
          let '(ok, self, config) :=
            gst_tensor_converter_parse_octet self structure in
          (ok, self, config, in_type, None)
      | _NNS_TENSOR =>
          (* flexible tensor to static tensor stream *)
          let '(ok, self, config) :=
            gst_tensor_converter_parse_tensor self structure in
          (ok, self, config, in_type, None)
      | _ =>
          let '(ok, self, config) :=
            gst_tensor_converter_parse_custom w self caps in
          (ok, self, config, _NNS_MEDIA_ANY, None)
      end in
    if negb ok then (false, self)
    else
      (* set the number of frames in dimension *)
      let config :=
        match frames_dim with
        | Some frames_dim =>
            upd_info0 (set_info_dimension frames_dim (frames_per_tensor self))
                      config
        | None => config
        end in
      if negb (gst_tensors_config_validate config) then
        (* not fully configured. the resulting config is weird. *)
        (false, self)
      else if gst_tensors_info_validate (tensors_info self)
              && negb (gst_tensors_info_is_equal (tensors_info self)
                                                 (config_info config))
      then (* compare tensor info *) (false, self)
      else
        let self := set_in_media_type in_type self in
        let self := set_tensors_configured true self in
        let self := set_tensors_config config self in
        (true, self).

(** The events of gst_tensor_converter_sink_event that the element handles
    itself. *)
Inductive GstEvent : Type :=
| GST_EVENT_CAPS (in_caps : GstCaps)
| GST_EVENT_FLUSH_STOP
| GST_EVENT_SEGMENT (seg : GstSegment).

(** gst_tensor_converter_sink_event.  gst_pad_event_default, which forwards
    the flush event, and gst_pad_push_event, which forwards a segment in
    time format, are taken to succeed. *)
Definition gst_tensor_converter_sink_event (w : World) (b : BuildConfig)
    (self : GstTensorConverter) (event : GstEvent) : bool * GstTensorConverter :=
  match event with
  | GST_EVENT_CAPS in_caps =>
      let '(ok, self) := gst_tensor_converter_parse_caps w b self in_caps in
      if ok then (true, gst_tensor_converter_update_caps self)
      else (false, self)
  | GST_EVENT_FLUSH_STOP => (true, gst_tensor_converter_reset self)
  | GST_EVENT_SEGMENT seg =>
      let self := set_segment seg self in
      let self := set_have_segment true self in
      match segment_format seg with
      | GST_FORMAT_TIME =>
          (true, set_srcpad (gst_pad_push_segment (srcpad self) seg) self)
      | GST_FORMAT_BYTES =>
          (* handle seg event in chain function *)
          (true, set_need_segment true self)
      | _ => (false, self)
      end
  end.

(** ** Properties named by the specification *)

(** A dimension array that declares the given sizes and nothing else. *)
Definition dimension_of (l : list Z) : tensor_dim :=
  l ++ replicate (NNS_TENSOR_RANK_LIMIT - length l) 0.

(** The planar formats, stored as [width][height][channels]. *)
Definition video_format_is_planar (f : GstVideoFormat) : bool :=
  match f with
  | GST_VIDEO_FORMAT_RGBP | GST_VIDEO_FORMAT_BGRP => true
  | _ => false
  end.

(** The component count of the pixel formats the video parser supports. *)
Definition video_format_channels (f : GstVideoFormat) : Z :=
  match f with
  | GST_VIDEO_FORMAT_GRAY8 | GST_VIDEO_FORMAT_GRAY16_BE
  | GST_VIDEO_FORMAT_GRAY16_LE => 1
  | GST_VIDEO_FORMAT_RGB | GST_VIDEO_FORMAT_BGR
  | GST_VIDEO_FORMAT_RGBP | GST_VIDEO_FORMAT_BGRP => 3
  | GST_VIDEO_FORMAT_RGBx | GST_VIDEO_FORMAT_BGRx | GST_VIDEO_FORMAT_xRGB
  | GST_VIDEO_FORMAT_xBGR | GST_VIDEO_FORMAT_RGBA | GST_VIDEO_FORMAT_BGRA
  | GST_VIDEO_FORMAT_ARGB | GST_VIDEO_FORMAT_ABGR => 4
  | _ => 0
  end.

(** The descriptor the specification expects of the video parser: one
    tensor of dimension [channels, width, height, 1] at the frame rate of
    the capability. *)
Definition video_descriptor_cwh1 (vinfo : GstVideoInfo)
    (config : GstTensorsConfig) : Prop :=
  num_tensors (config_info config) = 1
  ∧ info_dimension (gst_tensors_info_get_nth_info (config_info config) 0)
    = dimension_of [video_format_channels (vinfo_format vinfo);
                    vinfo_width vinfo; vinfo_height vinfo; 1]
  ∧ rate_n config = vinfo_fps_n vinfo
  ∧ rate_d config = vinfo_fps_d vinfo.

(** What a capability parser may assign in the element: the frame size, the
    depadding flag, and the converter sub-plugin with its private data.
    [parser_frame s s'] says that s' is s up to these four fields. *)
Definition parser_frame (s s' : GstTensorConverter) : Prop :=
  s' = set_frame_size (frame_size s')
         (set_remove_padding (remove_padding s')
            (set_externalConverter (externalConverter s')
               (set_priv_data (priv_data s') s))).

(** The combinations that the octet parser refuses when more than one frame
    is aggregated per tensor: the descriptor it works with (the user-declared
    one when it validates, otherwise the valid one of the peer) has several
    tensors, or the peer, asked because nothing valid is declared, is
    flexible. *)
Definition octet_multi_or_flexible (self : GstTensorConverter) : Prop :=
  if gst_tensors_info_validate (tensors_info self)
  then 1 < num_tensors (tensors_info self)
  else ∃ peer is_fixed,
         pad_peer_config (srcpad self) = Some (peer, is_fixed)
         ∧ (gst_tensors_config_is_flexible peer = true
            ∨ (gst_tensors_info_validate (config_info peer) = true
               ∧ 1 < num_tensors (config_info peer))).

(** The records of an incoming flexible buffer, one per tensor, as the
    tensor case of the chain function sees them. *)
Definition flex_buffer_records (buf : GstBuffer) : list GstMemory :=
  buffer_memory (gst_tensor_buffer_from_config buf gst_tensors_config_init).

(** The payload length of a record, header excluded (s1 in the source). *)
Definition record_payload_size (mem : GstMemory) : Z :=
  to_guint64
    (gst_memory_get_sizes mem
     - gst_tensor_meta_info_get_header_size
         (gst_tensor_meta_info_parse_memory mem)).

(** The size of the static descriptor recovered from the header of a record
    (s2 in the source). *)
Definition record_expected_size (mem : GstMemory) : Z :=
  gst_tensor_info_get_size
    (gst_tensor_meta_info_convert (gst_tensor_meta_info_parse_memory mem)).

(** What _gst_tensor_converter_chain_push sends downstream for a frame of a
    stream that is not an octet stream: the frame itself, or its
    header-prefixed records when the pad carries the flexible format. *)
Definition outgoing_frame (self : GstTensorConverter) (frame : GstBuffer)
  : GstBuffer :=
  if negb (do_not_append_header self)
     && gst_tensor_pad_caps_is_flexible (srcpad self)
  then _gst_tensor_converter_chain_flex_tensor self frame
  else frame.

(** The segment bookkeeping of the element: a pending byte segment has been
    received. *)
Definition segment_ready (self : GstTensorConverter) : Prop :=
  need_segment self = true → have_segment self = true.

Definition GST_MSECOND : Z := 1000000.

(** The adapter of a substream that has received one buffer of 8 bytes, after
    [taken] bytes (0, 4 or 8) have been taken from it in frames of 4. *)
Definition adapter_after (b : GstBuffer) (taken : Z) : GstAdapter :=
  {| queue := if taken =? 8 then [] else [b];
     skip := if taken =? 8 then 0 else taken;
     pts := if GST_CLOCK_TIME_IS_VALID (buffer_pts b)
            then buffer_pts b else GST_CLOCK_TIME_NONE;
     pts_distance := taken;
     dts := if GST_CLOCK_TIME_IS_VALID (buffer_dts b)
            then buffer_dts b else GST_CLOCK_TIME_NONE;
     dts_distance := taken |}.

(** The first tensor of a descriptor and its leading dimension. *)
Definition first_tensor (self : GstTensorConverter) : GstTensorInfo :=
  gst_tensors_info_get_nth_info (config_info (tensors_config self)) 0.

Definition leading_dimension (self : GstTensorConverter) : Z :=
  dim_get (info_dimension (first_tensor self)) 0.

(** The arrays of the descriptor are C arrays of fixed size; as lists they
    have their first entry. *)
Definition first_tensor_allocated (self : GstTensorConverter) : Prop :=
  (0 < length (info (config_info (tensors_config self))))%nat
  ∧ (0 < length (info_dimension (first_tensor self)))%nat.

(** The invariant of an octet stream negotiated in flexible format: the
    element is configured for octet input, its descriptor is flexible and
    declares exactly one tensor, one frame goes into each tensor, and the
    segment bookkeeping is sound. *)
Definition flexible_octet (self : GstTensorConverter) : Prop :=
  tensors_configured self = true
  ∧ in_media_type self = _NNS_OCTET
  ∧ format (config_info (tensors_config self)) = _NNS_TENSOR_FORMAT_FLEXIBLE
  ∧ num_tensors (config_info (tensors_config self)) = 1
  ∧ first_tensor_allocated self
  ∧ frames_per_tensor self = 1
  ∧ segment_ready self.

(** ** Concrete inputs *)

(** The default build against GStreamer 1.20 or later. *)
Definition default_build : BuildConfig :=
  {| video_support := true; audio_support := true;
     gst_check_version_1_20 := true |}.

Definition empty_world : World :=
  {| subplugins := []; element_clock := None; element_base_time := 0 |}.

(** A source pad whose peer accepts every buffer and answers the descriptor
    query as given. *)
Definition linked_pad (peer : option (GstTensorsConfig * bool)) : GstPad :=
  {| pad_current_caps := None; pad_peer_config := peer;
     pad_peer_chain := fun _ _ => GST_FLOW_OK; pad_pushed := [] |}.

Definition video_caps (f : GstVideoFormat) (width height size : Z) : GstCaps :=
  {| caps_structure :=
       {| structure_name := "video/x-raw"; structure_format := None;
          structure_framerate := Some (30, 1) |};
     caps_is_fixed := true;
     caps_video_info :=
       Some {| vinfo_format := f; vinfo_width := width;
               vinfo_height := height; vinfo_views := 1;
               vinfo_fps_n := 30; vinfo_fps_d := 1; vinfo_size := size |};
     caps_audio_info := None |}.

Definition fresh_element : GstTensorConverter :=
  gst_tensor_converter_init (linked_pad None).

(** input-dim and input-type as the properties leave them in tensors_info. *)
Definition declared_tensor (t : tensor_type) (dims : list Z) : GstTensorInfo :=
  {| info_name := None; info_type := t; info_dimension := dimension_of dims |}.

Definition declared_info (l : list GstTensorInfo) : GstTensorsInfo :=
  {| num_tensors := Z.of_nat (length l);
     info := take NNS_TENSOR_SIZE_LIMIT
               (l ++ replicate NNS_TENSOR_SIZE_LIMIT gst_tensor_info_init);
     format := _NNS_TENSOR_FORMAT_STATIC |}.

Definition octet_caps : GstCaps :=
  {| caps_structure :=
       {| structure_name := "application/octet-stream";
          structure_format := None; structure_framerate := None |};
     caps_is_fixed := true; caps_video_info := None;
     caps_audio_info := None |}.

(** An element with input-dim=3:4:2:1 and input-type=uint8 that has
    negotiated RGB video of 4x2 pixels. *)
Definition rgb_element : GstTensorConverter :=
  (gst_tensor_converter_sink_event empty_world default_build
     (set_tensors_info (declared_info [declared_tensor _NNS_UINT8 [3; 4; 2; 1]])
                       fresh_element)
     (GST_EVENT_CAPS (video_caps GST_VIDEO_FORMAT_RGB 4 2 24))).2.

(** A flexible descriptor, as a peer that accepts other/tensors in flexible
    format answers. *)
Definition flexible_config : GstTensorsConfig :=
  upd_config_info (set_format _NNS_TENSOR_FORMAT_FLEXIBLE)
                  (set_rate 0 1 gst_tensors_config_init).

(** An element with input-dim=4,2 and input-type=uint8,uint8 that has
    negotiated a flexible tensor stream on its sink pad. *)
Definition flex_caps : GstCaps :=
  {| caps_structure :=
       {| structure_name := "other/tensors"; structure_format := Some "flexible";
          structure_framerate := Some (30, 1) |};
     caps_is_fixed := true; caps_video_info := None;
     caps_audio_info := None |}.

Definition demux_element : GstTensorConverter :=
  (gst_tensor_converter_sink_event empty_world default_build
     (set_tensors_info
        (declared_info [declared_tensor _NNS_UINT8 [4];
                        declared_tensor _NNS_UINT8 [2]])
        fresh_element)
     (GST_EVENT_CAPS flex_caps)).2.

(** A flexible record: the header of a uint8 tensor of the given dimension
    in front of the payload. *)
Definition flex_record (dims : list Z) (payload : list byte) : GstMemory :=
  meta_header_bytes
    (gst_tensor_info_convert_to_meta (declared_tensor _NNS_UINT8 dims))
  ++ payload.

Definition buffer_of (mems : list GstMemory) (pts : GstClockTime) : GstBuffer :=
  {| buffer_memory := mems; buffer_pts := pts;
     buffer_dts := GST_CLOCK_TIME_NONE;
     buffer_duration := GST_CLOCK_TIME_NONE; buffer_meta_query := None |}.

(** Two records; the second declares two bytes and carries three. *)
Definition mismatched_flex_buffer : GstBuffer :=
  buffer_of [flex_record [4] [x01; x02; x03; x04];
             flex_record [2] [x05; x06; x07]] 0.


Definition audio_caps : GstCaps :=
  {| caps_structure :=
       {| structure_name := "audio/x-raw"; structure_format := Some "S16LE";
          structure_framerate := None |};
     caps_is_fixed := true; caps_video_info := None;
     caps_audio_info :=
       Some {| ainfo_format := GST_AUDIO_FORMAT_S16; ainfo_channels := 1;
               ainfo_rate := 1000; ainfo_bpf := 2 |} |}.

(** An element with frames-per-tensor=2 that has negotiated mono S16 audio
    at 1000 Hz. *)
Definition audio_element : GstTensorConverter :=
  (gst_tensor_converter_sink_event empty_world default_build
     (set_frames_per_tensor 2 fresh_element) (GST_EVENT_CAPS audio_caps)).2.

Definition audio_chunk : GstBuffer :=
  buffer_of [[x01; x02; x03; x04; x05; x06; x07; x08]] 5000.

(** An element that has negotiated GRAY8 video of 5x2 pixels, and a frame
    whose rows are padded to 8 bytes. *)
Definition gray8_element : GstTensorConverter :=
  (gst_tensor_converter_sink_event empty_world default_build fresh_element
     (GST_EVENT_CAPS (video_caps GST_VIDEO_FORMAT_GRAY8 5 2 16))).2.

Definition padded_rows : list (list byte) :=
  [[x01; x02; x03; x04; x05; xaa; xaa; xaa];
   [x06; x07; x08; x09; x0a; xbb; xbb; xbb]].

Definition padded_frame : GstBuffer := buffer_of [concat padded_rows] 0.

(** An element whose peer is flexible and that has negotiated an octet
    stream without declared dimensions. *)
Definition octet_element : GstTensorConverter :=
  (gst_tensor_converter_sink_event empty_world default_build
     (gst_tensor_converter_init (linked_pad (Some (flexible_config, true))))
     (GST_EVENT_CAPS octet_caps)).2.

Definition octet_buffer : GstBuffer := buffer_of [[x01; x02; x03]] 0.

(** ** Further definitions *)



(** The pixel formats the video parser gives a tensor type to; the planar
    ones exist from GStreamer 1.20 on. *)
Definition video_format_supported (b : BuildConfig) (f : GstVideoFormat) : bool :=
  match f with
  | GST_VIDEO_FORMAT_GRAY8 | GST_VIDEO_FORMAT_GRAY16_BE
  | GST_VIDEO_FORMAT_GRAY16_LE | GST_VIDEO_FORMAT_RGB | GST_VIDEO_FORMAT_BGR
  | GST_VIDEO_FORMAT_RGBx | GST_VIDEO_FORMAT_BGRx | GST_VIDEO_FORMAT_xRGB
  | GST_VIDEO_FORMAT_xBGR | GST_VIDEO_FORMAT_RGBA | GST_VIDEO_FORMAT_BGRA
  | GST_VIDEO_FORMAT_ARGB | GST_VIDEO_FORMAT_ABGR => true
  | GST_VIDEO_FORMAT_RGBP | GST_VIDEO_FORMAT_BGRP => gst_check_version_1_20 b
  | _ => false
  end.

(** The element type of the samples of an audio format; the sentinel for a
    format without one. *)
Definition audio_format_tensor_type (f : GstAudioFormat) : tensor_type :=
  match f with
  | GST_AUDIO_FORMAT_S8 => _NNS_INT8
  | GST_AUDIO_FORMAT_U8 => _NNS_UINT8
  | GST_AUDIO_FORMAT_S16 => _NNS_INT16
  | GST_AUDIO_FORMAT_U16 => _NNS_UINT16
  | GST_AUDIO_FORMAT_S32 => _NNS_INT32
  | GST_AUDIO_FORMAT_U32 => _NNS_UINT32
  | GST_AUDIO_FORMAT_F32 => _NNS_FLOAT32
  | GST_AUDIO_FORMAT_F64 => _NNS_FLOAT64
  | _ => _NNS_END
  end.

(** The segment event that the chain function sends ahead of a buffer when a
    byte segment is pending: the segment in time format that
    _gst_tensor_converter_chain_segment computes. *)
Definition pending_segment (self : GstTensorConverter) (frame_size : Z)
  : list downstream_item :=
  if need_segment self then
    let config := tensors_config self in
    let start := segment_start (segment self) in
    let seg := gst_segment_init GST_FORMAT_TIME in
    [pushed_segment
       (if (0 <? rate_n config) && (0 <? rate_d config) && (0 <? start) then
          let start :=
            gst_util_uint64_scale_int (to_guint64 (start * rate_d config))
              GST_SECOND (to_guint64 (frame_size * rate_n config)) in
          {| segment_format := segment_format seg;
             segment_start := start; segment_time := start |}
        else seg)]
  else [].

(** A sound adapter: the bytes consumed from the head buffer lie within
    what the queue holds. *)
Definition adapter_wf (a : GstAdapter) : Prop :=
  0 <= skip a <= queue_size (queue a).

(** The adapter of the substream of a buffer, as the element holds it. *)
Definition substream_adapter (self : GstTensorConverter) (buf : GstBuffer)
  : GstAdapter :=
  default gst_adapter_new (adapter_table self !! adapter_key buf).

(** ** State changes *)




(** ** Pieces of a byte sequence *)

(** Consecutive pieces of the given sizes. *)
Fixpoint split_at_sizes (data : list byte) (sizes : list Z)
  : list (list byte) :=
  match sizes with
  | [] => []
  | s :: rest =>
      take (Z.to_nat s) data :: split_at_sizes (drop (Z.to_nat s) data) rest
  end.

(** The byte sizes of the tensors of a descriptor, in order. *)
Definition tensor_sizes (i : GstTensorsInfo) : list Z :=
  map (fun n => gst_tensor_info_get_size (gst_tensors_info_get_nth_info i n))
      (tensor_indices (num_tensors i)).

(** ** Flexible records *)

(** The media kind written into the header of an outgoing record. *)
Definition header_media_type (self : GstTensorConverter) : media_type :=
  match in_media_type self with
  | _NNS_VIDEO | _NNS_AUDIO | _NNS_TEXT | _NNS_OCTET => in_media_type self
  | _ => _NNS_TENSOR
  end.

(** The header the element puts in front of the n-th tensor. *)
Definition outgoing_header (self : GstTensorConverter) (n : nat) : list byte :=
  meta_header_bytes
    (set_meta_media_type (header_media_type self)
       (gst_tensor_info_convert_to_meta
          (gst_tensors_info_get_nth_info (config_info (tensors_config self))
                                         n))).




(** ** Properties of the element *)












Section Properties.

(** The string parsers and printers of the common library, kept in
    nnstreamer_plugin_api_util: the parsers store what they read into the
    descriptor and return the number of tensors read. *)
Variable gst_tensors_info_parse_dimensions_string :
  GstTensorsInfo → string → Z * GstTensorsInfo.
Variable gst_tensors_info_parse_types_string :
  GstTensorsInfo → string → Z * GstTensorsInfo.
Variable gst_tensors_info_get_dimensions_string : GstTensorsInfo → string.
Variable gst_tensors_info_get_types_string : GstTensorsInfo → string.

(** The callbacks registered under NNS_CUSTOM_CONVERTER, by name. *)
Variable custom_converters : list (string * tensor_converter_custom).






End Properties.


(** ** Timestamps of a run of buffers *)

(** _gst_tensor_converter_chain_timestamp on the buffers of a stream, one
    after the other. *)
Fixpoint stamp_buffers (w : World) (self : GstTensorConverter)
    (bufs : list GstBuffer) (frames_in : Z) : list GstBuffer :=
  match bufs with
  | [] => []
  | buf :: rest =>
      let '(self, buf) :=
        _gst_tensor_converter_chain_timestamp w self buf frames_in in
      buf :: stamp_buffers w self rest frames_in
  end.

(** ** Capabilities offered upstream *)

(** The values of the fields the element sets in a structure. *)
Inductive GValue : Type :=
| G_TYPE_INT (v : Z)
| G_TYPE_STRING (s : string)
| GST_TYPE_LIST (l : list string)
| GST_TYPE_FRACTION (n d : Z).

(** A structure of a capability with its fields by name, and a capability
    as its structures in order. *)
Record GstCapsStructure : Type := {
  cs_name : string;
  cs_fields : gmap string GValue
}.

(** gst_structure_set and gst_structure_set_value: the field is created or
    replaced. *)
Definition gst_structure_set (field : string) (v : GValue)
    (st : GstCapsStructure) : GstCapsStructure :=
  {| cs_name := cs_name st; cs_fields := <[field := v]> (cs_fields st) |}.

Definition caps_structure_media_type (st : GstCapsStructure) : media_type :=
  gst_structure_get_media_type
    {| structure_name := cs_name st; structure_format := None;
       structure_framerate := None |}.

(** gst_audio_format_to_string, for the formats in the host's (little
    endian) byte order. *)
Definition gst_audio_format_to_string (f : GstAudioFormat) : string :=
  match f with
  | GST_AUDIO_FORMAT_S8 => "S8"
  | GST_AUDIO_FORMAT_U8 => "U8"
  | GST_AUDIO_FORMAT_S16 => "S16LE"
  | GST_AUDIO_FORMAT_U16 => "U16LE"
  | GST_AUDIO_FORMAT_S32 => "S32LE"
  | GST_AUDIO_FORMAT_U32 => "U32LE"
  | GST_AUDIO_FORMAT_F32 => "F32LE"
  | GST_AUDIO_FORMAT_F64 => "F64LE"
  | _ => "UNKNOWN"
  end.

(** The audio format offered for a tensor type (the switch of the audio
    case of gst_tensor_converter_get_possible_media_caps). *)
Definition audio_format_of_tensor_type (t : tensor_type) : GstAudioFormat :=
  match t with
  | _NNS_INT8 => GST_AUDIO_FORMAT_S8
  | _NNS_UINT8 => GST_AUDIO_FORMAT_U8
  | _NNS_INT16 => GST_AUDIO_FORMAT_S16
  | _NNS_UINT16 => GST_AUDIO_FORMAT_U16
  | _NNS_INT32 => GST_AUDIO_FORMAT_S32
  | _NNS_UINT32 => GST_AUDIO_FORMAT_U32
  | _NNS_FLOAT16 => GST_AUDIO_FORMAT_UNKNOWN
  | _NNS_FLOAT32 => GST_AUDIO_FORMAT_F32
  | _NNS_FLOAT64 => GST_AUDIO_FORMAT_F64
  | _ => GST_AUDIO_FORMAT_UNKNOWN (* unsupported format *)
  end.

(** gst_tensor_converter_get_format_list followed by the test on the list
    and gst_structure_set_value (st, "format", ..). *)
Definition set_format_list (formats : list string) (st : GstCapsStructure)
  : GstCapsStructure :=
  match formats with
  | [] => st
  | _ => gst_structure_set "format" (GST_TYPE_LIST formats) st
  end.

Definition set_int_if_positive (field : string) (v : Z)
    (st : GstCapsStructure) : GstCapsStructure :=
  if 0 <? v then gst_structure_set field (G_TYPE_INT v) st else st.

(** The video case: the structure with the fields of the row-major
    reading of the peer's descriptor, and the structure to append for the
    planar reading. *)
Definition possible_video_caps (b : BuildConfig) (config : GstTensorsConfig)
    (st : GstCapsStructure) : GstCapsStructure * option GstCapsStructure :=
  let info0 := gst_tensors_info_get_nth_info (config_info config) 0 in
  let colorspace := to_gint (dim_get (info_dimension info0) 0) in
  let width := to_gint (dim_get (info_dimension info0) 1) in
  let height := to_gint (dim_get (info_dimension info0) 2) in
  let supported_formats :=
    match colorspace with
    | 1 => ["GRAY8"; "GRAY16_BE"; "GRAY16_LE"]
    | 3 => ["RGB"; "BGR"]
    | 4 => ["RGBx"; "BGRx"; "xRGB"; "xBGR"; "RGBA"; "BGRA"; "ARGB"; "ABGR"]
    | _ => [] (* unsupported format, set default video formats *)
    end%string in
  let st := set_format_list supported_formats st in
  let st := set_int_if_positive "width" width st in
  let st := set_int_if_positive "height" height st in
  let st :=
    if (0 <=? rate_n config) && (0 <? rate_d config)
    then gst_structure_set "framerate"
           (GST_TYPE_FRACTION (rate_n config) (rate_d config)) st
    else st in
  (* add new structure for NCHW formats *)
  if gst_check_version_1_20 b then
    let width := to_gint (dim_get (info_dimension info0) 0) in
    let height := to_gint (dim_get (info_dimension info0) 1) in
    let colorspace := to_gint (dim_get (info_dimension info0) 2) in
    if colorspace =? 3 then
      let nchw_st := st in
      let nchw_st := set_format_list ["RGBP"; "BGRP"]%string nchw_st in
      let nchw_st := set_int_if_positive "width" width nchw_st in
      let nchw_st := set_int_if_positive "height" height nchw_st in
      (st, Some nchw_st)
    else (st, None)
  else (st, None).

(** The audio case. *)
Definition possible_audio_caps (config : GstTensorsConfig)
    (st : GstCapsStructure) : GstCapsStructure :=
  let info0 := gst_tensors_info_get_nth_info (config_info config) 0 in
  let aformat := audio_format_of_tensor_type (info_type info0) in
  match aformat with
  | GST_AUDIO_FORMAT_UNKNOWN => st
  | _ =>
      let st :=
        gst_structure_set "format"
          (G_TYPE_STRING (gst_audio_format_to_string aformat)) st in
      let st :=
        set_int_if_positive "channels"
          (to_gint (dim_get (info_dimension info0) 0)) st in
      set_int_if_positive "rate" (to_gint (rate_n config)) st
  end.

(** One round of the loop over the structures of the template. *)
Definition possible_media_caps_step (b : BuildConfig)
    (config : GstTensorsConfig) (media_caps : list GstCapsStructure)
    (i : nat) : list GstCapsStructure :=
  match media_caps !! i with
  | None => media_caps
  | Some st =>
      match caps_structure_media_type st with
      | _NNS_VIDEO =>
          (* video caps from tensor info *)
          if video_support b then
            let '(st, nchw_st) := possible_video_caps b config st in
            let media_caps := <[i := st]> media_caps in
            match nchw_st with
            | Some nchw_st => media_caps ++ [nchw_st]
            | None => media_caps
            end
          else media_caps
      | _NNS_AUDIO =>
          (* audio caps from tensor info *)
          if audio_support b
             && negb (bool_decide
                        (info_type (gst_tensors_info_get_nth_info
                                      (config_info config) 0) = _NNS_END))
          then <[i := possible_audio_caps config st]> media_caps
          else media_caps
      | _ => media_caps (* do nothing for text and octet stream *)
      end
  end.

(** gst_tensor_converter_get_possible_media_caps; [sink_template] is the
    template capability of the sink pad, NULL is [None]. *)
Definition gst_tensor_converter_get_possible_media_caps (b : BuildConfig)
    (sink_template : list GstCapsStructure) (self : GstTensorConverter)
  : option (list GstCapsStructure) :=
  (* get possible caps from downstream element *)
  let '(ok, config, _) := gst_tensors_config_from_peer (srcpad self) in
  if ok then
    (* convert peer caps to possible media caps *)
    let media_caps := sink_template in
    let caps_len := length media_caps in
    Some (foldl (possible_media_caps_step b config) media_caps
                (seq 0 caps_len))
  else None.

(** gst_video_format_from_string for the names the element offers. *)
Definition gst_video_format_from_string (s : string) : GstVideoFormat :=
  if String.eqb s "GRAY8" then GST_VIDEO_FORMAT_GRAY8
  else if String.eqb s "GRAY16_BE" then GST_VIDEO_FORMAT_GRAY16_BE
  else if String.eqb s "GRAY16_LE" then GST_VIDEO_FORMAT_GRAY16_LE
  else if String.eqb s "RGB" then GST_VIDEO_FORMAT_RGB
  else if String.eqb s "BGR" then GST_VIDEO_FORMAT_BGR
  else if String.eqb s "RGBx" then GST_VIDEO_FORMAT_RGBx
  else if String.eqb s "BGRx" then GST_VIDEO_FORMAT_BGRx
  else if String.eqb s "xRGB" then GST_VIDEO_FORMAT_xRGB
  else if String.eqb s "xBGR" then GST_VIDEO_FORMAT_xBGR
  else if String.eqb s "RGBA" then GST_VIDEO_FORMAT_RGBA
  else if String.eqb s "BGRA" then GST_VIDEO_FORMAT_BGRA
  else if String.eqb s "ARGB" then GST_VIDEO_FORMAT_ARGB
  else if String.eqb s "ABGR" then GST_VIDEO_FORMAT_ABGR
  else if String.eqb s "RGBP" then GST_VIDEO_FORMAT_RGBP
  else if String.eqb s "BGRP" then GST_VIDEO_FORMAT_BGRP
  else if String.eqb s "I420" then GST_VIDEO_FORMAT_I420
  else GST_VIDEO_FORMAT_UNKNOWN.

(** What the loop makes of one structure of the template, and the structure
    it appends for it. *)
Definition possible_structure (b : BuildConfig) (config : GstTensorsConfig)
    (st : GstCapsStructure) : GstCapsStructure :=
  match caps_structure_media_type st with
  | _NNS_VIDEO =>
      if video_support b then (possible_video_caps b config st).1 else st
  | _NNS_AUDIO =>
      if audio_support b
         && negb (bool_decide
                    (info_type (gst_tensors_info_get_nth_info
                                  (config_info config) 0) = _NNS_END))
      then possible_audio_caps config st
      else st
  | _ => st
  end.

Definition appended_structure (b : BuildConfig) (config : GstTensorsConfig)
    (st : GstCapsStructure) : option GstCapsStructure :=
  match caps_structure_media_type st with
  | _NNS_VIDEO =>
      if video_support b then (possible_video_caps b config st).2 else None
  | _ => None
  end.

(** A sink template with one structure for each media type the element
    converts itself. *)
Definition media_template : list GstCapsStructure :=
  [ {| cs_name := "video/x-raw"; cs_fields := ∅ |};
    {| cs_name := "audio/x-raw"; cs_fields := ∅ |};
    {| cs_name := "text/x-raw";
       cs_fields := {[ "format"%string := G_TYPE_STRING "utf8" ]} |};
    {| cs_name := "application/octet-stream"; cs_fields := ∅ |} ].

(** The descriptor of a peer that asks for one tensor, and an element whose
    source pad is linked to such a peer. *)
Definition peer_of (t : tensor_type) (dims : list Z) (n d : Z)
  : GstTensorsConfig :=
  set_rate n d
    (upd_config_info (fun _ => declared_info [declared_tensor t dims])
                     gst_tensors_config_init).

Definition linked_element (peer : GstTensorsConfig) : GstTensorConverter :=
  gst_tensor_converter_init (linked_pad (Some (peer, true))).

(** One RGB frame of 4x2 pixels. *)
Definition rgb_frame : GstBuffer := buffer_of [replicate 24 x01] 0.

(** What _gst_tensor_converter_chain_push hands to the pad for a frame: on
    an octet stream the frame as the octet routine leaves it, and behind
    headers when the pad carries the flexible format. *)
Definition pushed_frame (self : GstTensorConverter) (frame : GstBuffer)
  : M GstBuffer :=
  buffer ← (if bool_decide (in_media_type self = _NNS_OCTET)
            then _gst_tensor_converter_chain_octet self frame
            else mret frame);
  mret (outgoing_frame self buffer).

(** The state in which the assertion of the octet routine fails on a frame:
    an octet stream of several tensors with frames-per-tensor other than
    1. *)
Definition octet_assertion_fails (self : GstTensorConverter) : Prop :=
  in_media_type self = _NNS_OCTET
  ∧ 1 < num_tensors (config_info (tensors_config self))
  ∧ frames_per_tensor self ≠ 1.

(** * Properties *)

(** ** Arithmetic of the machine integers *)

Lemma to_guint_small z : 0 <= z < 2 ^ 32 → to_guint z = z.
Proof. intros. unfold to_guint. apply Z.mod_small. lia. Qed.

Lemma to_guint64_small z : 0 <= z < 2 ^ 64 → to_guint64 z = z.
Proof. intros. unfold to_guint64. apply Z.mod_small. lia. Qed.

Lemma gst_buffer_get_size_nonneg b : 0 <= gst_buffer_get_size b.
Proof.
  unfold gst_buffer_get_size, gst_memory_get_sizes.
  induction (buffer_memory b) as [|m l IH]; simpl; lia.
Qed.

(** ** The video parser *)

(** C1 (as amended): for every video capability the video parser accepts,
    the derived descriptor has one tensor at the frame rate of the
    capability; its dimension is [channels, width, height, 1] for the packed
    formats and [width, height, 3, 1] for the planar formats RGBP and BGRP. *)
Theorem parse_video_descriptor b self caps vinfo self' config :
  gst_video_info_from_caps caps = Some vinfo →
  0 <= vinfo_width vinfo < 2 ^ 32 →
  0 <= vinfo_height vinfo < 2 ^ 32 →
  gst_tensor_converter_parse_video b self caps = (true, self', config) →
  num_tensors (config_info config) = 1
  ∧ rate_n config = vinfo_fps_n vinfo
  ∧ rate_d config = vinfo_fps_d vinfo
  ∧ info_dimension (gst_tensors_info_get_nth_info (config_info config) 0)
    = if video_format_is_planar (vinfo_format vinfo)
      then dimension_of [vinfo_width vinfo; vinfo_height vinfo; 3; 1]
      else dimension_of [video_format_channels (vinfo_format vinfo);
                         vinfo_width vinfo; vinfo_height vinfo; 1].
Proof.
  intros Hvi Hw Hh. unfold gst_tensor_converter_parse_video. rewrite Hvi.
  destruct vinfo as [f wd ht vw fn fd sz].
  cbn [vinfo_format vinfo_width vinfo_height vinfo_fps_n vinfo_fps_d
       vinfo_size] in *.
  destruct f, (gst_check_version_1_20 b);
    destruct (gst_tensor_converter_video_stride _ _ _); cbn -[to_guint];
    intros [= <- <-] || intros [=]; cbn -[to_guint];
    rewrite ?(to_guint_small wd), ?(to_guint_small ht) by lia; done.
Qed.

Lemma parse_video_descriptor_witness :
  let caps := video_caps GST_VIDEO_FORMAT_RGB 640 480 921600 in
  let '(ok, _, config) :=
    gst_tensor_converter_parse_video default_build fresh_element caps in
  ok = true
  ∧ info_dimension (gst_tensors_info_get_nth_info (config_info config) 0)
    = dimension_of [3; 640; 480; 1].
Proof.
  pose proof (parse_video_descriptor default_build fresh_element
                (video_caps GST_VIDEO_FORMAT_RGB 640 480 921600)
                {| vinfo_format := GST_VIDEO_FORMAT_RGB; vinfo_width := 640;
                   vinfo_height := 480; vinfo_views := 1;
                   vinfo_fps_n := 30; vinfo_fps_d := 1;
                   vinfo_size := 921600 |}) as H.
  cbv zeta.
  destruct (gst_tensor_converter_parse_video _ _ _) as [[ok self'] config] eqn:E.
  assert (ok = true) as -> by (vm_compute in E; congruence).
  split; [reflexivity|].
  apply (H self' config); [reflexivity | simpl; lia | simpl; lia | reflexivity].
Defined.

(** C1 (as stated) fails on a planar format: RGBP at 640x480 is accepted and
    its descriptor is [640, 480, 3, 1], not [3, 640, 480, 1]. *)
Lemma parse_video_rgbp_not_cwh1 :
  let caps := video_caps GST_VIDEO_FORMAT_RGBP 640 480 921600 in
  ∃ self' config vinfo,
    gst_video_info_from_caps caps = Some vinfo
    ∧ gst_tensor_converter_parse_video default_build fresh_element caps
      = (true, self', config)
    ∧ info_dimension (gst_tensors_info_get_nth_info (config_info config) 0)
      = dimension_of [640; 480; 3; 1]
    ∧ ¬ video_descriptor_cwh1 vinfo config.
Proof.
  eexists _, _, _. split; [reflexivity|]. split; [reflexivity|].
  split; [reflexivity|].
  intros (_ & Hdim & _). vm_compute in Hdim. discriminate Hdim.
Qed.

(** ** Empty buffers *)

(** C10: a buffer whose total size is zero is refused at once: the chain
    function returns GST_FLOW_ERROR and the element, with its adapters and
    with what it has pushed downstream, is as before. *)
Theorem chain_empty_buffer w self buf :
  gst_buffer_get_size buf = 0 →
  gst_tensor_converter_chain w self buf = Done (GST_FLOW_ERROR, self).
Proof.
  intros Hsize. unfold gst_tensor_converter_chain. rewrite Hsize. reflexivity.
Qed.

Lemma chain_empty_buffer_witness :
  gst_buffer_get_size gst_buffer_new = 0
  ∧ gst_tensor_converter_chain empty_world fresh_element gst_buffer_new
    = Done (GST_FLOW_ERROR, fresh_element).
Proof.
  split; [reflexivity|]. apply chain_empty_buffer. reflexivity.
Defined.

(** ** Publishing is idempotent *)

Lemma gst_caps_is_equal_refl c : gst_caps_is_equal c c = true.
Proof. unfold gst_caps_is_equal. by apply bool_decide_eq_true. Qed.

Lemma caps_from_config_set_caps p c caps :
  gst_tensor_pad_caps_from_config (gst_pad_set_caps p caps) c
  = gst_tensor_pad_caps_from_config p c.
Proof. reflexivity. Qed.

(** C6: update_caps sends no caps event when the capability computed from
    the descriptor equals the current one; hence a second publication of
    the same descriptor changes nothing, and two publications in succession
    of a descriptor that is not the current one send exactly one caps
    event. *)
Theorem update_caps_idempotent self :
  let out_caps :=
    gst_tensor_pad_caps_from_config (srcpad self) (tensors_config self) in
  let once := gst_tensor_converter_update_caps self in
  let twice := gst_tensor_converter_update_caps once in
  (∀ curr, pad_current_caps (srcpad self) = Some curr →
           gst_caps_is_equal curr out_caps = true → once = self)
  ∧ twice = once
  ∧ pad_current_caps (srcpad once) = Some out_caps
  ∧ (pad_current_caps (srcpad self) ≠ Some out_caps →
     pad_pushed (srcpad twice)
     = pad_pushed (srcpad self) ++ [pushed_caps out_caps]).
Proof.
  cbv zeta.
  assert (Hstep : ∀ s curr,
             pad_current_caps (srcpad s) = Some curr →
             gst_caps_is_equal curr
               (gst_tensor_pad_caps_from_config (srcpad s) (tensors_config s))
             = true →
             gst_tensor_converter_update_caps s = s).
  { intros s curr Hc He. unfold gst_tensor_converter_update_caps.
    unfold gst_pad_get_current_caps. rewrite Hc, He. reflexivity. }
  assert (Hcur : pad_current_caps
                   (srcpad (gst_tensor_converter_update_caps self))
                 = Some (gst_tensor_pad_caps_from_config
                           (srcpad self) (tensors_config self))).
  { unfold gst_tensor_converter_update_caps, gst_pad_get_current_caps.
    destruct (pad_current_caps (srcpad self)) as [curr|] eqn:Hc;
      [|reflexivity].
    destruct (gst_caps_is_equal curr _) eqn:He; simpl; [|reflexivity].
    unfold gst_caps_is_equal in He. apply bool_decide_eq_true in He.
    by rewrite Hc, He. }
  assert (Hsame : gst_tensor_pad_caps_from_config
                    (srcpad (gst_tensor_converter_update_caps self))
                    (tensors_config (gst_tensor_converter_update_caps self))
                  = gst_tensor_pad_caps_from_config
                      (srcpad self) (tensors_config self)).
  { unfold gst_tensor_converter_update_caps, gst_pad_get_current_caps.
    destruct (pad_current_caps (srcpad self)) as [curr|]; [|reflexivity].
    destruct (gst_caps_is_equal curr _); reflexivity. }
  assert (Htwice : gst_tensor_converter_update_caps
                     (gst_tensor_converter_update_caps self)
                   = gst_tensor_converter_update_caps self).
  { apply (Hstep _ _ Hcur). rewrite Hsame. apply gst_caps_is_equal_refl. }
  split; [exact (Hstep self)|]. split; [exact Htwice|].
  split; [exact Hcur|].
  intros Hne. rewrite Htwice.
  unfold gst_tensor_converter_update_caps, gst_pad_get_current_caps.
  destruct (pad_current_caps (srcpad self)) as [curr|] eqn:Hc; [|reflexivity].
  destruct (gst_caps_is_equal curr _) eqn:He; simpl; [|reflexivity].
  unfold gst_caps_is_equal in He. apply bool_decide_eq_true in He.
  congruence.
Qed.

(** ** What negotiation leaves alone *)

Lemma parser_frame_refl s : parser_frame s s.
Proof. by destruct s. Qed.

Lemma parser_frame_set_frame_size s s' v :
  parser_frame s s' → parser_frame s (set_frame_size v s').
Proof. unfold parser_frame. intros ->. by destruct s. Qed.

Lemma parser_frame_set_remove_padding s s' v :
  parser_frame s s' → parser_frame s (set_remove_padding v s').
Proof. unfold parser_frame. intros ->. by destruct s. Qed.

Lemma parser_frame_set_externalConverter s s' v :
  parser_frame s s' → parser_frame s (set_externalConverter v s').
Proof. unfold parser_frame. intros ->. by destruct s. Qed.

Lemma parser_frame_set_priv_data s s' v :
  parser_frame s s' → parser_frame s (set_priv_data v s').
Proof. unfold parser_frame. intros ->. by destruct s. Qed.

Create HintDb frame discriminated.
#[local] Hint Resolve parser_frame_refl parser_frame_set_frame_size
  parser_frame_set_remove_padding parser_frame_set_externalConverter
  parser_frame_set_priv_data : frame.

Lemma parse_video_frame b s caps :
  parser_frame s (gst_tensor_converter_parse_video b s caps).1.2.
Proof.
  unfold gst_tensor_converter_parse_video.
  destruct (gst_video_info_from_caps caps) as [vinfo|]; simpl; auto with frame.
  repeat match goal with
         | |- context [if ?c then _ else _] => destruct c; simpl
         end; auto 6 with frame.
Qed.

Lemma parse_audio_frame s caps :
  parser_frame s (gst_tensor_converter_parse_audio s caps).1.2.
Proof.
  unfold gst_tensor_converter_parse_audio.
  destruct (gst_audio_info_from_caps caps); simpl; auto with frame.
Qed.

Lemma parse_text_frame s structure :
  parser_frame s (gst_tensor_converter_parse_text s structure).1.2.
Proof.
  unfold gst_tensor_converter_parse_text.
  destruct (_ =? 0); simpl; auto with frame.
  destruct (structure_format structure) as [f|]; simpl; auto with frame.
  destruct (g_ascii_strcaseeq f _); simpl; auto with frame.
Qed.

Lemma parse_octet_frame s structure :
  parser_frame s (gst_tensor_converter_parse_octet s structure).1.2.
Proof.
  unfold gst_tensor_converter_parse_octet.
  destruct (gst_tensors_info_validate (tensors_info s)); simpl.
  - repeat match goal with
           | |- context [if ?c then _ else _] => destruct c; simpl
           end; auto with frame.
  - destruct (gst_tensors_config_from_peer (srcpad s)) as [[ok peer] fixed].
    repeat match goal with
           | |- context [if ?c then _ else _] => destruct c; simpl
           end; auto with frame.
Qed.

Lemma parse_tensor_frame s structure :
  parser_frame s (gst_tensor_converter_parse_tensor s structure).1.2.
Proof.
  unfold gst_tensor_converter_parse_tensor.
  repeat match goal with
         | |- context [if ?c then _ else _] => destruct c; simpl
         end; auto with frame.
Qed.

Lemma parse_custom_frame w s caps :
  parser_frame s (gst_tensor_converter_parse_custom w s caps).1.2.
Proof.
  unfold gst_tensor_converter_parse_custom.
  destruct (gst_tensors_config_from_peer (srcpad s)) as [[ok peer] fixed].
  repeat match goal with
         | |- context [if ?c then _ else _] => destruct c; simpl
         | |- context [match ?c with Some _ => _ | None => _ end] =>
             destruct c; simpl
         | |- context [match ?c with (_, _) => _ end] => destruct c; simpl
         end; auto 6 with frame.
Qed.

(** The anatomy of gst_tensor_converter_parse_caps: some parser has run and
    left the element [sp]; on failure that is the result; on success the
    validated configuration, the media type and the configured flag are
    committed on top of it, and a valid user-declared descriptor equals the
    committed one. *)
Lemma parse_caps_inv w b s caps ok s' :
  gst_tensor_converter_parse_caps w b s caps = (ok, s') →
  ∃ sp, parser_frame s sp
        ∧ if ok then
            ∃ config in_type,
              s' = set_tensors_config config
                     (set_tensors_configured true
                        (set_in_media_type in_type sp))
              ∧ gst_tensors_config_validate config = true
              ∧ (gst_tensors_info_validate (tensors_info s) = true →
                 gst_tensors_info_is_equal (tensors_info s) (config_info config)
                 = true)
          else s' = sp.
Proof.
  unfold gst_tensor_converter_parse_caps.
  destruct (gst_caps_is_fixed caps); simpl;
    [|intros [= <- <-]; exists s; auto with frame].
  match goal with
  | |- context [match ?p with (_, _) => _ end] =>
      destruct p as [[[[ok1 sp] config] in_type] frames_dim] eqn:E
  end.
  assert (Hframe : parser_frame s sp).
  { revert E.
    destruct (if negb (bool_decide (mode s = _CONVERTER_MODE_NONE))
              then _NNS_MEDIA_ANY
              else gst_structure_get_media_type (gst_caps_get_structure caps)).
    all: try destruct (video_support b); try destruct (audio_support b).
    all: try (intros [= <- <- <- <- <-]; auto with frame; fail).
    all: match goal with
         | |- context [match ?p with (_, _) => _ end] =>
             let H := fresh in
             assert (H : parser_frame s p.1.2)
               by eauto using parse_video_frame, parse_audio_frame,
                    parse_text_frame, parse_octet_frame, parse_tensor_frame,
                    parse_custom_frame;
             destruct p as [[? ?] ?]; intros [= <- <- <- <- <-]; exact H
         end. }
  assert (Hinfo : tensors_info sp = tensors_info s)
    by (rewrite Hframe; by destruct s).
  intros Hres. exists sp. split; [exact Hframe|]. revert Hres.
  destruct ok1; simpl; [|intros [= <- <-]; reflexivity].
  rewrite Hinfo.
  destruct (gst_tensors_config_validate _) eqn:Hv; simpl;
    [|intros [= <- <-]; reflexivity].
  destruct (gst_tensors_info_validate (tensors_info s)) eqn:Hu; simpl.
  - destruct (gst_tensors_info_is_equal _ _) eqn:He; simpl;
      intros [= <- <-]; [|reflexivity].
    eexists _, _. split; [reflexivity|]. split; [exact Hv|]. intros _. exact He.
  - intros [= <- <-]. eexists _, _. split; [reflexivity|].
    split; [exact Hv|]. intros [=].
Qed.

(** Equality of static descriptors is equality of the declared tensors. *)
Lemma gst_tensors_info_is_equal_static i1 i2 :
  gst_tensors_info_is_equal i1 i2 = true →
  format i1 = _NNS_TENSOR_FORMAT_STATIC →
  format i2 = _NNS_TENSOR_FORMAT_STATIC
  ∧ num_tensors i1 = num_tensors i2
  ∧ ∀ n : nat, Z.of_nat n < num_tensors i1 →
      info_type (gst_tensors_info_get_nth_info i1 n)
      = info_type (gst_tensors_info_get_nth_info i2 n)
      ∧ info_dimension (gst_tensors_info_get_nth_info i1 n)
        = info_dimension (gst_tensors_info_get_nth_info i2 n).
Proof.
  unfold gst_tensors_info_is_equal. intros H Hs. rewrite Hs in H.
  rewrite !andb_true_iff in H. destruct H as (Hf & ((_ & Hn) & Hall)).
  apply bool_decide_eq_true in Hf. apply Z.eqb_eq in Hn.
  split; [congruence|]. split; [exact Hn|]. intros n Hlt.
  rewrite forallb_forall in Hall.
  specialize (Hall n). unfold gst_tensor_info_is_equal in Hall.
  rewrite !andb_true_iff, !bool_decide_eq_true in Hall.
  destruct Hall as ((_ & Ht) & Hd); [|by split].
  unfold tensor_indices. apply in_seq. lia.
Qed.

(** ** Failed negotiation *)

(** What a refused capability event keeps: gst_tensor_converter_parse_caps
    commits the descriptor, the media kind and the configured flag only on
    success, and nothing is sent downstream; the element differs from what
    it was at most in the fields the parsers assign directly. *)
Lemma failed_negotiation_keeps_descriptor w b self caps self' :
  gst_tensor_converter_sink_event w b self (GST_EVENT_CAPS caps)
  = (false, self') →
  tensors_config self' = tensors_config self
  ∧ in_media_type self' = in_media_type self
  ∧ tensors_configured self' = tensors_configured self
  ∧ srcpad self' = srcpad self
  ∧ parser_frame self self'.
Proof.
  unfold gst_tensor_converter_sink_event.
  destruct (gst_tensor_converter_parse_caps w b self caps) as [ok sp] eqn:E.
  destruct ok; intros [= <-].
  apply parse_caps_inv in E as (sp' & Hframe & ->).
  rewrite Hframe. by destruct self.
Qed.

(** C4: the code breaks the claim.  The video parser stores the frame size
    and sets the depadding flag before gst_tensor_converter_parse_caps has
    checked the new descriptor, and nothing takes the two back when the
    event is refused.  An element configured for RGB 4x2 video (frame size
    24, no depadding) with input-dim=3:4:2:1 is offered a GRAY8 5x2
    capability: the event is refused and the element stays configured for
    RGB, but its frame size is now 16 and the depadding flag is set.  The
    next RGB frame of 24 bytes, which went through before the event, now
    runs into the assertion of the depadding branch, and still does after
    the RGB capability itself has been accepted again. *)
Theorem failed_negotiation_corrupts_stream :
  let refused :=
    gst_tensor_converter_sink_event empty_world default_build rgb_element
      (GST_EVENT_CAPS (video_caps GST_VIDEO_FORMAT_GRAY8 5 2 16)) in
  let again :=
    gst_tensor_converter_sink_event empty_world default_build refused.2
      (GST_EVENT_CAPS (video_caps GST_VIDEO_FORMAT_RGB 4 2 24)) in
  refused.1 = false
  ∧ tensors_config refused.2 = tensors_config rgb_element
  ∧ in_media_type refused.2 = in_media_type rgb_element
  ∧ tensors_configured refused.2 = true
  ∧ (frame_size rgb_element, remove_padding rgb_element) = (24, false)
  ∧ (frame_size refused.2, remove_padding refused.2) = (16, true)
  ∧ (∃ self', gst_tensor_converter_chain empty_world rgb_element rgb_frame
              = Done (GST_FLOW_OK, self'))
  ∧ gst_tensor_converter_chain empty_world refused.2 rgb_frame = Abort
  ∧ again.1 = true
  ∧ tensors_config again.2 = tensors_config rgb_element
  ∧ (frame_size again.2, remove_padding again.2) = (24, true)
  ∧ gst_tensor_converter_chain empty_world again.2 rgb_frame = Abort.
Proof.
  cbv zeta.
  split; [by vm_compute|]. split; [by vm_compute|]. split; [by vm_compute|].
  split; [by vm_compute|]. split; [by vm_compute|]. split; [by vm_compute|].
  split; [eexists; by vm_compute|].
  split; [by vm_compute|]. split; [by vm_compute|]. split; [by vm_compute|].
  split; by vm_compute.
Qed.

(** ** User-declared descriptors *)

(** C7: with a valid user-declared descriptor, negotiation succeeds only if
    the descriptor derived from the capability equals the declared one
    (same number of tensors, and the same element type and dimensions for
    each); the declared descriptor is never changed, and on failure the
    configured descriptor is not changed either. *)
Theorem negotiation_respects_declared_info w b self caps ok self' :
  gst_tensors_info_validate (tensors_info self) = true →
  gst_tensor_converter_parse_caps w b self caps = (ok, self') →
  tensors_info self' = tensors_info self
  ∧ (ok = false → tensors_config self' = tensors_config self)
  ∧ (ok = true →
     let derived := config_info (tensors_config self') in
     gst_tensors_info_is_equal (tensors_info self) derived = true
     ∧ (format (tensors_info self) = _NNS_TENSOR_FORMAT_STATIC →
        format derived = _NNS_TENSOR_FORMAT_STATIC
        ∧ num_tensors (tensors_info self) = num_tensors derived
        ∧ ∀ n : nat, Z.of_nat n < num_tensors (tensors_info self) →
            info_type (gst_tensors_info_get_nth_info (tensors_info self) n)
            = info_type (gst_tensors_info_get_nth_info derived n)
            ∧ info_dimension
                (gst_tensors_info_get_nth_info (tensors_info self) n)
              = info_dimension (gst_tensors_info_get_nth_info derived n))).
Proof.
  intros Hvalid E. apply parse_caps_inv in E as (sp & Hframe & Hres).
  destruct ok.
  - destruct Hres as (config & in_type & -> & _ & Heq).
    specialize (Heq Hvalid). split; [rewrite Hframe; by destruct self|].
    split; [intros [=]|]. intros _. cbv zeta.
    replace (config_info (tensors_config _)) with (config_info config)
      by (by destruct sp).
    split; [exact Heq|]. apply gst_tensors_info_is_equal_static, Heq.
  - subst self'. split; [rewrite Hframe; by destruct self|].
    split; [intros _; rewrite Hframe; by destruct self|intros [=]].
Qed.

Lemma negotiation_respects_declared_info_witness :
  let self :=
    set_tensors_info (declared_info [declared_tensor _NNS_UINT8 [3; 4; 2; 1]])
                     fresh_element in
  let caps := video_caps GST_VIDEO_FORMAT_RGB 4 2 24 in
  let result :=
    gst_tensor_converter_parse_caps empty_world default_build self caps in
  gst_tensors_info_validate (tensors_info self) = true
  ∧ result.1 = true
  ∧ gst_tensors_info_is_equal (tensors_info self)
      (config_info (tensors_config result.2)) = true.
Proof.
  cbv zeta. split; [reflexivity|]. split; [reflexivity|].
  eapply (negotiation_respects_declared_info empty_world default_build
            _ (video_caps GST_VIDEO_FORMAT_RGB 4 2 24) true);
    [reflexivity | vm_compute; reflexivity | reflexivity].
Defined.

(** ** Octet streams and frames-per-tensor *)

(** C5 (as amended): with frames-per-tensor greater than one, negotiating an
    octet stream fails in the octet parser when the descriptor in use (the
    user-declared one if it validates, else the valid one of the peer) has
    more than one tensor, and when the peer, asked because no valid
    descriptor is declared, is flexible; the element is then exactly as it
    was before the event. *)
Theorem octet_rejects_frames_per_tensor w b self caps :
  mode self = _CONVERTER_MODE_NONE →
  gst_structure_get_media_type (gst_caps_get_structure caps) = _NNS_OCTET →
  1 < frames_per_tensor self →
  octet_multi_or_flexible self →
  gst_tensor_converter_parse_octet self (gst_caps_get_structure caps)
  = (false, self, gst_tensors_config_init)
  ∧ gst_tensor_converter_sink_event w b self (GST_EVENT_CAPS caps)
    = (false, self).
Proof.
  intros Hmode Hoctet Hfpt Hcomb.
  assert (Hparse : gst_tensor_converter_parse_octet self
                     (gst_caps_get_structure caps)
                   = (false, self, gst_tensors_config_init)).
  { unfold gst_tensor_converter_parse_octet, octet_multi_or_flexible in *.
    apply Z.ltb_lt in Hfpt. rewrite Hfpt.
    destruct (gst_tensors_info_validate (tensors_info self)); simpl.
    - apply Z.ltb_lt in Hcomb. by rewrite Hcomb.
    - destruct Hcomb as (peer & is_fixed & Hpeer & Hcase).
      unfold gst_tensors_config_from_peer. rewrite Hpeer. simpl.
      destruct Hcase as [Hflex|[Hconf Hmulti]].
      + rewrite Hflex. simpl.
        destruct (gst_tensors_info_validate (config_info peer)); simpl;
          by destruct (1 <? num_tensors _).
      + rewrite Hconf. apply Z.ltb_lt in Hmulti. simpl.
        destruct (gst_tensors_config_is_flexible peer); simpl;
          by rewrite Hmulti. }
  split; [exact Hparse|].
  unfold gst_tensor_converter_sink_event, gst_tensor_converter_parse_caps.
  destruct (gst_caps_is_fixed caps); simpl; [|reflexivity].
  rewrite Hmode, Hoctet. simpl. by rewrite Hparse.
Qed.

Lemma octet_rejects_frames_per_tensor_witness :
  let self :=
    set_frames_per_tensor 2
      (set_tensors_info
         (declared_info [declared_tensor _NNS_UINT8 [4];
                         declared_tensor _NNS_UINT8 [4]])
         rgb_element) in
  num_tensors (tensors_info self) = 2
  ∧ frames_per_tensor self = 2
  ∧ gst_tensor_converter_sink_event empty_world default_build self
      (GST_EVENT_CAPS octet_caps)
    = (false, self).
Proof.
  cbv zeta. split; [reflexivity|]. split; [reflexivity|].
  apply octet_rejects_frames_per_tensor;
    [reflexivity | reflexivity | reflexivity | vm_compute; reflexivity].
Defined.

(** C5 (as stated) fails for a flexible downstream descriptor next to a valid
    declaration: with input-dim=4, input-type=uint8, frames-per-tensor=2 and
    a peer that is flexible, the octet parser does not ask the peer and
    negotiation succeeds. *)
Lemma octet_flexible_peer_accepted :
  let self :=
    set_frames_per_tensor 2
      (set_tensors_info (declared_info [declared_tensor _NNS_UINT8 [4]])
         (gst_tensor_converter_init (linked_pad (Some (flexible_config, true)))))
  in
  1 < frames_per_tensor self
  ∧ (∃ peer is_fixed,
        pad_peer_config (srcpad self) = Some (peer, is_fixed)
        ∧ gst_tensors_config_is_flexible peer = true)
  ∧ (gst_tensor_converter_parse_octet self (gst_caps_get_structure octet_caps)).1.1
    = true
  ∧ (gst_tensor_converter_sink_event empty_world default_build self
       (GST_EVENT_CAPS octet_caps)).1 = true.
Proof.
  cbv zeta. split; [reflexivity|].
  split; [by eexists _, _|]. split; vm_compute; reflexivity.
Qed.

(** ** Flexible records checked against their size *)

Lemma chain_tensor_record_error buf l :
  foldl (chain_tensor_record buf) None l = None.
Proof. induction l as [|n l IH]; [reflexivity|exact IH]. Qed.

(** A record whose payload does not have the size of its descriptor ends the
    loop with the jump to the error label, whatever came before it. *)
Lemma chain_tensor_loop_mismatch buf n mem l acc :
  buffer_memory buf !! n = Some mem →
  record_payload_size mem ≠ record_expected_size mem →
  n ∈ l →
  foldl (chain_tensor_record buf) acc l = None.
Proof.
  intros Hmem Hne. revert acc.
  induction l as [|k l IH]; intros acc Hin; [by apply elem_of_nil in Hin|].
  apply elem_of_cons in Hin as [<-|Hin]; [|by apply IH].
  simpl. replace (chain_tensor_record buf acc n) with
    (@None (GstTensorsConfig * GstBuffer));
    [apply chain_tensor_record_error|].
  unfold chain_tensor_record. destruct acc as [[tmp inbuf]|]; [|reflexivity].
  simpl. unfold gst_tensor_buffer_get_nth_memory. rewrite Hmem. simpl.
  unfold record_payload_size, record_expected_size in Hne.
  apply Z.eqb_neq in Hne. by rewrite Hne.
Qed.

(** What a completed loop has established: every record has the size of its
    descriptor, and tmp holds the descriptors in order. *)
Lemma chain_tensor_loop_done buf k tmp0 inbuf0 tmp inbuf :
  foldl (chain_tensor_record buf) (Some (tmp0, inbuf0)) (seq 0 k)
  = Some (tmp, inbuf) →
  format (config_info tmp) = format (config_info tmp0)
  ∧ num_tensors (config_info tmp) = num_tensors (config_info tmp0)
  ∧ length (info (config_info tmp)) = length (info (config_info tmp0))
  ∧ ∀ n, (n < k)%nat →
      ∃ mem, buffer_memory buf !! n = Some mem
             ∧ record_payload_size mem = record_expected_size mem
             ∧ ((n < length (info (config_info tmp0)))%nat →
                gst_tensors_info_get_nth_info (config_info tmp) n
                = gst_tensor_meta_info_convert
                    (gst_tensor_meta_info_parse_memory mem)).
Proof.
  revert tmp inbuf. induction k as [|k IH]; intros tmp inbuf.
  - simpl. intros [= <- <-]. repeat split; intros; lia.
  - rewrite seq_S, foldl_app. simpl.
    destruct (foldl _ _ (seq 0 k)) as [[tmp1 inbuf1]|] eqn:E; [|intros [=]].
    destruct (IH _ _ eq_refl) as (Hf & Hn & Hl & Hrec).
    unfold chain_tensor_record at 1. simpl.
    unfold gst_tensor_buffer_get_nth_memory.
    destruct (buffer_memory buf !! k) as [mem|] eqn:Hmem; [|intros [=]].
    simpl.
    destruct (_ =? _) eqn:Hsz; simpl; [|intros [=]].
    intros [= <- <-]. simpl. rewrite length_insert.
    repeat split; [exact Hf | exact Hn | exact Hl |].
    intros n Hlt.
    destruct (decide (n = k)) as [->|Hne].
    + exists mem. split; [exact Hmem|]. split.
      * apply Z.eqb_eq in Hsz. exact Hsz.
      * intros Hlen. unfold gst_tensors_info_get_nth_info. simpl.
        rewrite list_lookup_insert_eq by lia. reflexivity.
    + destruct (Hrec n) as (mem' & Hm' & Hs' & Hi'); [lia|].
      exists mem'. split; [exact Hm'|]. split; [exact Hs'|].
      intros Hlen. rewrite <- (Hi' Hlen).
      unfold gst_tensors_info_get_nth_info. simpl.
      by rewrite list_lookup_insert_ne.
Qed.

Lemma gst_tensor_info_validate_init :
  gst_tensor_info_validate gst_tensor_info_init = false.
Proof. reflexivity. Qed.

(** The tensor case jumps to the error label when a record does not have the
    size of its own descriptor, and also, under a valid user-declared
    descriptor, when a record does not have the size that the configured
    static descriptor gives to its index. *)
Lemma chain_tensor_rejects self buf frames_in n mem :
  flex_buffer_records buf !! n = Some mem →
  record_payload_size mem ≠ record_expected_size mem
  ∨ (gst_tensors_info_validate (tensors_info self) = true
     ∧ record_payload_size mem
       ≠ gst_tensor_info_get_size
           (gst_tensors_info_get_nth_info
              (config_info (tensors_config self)) n)) →
  chain_tensor self buf frames_in = chain_error.
Proof.
  unfold flex_buffer_records, chain_tensor.
  change (gst_tensor_buffer_from_config buf _)
    with (gst_tensor_buffer_from_config buf gst_tensors_config_init).
  set (buf' := gst_tensor_buffer_from_config buf gst_tensors_config_init).
  intros Hmem Hcase.
  assert (Hn : (n < length (buffer_memory buf'))%nat)
    by (apply lookup_lt_is_Some; eauto).
  simpl num_tensors. unfold gst_tensor_buffer_get_count, gst_buffer_n_memory.
  unfold tensor_indices. rewrite Nat2Z.id.
  match goal with
  | |- context [foldl _ (Some (?t, _)) _] => set (tmp0 := t)
  end.
  destruct (foldl _ _ _) as [[tmp inbuf]|] eqn:E; [|reflexivity].
  destruct Hcase as [Hne|[Hvalid Hne]].
  { rewrite (chain_tensor_loop_mismatch buf' n mem) in E; [discriminate E|..];
      auto. apply list_elem_of_In, in_seq. lia. }
  rewrite Hvalid.
  destruct (gst_tensors_config_is_equal (tensors_config self) tmp) eqn:Heq;
    [exfalso|reflexivity].
  apply chain_tensor_loop_done in E as (Hf & Hnum & Hlen & Hrec).
  destruct (Hrec n Hn) as (mem' & Hmem' & Hsize & Hinfo).
  assert (mem' = mem) as -> by congruence.
  unfold gst_tensors_config_is_equal in Heq.
  rewrite !andb_true_iff in Heq. destruct Heq as (_ & Heq).
  assert (Hstatic : format (config_info (tensors_config self))
                    = _NNS_TENSOR_FORMAT_STATIC).
  { unfold gst_tensors_info_is_equal in Heq.
    rewrite andb_true_iff, bool_decide_eq_true in Heq.
    destruct Heq as [-> _]. by rewrite Hf. }
  pose proof Heq as Heq'.
  unfold gst_tensors_info_is_equal in Heq'. rewrite Hstatic in Heq'.
  rewrite !andb_true_iff in Heq'.
  destruct Heq' as (_ & ((_ & Hnum') & Hall)).
  apply Z.eqb_eq in Hnum'. rewrite forallb_forall in Hall.
  assert (Hnum0 : num_tensors (config_info tmp)
                  = Z.of_nat (length (buffer_memory buf')))
    by (rewrite Hnum; reflexivity).
  specialize (Hall n). unfold gst_tensor_info_is_equal in Hall.
  rewrite !andb_true_iff, !bool_decide_eq_true in Hall.
  destruct Hall as (((_ & Hv2) & Ht) & Hd).
  { unfold tensor_indices. apply in_seq. lia. }
  assert (Hin : (n < length (info (config_info tmp0)))%nat).
  { destruct (decide (n < length (info (config_info tmp0)))%nat) as [|Hge];
      [assumption|exfalso].
    unfold gst_tensors_info_get_nth_info in Hv2.
    rewrite lookup_ge_None_2 in Hv2 by lia. discriminate Hv2. }
  apply Hne. rewrite Hsize. unfold record_expected_size.
  rewrite <- (Hinfo Hin). unfold gst_tensor_info_get_size.
  by rewrite Ht, Hd.
Qed.

(** C3: in the flexible-to-static conversion every record's header is parsed
    and its payload length (header excluded) is compared with the size of
    the static descriptor recovered for that tensor index; if a record
    differs from it, and likewise, when the user declared a static
    descriptor, if a record differs from the size declared for its index,
    the whole buffer is refused with GST_FLOW_ERROR, nothing is sent
    downstream and the element is unchanged. *)
Theorem flexible_record_size_mismatch_rejected w self buf n mem :
  tensors_configured self = true →
  in_media_type self = _NNS_TENSOR →
  flex_buffer_records buf !! n = Some mem →
  record_payload_size mem ≠ record_expected_size mem
  ∨ (gst_tensors_info_validate (tensors_info self) = true
     ∧ record_payload_size mem
       ≠ gst_tensor_info_get_size
           (gst_tensors_info_get_nth_info
              (config_info (tensors_config self)) n)) →
  gst_tensor_converter_chain w self buf = Done (GST_FLOW_ERROR, self).
Proof.
  intros Hconf Hmedia Hmem Hcase. unfold gst_tensor_converter_chain.
  destruct (0 <? gst_buffer_get_size buf); simpl; [|reflexivity].
  rewrite Hconf, Hmedia. simpl.
  by rewrite (chain_tensor_rejects self buf 1 n mem Hmem Hcase).
Qed.

Lemma flexible_record_size_mismatch_rejected_witness :
  tensors_configured demux_element = true
  ∧ in_media_type demux_element = _NNS_TENSOR
  ∧ map record_payload_size (flex_buffer_records mismatched_flex_buffer)
    = [4; 3]
  ∧ map record_expected_size (flex_buffer_records mismatched_flex_buffer)
    = [4; 2]
  ∧ gst_tensor_converter_chain empty_world demux_element
      mismatched_flex_buffer
    = Done (GST_FLOW_ERROR, demux_element).
Proof.
  split; [reflexivity|]. split; [reflexivity|].
  split; [vm_compute; reflexivity|]. split; [vm_compute; reflexivity|].
  apply (flexible_record_size_mismatch_rejected empty_world demux_element
           mismatched_flex_buffer 1
           (flex_record [2] [x05; x06; x07]));
    [reflexivity | reflexivity | reflexivity |].
  left. vm_compute. discriminate.
Defined.

(** ** The tail of the chain function *)

Lemma pushed_buffers_app l1 l2 :
  pushed_buffers (l1 ++ l2) = pushed_buffers l1 ++ pushed_buffers l2.
Proof. unfold pushed_buffers. apply omap_app. Qed.

(** _gst_tensor_converter_chain_segment returns when the segment bookkeeping
    is sound; it sends no buffer and touches neither the descriptor nor the
    capability of the pad. *)
Lemma chain_segment_done self frame_size :
  segment_ready self →
  ∃ self1,
    _gst_tensor_converter_chain_segment self frame_size = Done self1
    ∧ need_segment self1 = false
    ∧ pushed_buffers (pad_pushed (srcpad self1))
      = pushed_buffers (pad_pushed (srcpad self))
    ∧ pad_current_caps (srcpad self1) = pad_current_caps (srcpad self)
    ∧ pad_peer_chain (srcpad self1) = pad_peer_chain (srcpad self)
    ∧ tensors_config self1 = tensors_config self
    ∧ in_media_type self1 = in_media_type self
    ∧ do_not_append_header self1 = do_not_append_header self
    ∧ frames_per_tensor self1 = frames_per_tensor self
    ∧ set_timestamp self1 = set_timestamp self
    ∧ adapter_table self1 = adapter_table self
    ∧ tensors_configured self1 = tensors_configured self
    ∧ have_segment self1 = have_segment self.
Proof.
  intros Hready. unfold _gst_tensor_converter_chain_segment.
  destruct (need_segment self) eqn:Hneed.
  - rewrite (Hready Hneed). simpl. eexists. split; [reflexivity|].
    match goal with
    | |- context [gst_pad_push_segment _ ?s] => generalize s; intros seg
    end.
    cbn. rewrite pushed_buffers_app, app_nil_r. repeat split; auto.
  - exists self. by repeat split.
Qed.

(** _gst_tensor_converter_chain_timestamp keeps the data of the buffer and
    a valid presentation time. *)
Lemma chain_timestamp_spec w self inbuf frames_in :
  let '(self2, inbuf2) :=
    _gst_tensor_converter_chain_timestamp w self inbuf frames_in in
  self2 = set_old_timestamp (buffer_pts inbuf2) self
  ∧ buffer_memory inbuf2 = buffer_memory inbuf
  ∧ buffer_meta_query inbuf2 = buffer_meta_query inbuf
  ∧ buffer_dts inbuf2 = buffer_dts inbuf
  ∧ (GST_CLOCK_TIME_IS_VALID (buffer_pts inbuf) = true →
     buffer_pts inbuf2 = buffer_pts inbuf).
Proof.
  unfold _gst_tensor_converter_chain_timestamp.
  destruct (set_timestamp self); [|by repeat split].
  destruct (_ && _); simpl;
    destruct (GST_CLOCK_TIME_IS_VALID (buffer_pts inbuf)); simpl;
    by repeat split.
Qed.

(** _gst_tensor_converter_chain_push on a stream that is not an octet
    stream. *)
Lemma chain_push_not_octet self buf :
  in_media_type self ≠ _NNS_OCTET →
  _gst_tensor_converter_chain_push self buf
  = Done (pad_peer_chain (srcpad self) (pad_pushed (srcpad self))
                         (outgoing_frame self buf),
          set_srcpad (gst_pad_push (srcpad self) (outgoing_frame self buf)).2
                     self).
Proof.
  intros Hne. unfold _gst_tensor_converter_chain_push.
  rewrite bool_decide_eq_false_2 by exact Hne. reflexivity.
Qed.

(** The outgoing frame depends on the element only through the descriptor,
    the media type, the header switch and the capability of the pad. *)
Lemma outgoing_frame_ext s s' frame :
  tensors_config s' = tensors_config s →
  in_media_type s' = in_media_type s →
  do_not_append_header s' = do_not_append_header s →
  pad_current_caps (srcpad s') = pad_current_caps (srcpad s) →
  outgoing_frame s' frame = outgoing_frame s frame.
Proof.
  intros Hc Hm Hd Hp.
  unfold outgoing_frame, _gst_tensor_converter_chain_flex_tensor,
    gst_tensor_pad_caps_is_flexible.
  by rewrite Hc, Hm, Hd, Hp.
Qed.

(** ** Depadding *)

Lemma concat_length_rows (rows : list (list byte)) (k : nat) :
  Forall (fun row => length row = k) rows →
  length (concat rows) = (k * length rows)%nat.
Proof.
  induction 1 as [|row rows Hrow _ IH]; simpl; [lia|].
  rewrite length_app, IH, Hrow. lia.
Qed.

Lemma iterM_S {A : Type} (n : nat) (body : A → M A) (a : A) :
  iterM (S n) body a = body a ≫= iterM n body.
Proof. reflexivity. Qed.

(** One round of the row loop of the video case for rows of 5 bytes stored
    every 8 bytes: with the rows [pre] copied, the next row is copied behind
    them. *)
Lemma depad_row_step (pre : list (list byte)) (row : list byte)
    (rest : list (list byte)) :
  Forall (fun row => length row = 8%nat) pre →
  length row = 8%nat →
  8 * Z.of_nat (length pre + S (length rest)) < 2 ^ 32 →
  depad_row (concat (pre ++ row :: rest)) 5 8
    (concat (take 5 <$> pre) ++ replicate (5 * S (length rest)) x00,
     8 * Z.of_nat (length pre), 5 * Z.of_nat (length pre))
  = Done (concat (take 5 <$> (pre ++ [row]))
          ++ replicate (5 * length rest) x00,
          8 * Z.of_nat (length (pre ++ [row])),
          5 * Z.of_nat (length (pre ++ [row]))).
Proof.
  intros Hpre Hrow Hbound.
  assert (Hlen5 : length (concat (take 5 <$> pre)) = (5 * length pre)%nat).
  { rewrite (concat_length_rows _ 5), length_fmap; [lia|].
    apply Forall_fmap. eapply Forall_impl; [exact Hpre|].
    intros r Hr. simpl in Hr |- *. rewrite length_take. lia. }
  assert (Hlen8 : length (concat pre) = (8 * length pre)%nat)
    by by apply concat_length_rows.
  unfold depad_row, memcpy.
  rewrite concat_app, concat_cons, !length_app, length_replicate, Hlen5, Hlen8,
    Hrow.
  rewrite (proj2 (Z.leb_le _ _)) by lia.
  rewrite (proj2 (Z.leb_le _ _)) by lia.
  cbn [andb mbind M_bind mret M_ret].
  replace (Z.to_nat (5 * Z.of_nat (length pre)))
    with (length (concat (take 5 <$> pre))) by lia.
  replace (Z.to_nat (8 * Z.of_nat (length pre)))
    with (length (concat pre)) by lia.
  rewrite take_app_length, drop_app_length.
  replace (Z.to_nat (5 * Z.of_nat (length pre) + 5))
    with (length (concat (take 5 <$> pre)) + 5)%nat by lia.
  rewrite drop_app_add' by reflexivity.
  replace (Z.to_nat 5) with 5%nat by reflexivity.
  rewrite (take_app_le row) by lia.
  replace (5 * S (length rest))%nat with (5 + 5 * length rest)%nat by lia.
  rewrite drop_replicate_add.
  rewrite !to_guint_small by lia.
  rewrite fmap_app, concat_app. cbn [fmap list_fmap concat length].
  rewrite app_nil_r, <- app_assoc.
  unfold mret, M_ret. do 3 f_equal; lia.
Qed.

(** The row loop: once the rows [pre] are copied, copying the rows [rest]
    completes the packed frame. *)
Lemma depad_rows_loop (pre rest : list (list byte)) :
  Forall (fun row => length row = 8%nat) pre →
  Forall (fun row => length row = 8%nat) rest →
  8 * Z.of_nat (length pre + length rest) < 2 ^ 32 →
  iterM (length rest) (depad_row (concat (pre ++ rest)) 5 8)
        (concat (take 5 <$> pre) ++ replicate (5 * length rest) x00,
         8 * Z.of_nat (length pre), 5 * Z.of_nat (length pre))
  = Done (concat (take 5 <$> (pre ++ rest)),
          8 * Z.of_nat (length (pre ++ rest)),
          5 * Z.of_nat (length (pre ++ rest))).
Proof.
  revert pre. induction rest as [|row rest IH]; intros pre Hpre Hrest Hbound.
  - cbn [length iterM Nat.mul replicate]. rewrite !app_nil_r. reflexivity.
  - apply Forall_cons in Hrest as [Hrow Hrest].
    cbn [length] in Hbound |- *. rewrite iterM_S.
    rewrite depad_row_step by assumption.
    cbn [mbind M_bind].
    specialize (IH (pre ++ [row])).
    rewrite <- !app_assoc in IH. cbn [app] in IH.
    apply IH; [apply Forall_app; auto | exact Hrest |].
    rewrite length_app. cbn [length]. lia.
Qed.

Lemma gst_buffer_get_size_all_memory b :
  gst_buffer_get_size b = Z.of_nat (length (gst_buffer_get_all_memory b)).
Proof.
  unfold gst_buffer_get_size, gst_buffer_get_all_memory, gst_memory_get_sizes.
  induction (buffer_memory b) as [|m l IH]; [reflexivity|].
  cbn [map foldr concat]. rewrite length_app, IH. lia.
Qed.

(** The video case with depadding, for a GRAY8 frame of width 5: the frame
    handed on holds the first 5 bytes of every 8-byte row. *)
Lemma chain_video_depad_gray8 self buf (rows : list (list byte)) :
  let height := Z.of_nat (length rows) in
  let info0 :=
    gst_tensors_info_get_nth_info (config_info (tensors_config self)) 0 in
  remove_padding self = true →
  info_type info0 = _NNS_UINT8 →
  dim_get (info_dimension info0) 0 = 1 →
  dim_get (info_dimension info0) 1 = 5 →
  dim_get (info_dimension info0) 2 = height →
  frame_size self = 8 * height →
  Forall (fun row => length row = 8%nat) rows →
  0 < height →
  8 * height < 2 ^ 32 →
  gst_buffer_get_all_memory buf = concat rows →
  chain_video self buf (gst_buffer_get_size buf) 1
  = Done (chain_next self
            (gst_buffer_copy_metadata
               (set_buffer_memory [concat (take 5 <$> rows)] gst_buffer_new)
               buf)
            (5 * height) 1).
Proof.
  intros height info0 Hpad Htype Hd0 Hd1 Hd2 Hfs Hrows Hpos Hbound Hdata.
  assert (Hsize : gst_buffer_get_size buf = 8 * height).
  { rewrite gst_buffer_get_size_all_memory, Hdata,
      (concat_length_rows _ 8) by exact Hrows. lia. }
  unfold chain_video. fold info0. rewrite Hpad, Htype, Hd0, Hd1, Hd2, Hfs, Hsize.
  cbn [gst_tensor_get_element_size].
  replace (1 * 1 * 5 * height) with (5 * height) by lia.
  replace (1 * 1 * 5) with 5 by lia.
  rewrite (to_guint64_small (5 * height)) by lia.
  rewrite (to_guint64_small 5) by lia.
  unfold g_assert.
  rewrite (proj2 (Z.eqb_neq (8 * height) 0)) by lia.
  rewrite Z_div_same_full by lia.
  change (5 mod 4) with 1. cbn [negb Z.eqb Pos.eqb mbind M_bind Z.sub Z.add
                                 Z.pos_sub Pos.add Pos.succ Z.opp
                                 Pos.pred_double].
  change (5 + (4 - 1)) with 8. rewrite (to_guint64_small 8) by lia.
  unfold depad_frames. rewrite Hdata.
  change (Z.to_nat 1) with 1%nat. rewrite iterM_S. cbn [iterM].
  replace (Z.to_nat height) with (length rows) by (unfold height; lia).
  unfold gst_buffer_new_zeroed, gst_buffer_get_all_memory.
  cbn [buffer_memory set_buffer_memory concat]. rewrite app_nil_r.
  replace (Z.to_nat (5 * height)) with (5 * length rows)%nat
    by (unfold height; lia).
  pose proof (depad_rows_loop [] rows (Forall_nil_2 _) Hrows) as Hloop.
  cbn [app length fmap list_fmap concat Nat.add] in Hloop.
  change (8 * Z.of_nat 0) with 0 in Hloop.
  change (5 * Z.of_nat 0) with 0 in Hloop.
  rewrite Hloop by (fold height; lia).
  reflexivity.
Qed.

(** C8: a GRAY8 frame of width 5, whose rows are stored 8 bytes apart, goes
    through the depadding path to exactly one frame of 5*height bytes, the
    first 5 bytes of each source row in order, with no padding byte; that
    frame is what the element sends downstream (behind its header when the
    pad carries the flexible format). *)
Theorem depadding_gray8_width5 w self buf (rows : list (list byte)) :
  let height := Z.of_nat (length rows) in
  let info0 :=
    gst_tensors_info_get_nth_info (config_info (tensors_config self)) 0 in
  tensors_configured self = true →
  in_media_type self = _NNS_VIDEO →
  remove_padding self = true →
  frames_per_tensor self = 1 →
  info_type info0 = _NNS_UINT8 →
  dim_get (info_dimension info0) 0 = 1 →
  dim_get (info_dimension info0) 1 = 5 →
  dim_get (info_dimension info0) 2 = height →
  frame_size self = 8 * height →
  segment_ready self →
  Forall (fun row => length row = 8%nat) rows →
  0 < height →
  8 * height < 2 ^ 32 →
  gst_buffer_get_all_memory buf = concat rows →
  ∃ ret self' frame,
    gst_tensor_converter_chain w self buf = Done (ret, self')
    ∧ buffer_memory frame = [concat (take 5 <$> rows)]
    ∧ gst_buffer_get_size frame = 5 * height
    ∧ pushed_buffers (pad_pushed (srcpad self'))
      = pushed_buffers (pad_pushed (srcpad self)) ++ [outgoing_frame self frame].
Proof.
  intros height info0 Hconf Hmedia Hpad Hfpt Htype Hd0 Hd1 Hd2 Hfs Hready
    Hrows Hpos Hbound Hdata.
  assert (Hsize : gst_buffer_get_size buf = 8 * height).
  { rewrite gst_buffer_get_size_all_memory, Hdata,
      (concat_length_rows _ 8) by exact Hrows. lia. }
  unfold gst_tensor_converter_chain.
  rewrite (proj2 (Z.ltb_lt 0 _)) by lia.
  rewrite Hconf, Hmedia. cbn [negb g_assert mbind M_bind].
  rewrite (chain_video_depad_gray8 self buf rows) by assumption.
  cbn [mbind M_bind]. fold height.
  destruct (chain_segment_done self (5 * height) Hready)
    as (self1 & -> & _ & Hpushed & Hcaps & _ & Hcfg & Hmed & Hhdr & Hfpt1 & _).
  cbn [mbind M_bind].
  match goal with
  | |- context [_gst_tensor_converter_chain_timestamp w self1 ?b 1] =>
      pose proof (chain_timestamp_spec w self1 b 1) as Hts;
      destruct (_gst_tensor_converter_chain_timestamp w self1 b 1)
        as [self2 frame]
  end.
  destruct Hts as (-> & Hmem & _).
  cbn [buffer_memory gst_buffer_copy_metadata set_buffer_memory] in Hmem.
  rewrite Hfpt. cbn [Z.eqb Pos.eqb].
  rewrite chain_push_not_octet
    by (cbn [in_media_type set_old_timestamp]; rewrite Hmed, Hmedia; done).
  eexists _, _, frame. split; [reflexivity|].
  split; [exact Hmem|]. split.
  - rewrite gst_buffer_get_size_all_memory. unfold gst_buffer_get_all_memory.
    rewrite Hmem. cbn [concat]. rewrite app_nil_r.
    rewrite (concat_length_rows _ 5), length_fmap; [lia|].
    apply Forall_fmap. eapply Forall_impl; [exact Hrows|].
    intros r Hr. simpl in Hr |- *. rewrite length_take. lia.
  - cbn [srcpad set_srcpad gst_pad_push snd pad_pushed].
    rewrite pushed_buffers_app. cbn [set_old_timestamp srcpad].
    rewrite Hpushed. f_equal. cbn [pushed_buffers omap list_omap]. f_equal.
    apply outgoing_frame_ext; cbn [set_old_timestamp tensors_config
      in_media_type do_not_append_header srcpad]; assumption.
Qed.

(** ** The adapter on one buffer of two frames *)

Lemma adapter_push_new b :
  gst_adapter_push gst_adapter_new b = adapter_after b 0.
Proof.
  unfold gst_adapter_push, adapter_after, update_timestamps. cbn.
  by destruct (GST_CLOCK_TIME_IS_VALID (buffer_pts b)),
       (GST_CLOCK_TIME_IS_VALID (buffer_dts b)).
Qed.

Lemma adapter_available_after b taken :
  gst_buffer_get_size b = 8 →
  taken = 0 ∨ taken = 4 ∨ taken = 8 →
  gst_adapter_available (adapter_after b taken) = 8 - taken.
Proof.
  intros Hsize [->|[->| ->]]; unfold gst_adapter_available, queue_size; cbn;
    rewrite ?Hsize; lia.
Qed.

Lemma adapter_take_first b :
  gst_buffer_get_size b = 8 →
  gst_adapter_take_buffer (adapter_after b 0) 4
  = Some (set_buffer_memory [take 4 (gst_buffer_get_all_memory b)] b,
          adapter_after b 4).
Proof.
  intros Hsize. unfold gst_adapter_take_buffer.
  rewrite (adapter_available_after b 0) by auto. cbn [Z.leb Z.ltb Z.compare
    Z.sub Z.add Z.opp Z.pos_sub Pos.compare Pos.compare_cont orb].
  unfold adapter_bytes, gst_adapter_flush_unchecked. cbn -[Z.add Z.leb].
  rewrite Hsize, app_nil_r. cbn.
  f_equal.
Qed.

Lemma adapter_take_second b :
  gst_buffer_get_size b = 8 →
  gst_adapter_take_buffer (adapter_after b 4) 4
  = Some (set_buffer_memory [drop 4 (gst_buffer_get_all_memory b)] b,
          adapter_after b 8).
Proof.
  intros Hsize. unfold gst_adapter_take_buffer.
  rewrite (adapter_available_after b 4) by auto. cbn [Z.leb Z.ltb Z.compare
    Z.sub Z.add Z.opp Z.pos_sub Pos.compare Pos.compare_cont orb].
  unfold adapter_bytes, gst_adapter_flush_unchecked. cbn -[Z.add Z.leb].
  rewrite Hsize, app_nil_r. cbn.
  rewrite take_ge; [f_equal|].
  rewrite length_drop. rewrite gst_buffer_get_size_all_memory in Hsize. lia.
Qed.

(** ** The rounds of the chunk loop *)

(** Flushing takes exactly the flushed bytes out of what is available. *)
Lemma flush_whole_available q flush a :
  queue_size (queue (flush_whole q flush a).1) - (flush_whole q flush a).2
  = queue_size q - flush.
Proof.
  revert flush a. induction q as [|cur q IH]; intros flush a; [reflexivity|].
  cbn [flush_whole]. destruct (gst_buffer_get_size cur <=? flush).
  - destruct q as [|next q'].
    + cbn. lia.
    + rewrite IH. unfold queue_size. cbn [map foldr]. lia.
  - reflexivity.
Qed.

Lemma gst_adapter_flush_unchecked_available a n :
  gst_adapter_available (gst_adapter_flush_unchecked a n)
  = gst_adapter_available a - n.
Proof.
  unfold gst_adapter_flush_unchecked, gst_adapter_available.
  pose proof (flush_whole_available (queue (add_distance (- skip a) a))
                (n + skip a) (add_distance (- skip a) a)) as H.
  destruct (flush_whole _ _ _) as [a' rest]. cbn in H |- *.
  unfold queue_size in *. lia.
Qed.

(** A buffer is only taken when it is not empty and the adapter holds it;
    what is available shrinks by its size. *)
Lemma gst_adapter_take_buffer_available a n outbuf a' :
  gst_adapter_take_buffer a n = Some (outbuf, a') →
  0 < n ≤ gst_adapter_available a
  ∧ gst_adapter_available a' = gst_adapter_available a - n.
Proof.
  unfold gst_adapter_take_buffer.
  destruct ((n <=? 0) || (gst_adapter_available a <? n)) eqn:Hrefused;
    [discriminate|].
  apply orb_false_iff in Hrefused as [Hpos Hheld].
  apply Z.leb_gt in Hpos. apply Z.ltb_ge in Hheld.
  intros [= _ <-]. rewrite gst_adapter_flush_unchecked_available. lia.
Qed.

(** Every round that emits a frame takes out_size > 0 bytes out of the
    adapter, so the loop started with one round more than the bytes
    available never runs out of rounds: more rounds change nothing. *)
Lemma chain_chunk_loop_rounds n m self adapter frames_in frame_size out_size
    duration ret :
  gst_adapter_available adapter <= Z.of_nat n →
  (n ≤ m)%nat →
  chain_chunk_loop (S n) self adapter frames_in frame_size out_size duration ret
  = chain_chunk_loop (S m) self adapter frames_in frame_size out_size
                     duration ret.
Proof.
  revert m self adapter ret.
  induction n as [|n IH]; intros m self adapter ret Havail Hle;
    (destruct m as [|m]; [try reflexivity; lia|]);
    cbn [chain_chunk_loop gst_adapter_prev_pts gst_adapter_prev_dts];
    (destruct ((out_size <=? gst_adapter_available adapter)
               && bool_decide (ret = GST_FLOW_OK)); [|reflexivity]);
    (destruct (gst_adapter_take_buffer adapter out_size)
       as [[outbuf adapter']|] eqn:Htake; [|reflexivity]);
    apply gst_adapter_take_buffer_available in Htake as [Hsize Hleft].
  - lia.
  - destruct ((1 <? frames_in) && _);
      (destruct (_gst_tensor_converter_chain_push self _) as [[ret' self']|];
       [|reflexivity]);
      cbn [mbind M_bind]; apply IH; lia.
Qed.

(** _gst_tensor_converter_chain_chunk gives its loop enough rounds. *)
Lemma chain_chunk_rounds_suffice m self adapter frames_in frame_size out_size
    duration ret :
  (Z.to_nat (gst_adapter_available adapter) ≤ m)%nat →
  chain_chunk_loop (S (Z.to_nat (gst_adapter_available adapter))) self adapter
                   frames_in frame_size out_size duration ret
  = chain_chunk_loop (S m) self adapter frames_in frame_size out_size
                     duration ret.
Proof. intros Hle. apply chain_chunk_loop_rounds; lia. Qed.

(** ** Windowing of one audio chunk *)

(** One round of the loop of _gst_tensor_converter_chain_chunk that emits a
    frame: the adapter holds enough, the frame taken is stamped and pushed,
    and the loop goes on with the answer of the peer. *)
Lemma chain_chunk_loop_emit rounds self adapter frames_in frame_size out_size
    duration outbuf adapter' :
  in_media_type self ≠ _NNS_OCTET →
  (out_size <=? gst_adapter_available adapter) = true →
  gst_adapter_take_buffer adapter out_size = Some (outbuf, adapter') →
  let config := tensors_config self in
  let stamp t dist :=
    if (1 <? frames_in) && ((0 <? rate_n config) && (0 <? rate_d config))
    then if GST_CLOCK_TIME_IS_VALID t
         then to_guint64
                (t + gst_util_uint64_scale_int
                       (to_guint64 (dist * rate_d config)) GST_SECOND
                       (to_guint64 (rate_n config * frame_size)))
         else t
    else t in
  let frame :=
    set_buffer_duration duration
      (set_buffer_dts (stamp (dts adapter) (dts_distance adapter))
         (set_buffer_pts (stamp (pts adapter) (pts_distance adapter)) outbuf))
  in
  chain_chunk_loop (S rounds) self adapter frames_in frame_size out_size
                   duration GST_FLOW_OK
  = chain_chunk_loop rounds
      (set_srcpad (gst_pad_push (srcpad self) (outgoing_frame self frame)).2
                  self)
      adapter' frames_in frame_size out_size duration
      (pad_peer_chain (srcpad self) (pad_pushed (srcpad self))
                      (outgoing_frame self frame)).
Proof.
  intros Hmedia Havail Htake. cbv zeta.
  cbn [chain_chunk_loop]. rewrite Havail, Htake.
  rewrite bool_decide_eq_true_2 by reflexivity.
  cbn [andb gst_adapter_prev_pts gst_adapter_prev_dts].
  destruct ((1 <? frames_in) && _); cbn [andb];
    rewrite chain_push_not_octet by exact Hmedia; reflexivity.
Qed.

(** The round that ends the loop. *)
Lemma chain_chunk_loop_exit rounds self adapter frames_in frame_size out_size
    duration ret :
  (out_size <=? gst_adapter_available adapter) = false →
  chain_chunk_loop (S rounds) self adapter frames_in frame_size out_size
                   duration ret
  = Done (ret, self, adapter).
Proof. intros Havail. cbn [chain_chunk_loop]. by rewrite Havail. Qed.

(** The chunk routine on one buffer of 8 bytes for a fresh substream, with
    frames of 2 bytes at 1000 frames per second and 2 frames per tensor. *)
Lemma chain_chunk_two_frames self inbuf :
  in_media_type self ≠ _NNS_OCTET →
  rate_n (tensors_config self) = 1000 →
  rate_d (tensors_config self) = 1 →
  gst_buffer_get_size inbuf = 8 →
  GST_CLOCK_TIME_IS_VALID (buffer_pts inbuf) = true →
  0 <= buffer_pts inbuf < 2 ^ 64 →
  adapter_table self !! adapter_key inbuf = None
  ∨ adapter_table self !! adapter_key inbuf = Some gst_adapter_new →
  (∀ l b, pad_peer_chain (srcpad self) l b = GST_FLOW_OK) →
  ∃ self' frame1 frame2,
    _gst_tensor_converter_chain_chunk self inbuf 4 2 2
    = Done (GST_FLOW_OK, self')
    ∧ buffer_memory frame1 = [take 4 (gst_buffer_get_all_memory inbuf)]
    ∧ buffer_pts frame1 = buffer_pts inbuf
    ∧ buffer_memory frame2 = [drop 4 (gst_buffer_get_all_memory inbuf)]
    ∧ buffer_pts frame2 = to_guint64 (buffer_pts inbuf + 2 * GST_MSECOND)
    ∧ pushed_buffers (pad_pushed (srcpad self'))
      = pushed_buffers (pad_pushed (srcpad self))
        ++ [outgoing_frame self frame1; outgoing_frame self frame2]
    ∧ adapter_table self' !! adapter_key inbuf = Some (adapter_after inbuf 8).
Proof.
  intros Hmedia Hn Hd Hsize Hvalid Hrange Hfresh Hpeer.
  unfold _gst_tensor_converter_chain_chunk, gst_tensor_converter_get_adapter.
  assert (Hget : ∃ table,
             gst_tensor_aggregation_get_adapter (adapter_table self)
                                                (adapter_key inbuf)
             = (gst_adapter_new, table)).
  { unfold gst_tensor_aggregation_get_adapter.
    destruct Hfresh as [-> | ->]; eauto. }
  destruct Hget as [table ->].
  rewrite adapter_push_new, (adapter_available_after inbuf 0) by auto.
  change (Z.to_nat (8 - 0)) with 8%nat. change (to_guint64 (2 * 2)) with 4.
  set (duration := if GST_CLOCK_TIME_IS_VALID (buffer_duration inbuf)
                   then _ else _).
  set (self0 := set_adapter_table table self).
  assert (Hmedia0 : in_media_type self0 ≠ _NNS_OCTET) by exact Hmedia.
  rewrite (chain_chunk_loop_emit 8 self0 (adapter_after inbuf 0) 4 2 4 duration
             _ _ Hmedia0
             ltac:(by rewrite (adapter_available_after inbuf 0) by auto)
             (adapter_take_first inbuf Hsize)).
  cbn [srcpad set_adapter_table self0 tensors_config].
  rewrite Hpeer, Hn, Hd.
  cbn [pts dts pts_distance dts_distance adapter_after].
  rewrite Hvalid.
  set (frame1 := set_buffer_duration duration _).
  set (self1 := set_srcpad _ _).
  assert (Hmedia1 : in_media_type self1 ≠ _NNS_OCTET) by exact Hmedia.
  rewrite (chain_chunk_loop_emit 7 self1 (adapter_after inbuf 4) 4 2 4 duration
             _ _ Hmedia1
             ltac:(by rewrite (adapter_available_after inbuf 4) by auto)
             (adapter_take_second inbuf Hsize)).
  cbn [srcpad set_srcpad self1 set_adapter_table self0 tensors_config
       gst_pad_push snd pad_peer_chain pad_pushed].
  rewrite Hpeer, Hn, Hd.
  cbn [pts dts pts_distance dts_distance adapter_after].
  rewrite Hvalid.
  set (frame2 := set_buffer_duration duration _).
  rewrite chain_chunk_loop_exit
    by by rewrite (adapter_available_after inbuf 8) by auto.
  cbn [mbind M_bind mret M_ret].
  exists (set_adapter_table
            (<[adapter_key inbuf := adapter_after inbuf 8]>
               (adapter_table
                  (set_srcpad
                     (gst_pad_push (srcpad self1)
                        (outgoing_frame self1 frame2)).2 self1)))
            (set_srcpad
               (gst_pad_push (srcpad self1) (outgoing_frame self1 frame2)).2
               self1)), frame1, frame2.
  split; [reflexivity|].
  split; [reflexivity|]. split.
  { subst frame1. cbn. rewrite Hvalid.
    change (gst_util_uint64_scale_int _ _ _) with 0.
    rewrite to_guint64_small; lia. }
  split; [reflexivity|]. split.
  { subst frame2. cbn. rewrite Hvalid. reflexivity. }
  split.
  - cbn [srcpad set_srcpad set_adapter_table gst_pad_push snd pad_pushed self1
         self0].
    rewrite !pushed_buffers_app. cbn [pushed_buffers omap list_omap].
    rewrite <- app_assoc. cbn [app]. reflexivity.
  - cbn [adapter_table set_adapter_table]. apply lookup_insert_eq.
Qed.

(** C2: an audio substream with frames of 2 bytes at 1000/1 frames per
    second and 2 frames per tensor receives one chunk of 4 frames (8 bytes)
    with a valid timestamp, on a fresh adapter and with a peer that accepts
    buffers: the element emits exactly two frames of 4 bytes, the two halves
    of the chunk; the first carries the timestamp of the chunk and the
    second that timestamp plus 2 milliseconds (in 64-bit arithmetic). *)
Theorem audio_chunk_windowing w self buf :
  let config := tensors_config self in
  let data := gst_buffer_get_all_memory buf in
  tensors_configured self = true →
  in_media_type self = _NNS_AUDIO →
  frame_size self = 2 →
  rate_n config = 1000 →
  rate_d config = 1 →
  frames_per_tensor self = 2 →
  segment_ready self →
  gst_buffer_get_size buf = 8 →
  GST_CLOCK_TIME_IS_VALID (buffer_pts buf) = true →
  0 <= buffer_pts buf < 2 ^ 64 →
  adapter_table self !! adapter_key buf = None
  ∨ adapter_table self !! adapter_key buf = Some gst_adapter_new →
  (∀ l b, pad_peer_chain (srcpad self) l b = GST_FLOW_OK) →
  ∃ self' frame1 frame2,
    gst_tensor_converter_chain w self buf = Done (GST_FLOW_OK, self')
    ∧ pushed_buffers (pad_pushed (srcpad self'))
      = pushed_buffers (pad_pushed (srcpad self))
        ++ [outgoing_frame self frame1; outgoing_frame self frame2]
    ∧ buffer_memory frame1 = [take 4 data]
    ∧ gst_buffer_get_size frame1 = 4
    ∧ buffer_pts frame1 = buffer_pts buf
    ∧ buffer_memory frame2 = [drop 4 data]
    ∧ gst_buffer_get_size frame2 = 4
    ∧ buffer_pts frame2 = to_guint64 (buffer_pts buf + 2 * GST_MSECOND)
    ∧ (buffer_pts buf + 2 * GST_MSECOND < 2 ^ 64 →
       buffer_pts frame2 = buffer_pts buf + 2 * GST_MSECOND).
Proof.
  intros config data Hconf Hmedia Hfs Hn Hd Hfpt Hready Hsize Hvalid Hrange
    Hfresh Hpeer.
  unfold gst_tensor_converter_chain.
  rewrite Hsize, Hconf, Hmedia. cbn [Z.ltb Z.compare negb g_assert mbind M_bind].
  unfold chain_audio. rewrite Hfs.
  cbn [Z.eqb negb g_assert mbind M_bind mret M_ret].
  change (to_guint (8 / 2)) with 4.
  destruct (chain_segment_done self 2 Hready)
    as (self1 & -> & _ & Hpushed & Hcaps & Hchain & Hcfg & Hmed & Hhdr & _
        & _ & Htable & _).
  cbn [mbind M_bind].
  pose proof (chain_timestamp_spec w self1 buf 4) as Hts.
  destruct (_gst_tensor_converter_chain_timestamp w self1 buf 4)
    as [self2 inbuf].
  destruct Hts as (-> & Hmem & Hmeta & _ & Hpts). specialize (Hpts Hvalid).
  rewrite Hfpt. cbn [Z.eqb Pos.eqb].
  assert (Hall : gst_buffer_get_all_memory inbuf = data)
    by (unfold data, gst_buffer_get_all_memory; by rewrite Hmem).
  assert (Hkey : adapter_key inbuf = adapter_key buf)
    by (unfold adapter_key; by rewrite Hmeta).
  destruct (chain_chunk_two_frames
              (set_old_timestamp (buffer_pts inbuf) self1) inbuf)
    as (self' & frame1 & frame2 & -> & Hm1 & Hp1 & Hm2 & Hp2 & Hout & _).
  - cbn [in_media_type set_old_timestamp]. by rewrite Hmed, Hmedia.
  - cbn [tensors_config set_old_timestamp]. by rewrite Hcfg.
  - cbn [tensors_config set_old_timestamp]. by rewrite Hcfg.
  - rewrite gst_buffer_get_size_all_memory, Hall. unfold data.
    by rewrite <- gst_buffer_get_size_all_memory.
  - by rewrite Hpts.
  - by rewrite Hpts.
  - cbn [adapter_table set_old_timestamp]. by rewrite Htable, Hkey.
  - cbn [srcpad set_old_timestamp]. intros l b. by rewrite Hchain.
  - assert (Hlen : length data = 8%nat).
    { unfold data. rewrite gst_buffer_get_size_all_memory in Hsize. lia. }
    exists self', frame1, frame2. split; [reflexivity|]. split.
    { rewrite Hout. cbn [srcpad set_old_timestamp]. rewrite Hpushed.
      do 2 f_equal; [|f_equal]; apply outgoing_frame_ext;
        cbn [set_old_timestamp tensors_config in_media_type
             do_not_append_header srcpad]; assumption. }
    rewrite Hall in Hm1, Hm2. rewrite Hpts in Hp1, Hp2.
    split; [exact Hm1|]. split.
    { rewrite gst_buffer_get_size_all_memory. unfold gst_buffer_get_all_memory.
      rewrite Hm1. cbn [concat]. rewrite app_nil_r, length_take. lia. }
    split; [exact Hp1|]. split; [exact Hm2|]. split.
    { rewrite gst_buffer_get_size_all_memory. unfold gst_buffer_get_all_memory.
      rewrite Hm2. cbn [concat]. rewrite app_nil_r, length_drop. lia. }
    split; [exact Hp2|]. intros Hno. rewrite Hp2.
    apply to_guint64_small. unfold GST_MSECOND in *. lia.
Qed.

Lemma audio_chunk_windowing_witness :
  frame_size audio_element = 2
  ∧ frames_per_tensor audio_element = 2
  ∧ (rate_n (tensors_config audio_element),
     rate_d (tensors_config audio_element)) = (1000, 1)
  ∧ gst_buffer_get_size audio_chunk = 8
  ∧ buffer_pts audio_chunk = 5000
  ∧ ∃ self' frame1 frame2,
      gst_tensor_converter_chain empty_world audio_element audio_chunk
      = Done (GST_FLOW_OK, self')
      ∧ pushed_buffers (pad_pushed (srcpad self')) = [frame1; frame2]
      ∧ buffer_memory frame1 = [[x01; x02; x03; x04]]
      ∧ buffer_pts frame1 = 5000
      ∧ buffer_memory frame2 = [[x05; x06; x07; x08]]
      ∧ buffer_pts frame2 = 5000 + 2 * GST_MSECOND.
Proof.
  do 5 (split; [reflexivity|]).
  destruct (audio_chunk_windowing empty_world audio_element audio_chunk)
    as (self' & frame1 & frame2 & Hchain & Hout & Hm1 & _ & Hp1 & Hm2 & _
        & _ & Hp2);
    [reflexivity | reflexivity | reflexivity | reflexivity | reflexivity
    | reflexivity | intros H; exact H | reflexivity | reflexivity
    | vm_compute; split; [discriminate | reflexivity]
    | left; reflexivity | intros l b; reflexivity |].
  exists self', frame1, frame2.
  split; [exact Hchain|]. split; [exact Hout|].
  split; [exact Hm1|]. split; [exact Hp1|]. split; [exact Hm2|].
  apply Hp2. vm_compute. reflexivity.
Defined.

Lemma depadding_gray8_width5_witness :
  remove_padding gray8_element = true
  ∧ frame_size gray8_element = 16
  ∧ gst_buffer_get_all_memory padded_frame = concat padded_rows
  ∧ ∃ ret self' frame,
      gst_tensor_converter_chain empty_world gray8_element padded_frame
      = Done (ret, self')
      ∧ pushed_buffers (pad_pushed (srcpad self')) = [frame]
      ∧ buffer_memory frame
        = [[x01; x02; x03; x04; x05; x06; x07; x08; x09; x0a]]
      ∧ gst_buffer_get_size frame = 10.
Proof.
  do 3 (split; [reflexivity|]).
  destruct (depadding_gray8_width5 empty_world gray8_element padded_frame
              padded_rows)
    as (ret & self' & frame & Hchain & Hmem & Hsize & Hout);
    [reflexivity | reflexivity | reflexivity | reflexivity | reflexivity
    | reflexivity | reflexivity | reflexivity | reflexivity
    | intros H; exact H | repeat constructor | reflexivity | reflexivity
    | reflexivity |].
  exists ret, self', frame.
  split; [exact Hchain|]. split; [exact Hout|]. split; [exact Hmem|exact Hsize].
Defined.

(** ** Octet streams in flexible format *)

Lemma upd_info0_leading config v :
  (0 < length (info (config_info config)))%nat →
  (0 < length (info_dimension
                 (gst_tensors_info_get_nth_info (config_info config) 0)))%nat →
  dim_get
    (info_dimension
       (gst_tensors_info_get_nth_info
          (config_info (upd_info0 (set_info_dimension 0 v) config)) 0)) 0
  = to_guint v.
Proof.
  intros Hinfo Hdim. unfold gst_tensors_info_get_nth_info at 1.
  cbn [upd_info0 upd_config_info set_config_info config_info upd_nth_info info].
  rewrite list_lookup_insert_eq; [|exact Hinfo].
  cbn [default from_option id set_info_dimension info_dimension].
  unfold dim_get. rewrite list_lookup_insert_eq; [reflexivity|exact Hdim].
Qed.

(** The flexible descriptor that the octet parser hands out. *)
Lemma placeholder_flexible n d :
  let config :=
    set_placeholder_info
      (upd_config_info (set_format _NNS_TENSOR_FORMAT_FLEXIBLE)
         (set_rate n d gst_tensors_config_init)) in
  format (config_info config) = _NNS_TENSOR_FORMAT_FLEXIBLE
  ∧ num_tensors (config_info config) = 1
  ∧ info_type (gst_tensors_info_get_nth_info (config_info config) 0)
    = _NNS_UINT8
  ∧ info_dimension (gst_tensors_info_get_nth_info (config_info config) 0)
    = dimension_of [1]
  ∧ length (info (config_info config)) = NNS_TENSOR_SIZE_LIMIT.
Proof. by repeat split. Qed.

(** Negotiation of an octet stream ends in flexible format only through the
    flexible branch of the octet parser. *)
Lemma parse_octet_flexible self structure self' config :
  format (tensors_info self) = _NNS_TENSOR_FORMAT_STATIC →
  gst_tensor_converter_parse_octet self structure = (true, self', config) →
  format (config_info config) = _NNS_TENSOR_FORMAT_FLEXIBLE →
  self' = self
  ∧ ¬ 1 < frames_per_tensor self
  ∧ ∃ n d, config = set_placeholder_info
                      (upd_config_info
                         (set_format _NNS_TENSOR_FORMAT_FLEXIBLE)
                         (set_rate n d gst_tensors_config_init)).
Proof.
  intros Hstatic. unfold gst_tensor_converter_parse_octet.
  set (rate := set_rate_from_structure structure gst_tensors_config_init).
  assert (Hrate : ∃ n d, rate = set_rate n d gst_tensors_config_init).
  { unfold rate, set_rate_from_structure.
    destruct (structure_framerate structure) as [[n d]|]; eauto. }
  destruct Hrate as (n & d & Hrate).
  destruct (gst_tensors_info_validate (tensors_info self)); cbn [negb].
  - destruct (_ && _); [intros [=]|]. cbn [andb].
    rewrite andb_false_r. intros [= <- <-].
    cbn [config_info set_config_info]. unfold gst_tensors_info_copy.
    rewrite Hstatic. intros [=].
  - unfold gst_tensors_config_from_peer.
    destruct (pad_peer_config (srcpad self)) as [[peer is_fixed]|];
      cbn [andb negb]; [|intros [=]].
    destruct (gst_tensors_config_is_flexible peer) eqn:Hflex;
      destruct (gst_tensors_info_validate (config_info peer)) eqn:Hconf;
      cbn [andb negb orb].
    + destruct (1 <? frames_per_tensor self) eqn:Hfpt; cbn [andb].
      * destruct (1 <? num_tensors _); intros [=].
      * intros [= <- <-] _. split; [reflexivity|].
        split; [by apply Z.ltb_nlt|]. exists n, d. by rewrite <- Hrate.
    + destruct (1 <? frames_per_tensor self) eqn:Hfpt; cbn [andb].
      * destruct (1 <? num_tensors _); intros [=].
      * intros [= <- <-] _. split; [reflexivity|].
        split; [by apply Z.ltb_nlt|]. exists n, d. by rewrite <- Hrate.
    + destruct (_ && _); [intros [=]|]. rewrite andb_false_r.
      intros [= <- <-]. cbn [config_info set_config_info].
      unfold gst_tensors_info_copy.
      unfold gst_tensors_config_is_flexible in Hflex.
      apply bool_decide_eq_false in Hflex. intros Hf. by destruct Hflex.
    + intros [=].
Qed.

(** When negotiation ends with a flexible descriptor for an octet stream,
    the invariant of flexible octet streams holds and the leading dimension
    is the placeholder 1. *)
Lemma negotiation_flexible_octet w b self caps self' :
  format (tensors_info self) = _NNS_TENSOR_FORMAT_STATIC →
  1 <= frames_per_tensor self →
  segment_ready self →
  gst_tensor_converter_parse_caps w b self caps = (true, self') →
  in_media_type self' = _NNS_OCTET →
  format (config_info (tensors_config self')) = _NNS_TENSOR_FORMAT_FLEXIBLE →
  flexible_octet self' ∧ leading_dimension self' = 1.
Proof.
  intros Hstatic Hfpt Hready. unfold gst_tensor_converter_parse_caps.
  destruct (gst_caps_is_fixed caps); cbn [negb]; [|intros [=]].
  destruct (if negb (bool_decide (mode self = _CONVERTER_MODE_NONE))
            then _NNS_MEDIA_ANY
            else gst_structure_get_media_type (gst_caps_get_structure caps)).
  all: try match goal with
           | |- context [video_support ?x] => destruct (video_support x)
           | |- context [audio_support ?x] => destruct (audio_support x)
           end.
  all: try (cbn [negb]; intros [=]; fail).
  all: try match goal with
           | |- context [gst_tensor_converter_parse_octet] => shelve
           end.
  all: try (match goal with
       | |- context [gst_tensor_converter_parse_custom ?x ?y ?z] =>
           destruct (gst_tensor_converter_parse_custom x y z)
             as [[ok sp] config]
       | |- context [gst_tensor_converter_parse_video ?x ?y ?z] =>
           destruct (gst_tensor_converter_parse_video x y z)
             as [[ok sp] config]
       | |- context [gst_tensor_converter_parse_audio ?x ?y] =>
           destruct (gst_tensor_converter_parse_audio x y)
             as [[ok sp] config]
       | |- context [gst_tensor_converter_parse_text ?x ?y] =>
           destruct (gst_tensor_converter_parse_text x y)
             as [[ok sp] config]
       | |- context [gst_tensor_converter_parse_tensor ?x ?y] =>
           destruct (gst_tensor_converter_parse_tensor x y)
             as [[ok sp] config]
       end;
       destruct ok; cbn [negb]; [|intros [=]];
       destruct (gst_tensors_config_validate _); cbn [negb]; [|intros [=]];
       destruct (_ && _); [intros [=]|]; intros [= <-];
       cbn [in_media_type set_tensors_config set_tensors_configured
            set_in_media_type]; intros [=]).
  Unshelve.
  { (* the octet parser *)
    destruct (gst_tensor_converter_parse_octet _ _) as [[ok sp] config] eqn:E.
    destruct ok; cbn [negb]; [|intros [=]].
    destruct (gst_tensors_config_validate config); cbn [negb]; [|intros [=]].
    destruct (_ && _); [intros [=]|]. intros [= <-].
    cbn [tensors_config set_tensors_config]. intros _ Hflex.
    destruct (parse_octet_flexible _ _ _ _ Hstatic E Hflex)
      as (-> & Hone & n & d & ->).
    pose proof (placeholder_flexible n d) as (Hf & Hn & _ & Hd & Hl).
    split; [|unfold leading_dimension, first_tensor;
             cbn [tensors_config set_tensors_config]; by rewrite Hd].
    unfold flexible_octet, first_tensor_allocated, first_tensor.
    cbn [tensors_configured in_media_type tensors_config frames_per_tensor
         set_tensors_config set_tensors_configured set_in_media_type].
    rewrite Hd, Hl. repeat split; try done; try lia;
      try (unfold NNS_TENSOR_SIZE_LIMIT; lia); try (cbn; lia). }
Qed.

(** What _gst_tensor_converter_chain_push sends for a single-tensor octet
    stream with one frame per tensor: the payload of the buffer in one
    block, behind its header when the pad carries the flexible format. *)
Lemma chain_push_octet_single self buf :
  in_media_type self = _NNS_OCTET →
  num_tensors (config_info (tensors_config self)) = 1 →
  frames_per_tensor self = 1 →
  0 < gst_buffer_get_size buf →
  ∃ frame,
    buffer_memory frame = [gst_buffer_get_all_memory buf]
    ∧ _gst_tensor_converter_chain_push self buf
      = Done (pad_peer_chain (srcpad self) (pad_pushed (srcpad self))
                             (outgoing_frame self frame),
              set_srcpad
                (gst_pad_push (srcpad self) (outgoing_frame self frame)).2 self).
Proof.
  intros Hmedia Hnum Hfpt Hsize.
  unfold _gst_tensor_converter_chain_push, _gst_tensor_converter_chain_octet.
  rewrite bool_decide_eq_true_2 by exact Hmedia. rewrite Hnum, Hfpt.
  cbn [Z.ltb Z.compare Pos.compare Pos.compare_cont orb].
  destruct (1 <? gst_buffer_n_memory buf) eqn:Hmems.
  - cbn [Z.eqb Pos.eqb g_assert mbind M_bind mret M_ret].
    eexists. split; [|reflexivity]. reflexivity.
  - cbn [mbind M_bind mret M_ret]. exists buf. split; [|reflexivity].
    unfold gst_buffer_n_memory in Hmems. apply Z.ltb_ge in Hmems.
    unfold gst_buffer_get_all_memory.
    unfold gst_buffer_get_size in Hsize.
    destruct (buffer_memory buf) as [|m [|m' l]];
      [cbn in Hsize; lia | cbn [concat]; by rewrite app_nil_r
      | cbn [length] in Hmems; lia].
Qed.

(** The header-prefixed form of a single-block frame under a descriptor of
    one tensor. *)
Lemma flex_tensor_single self frame payload :
  num_tensors (config_info (tensors_config self)) = 1 →
  in_media_type self = _NNS_OCTET →
  buffer_memory frame = [payload] →
  buffer_memory (_gst_tensor_converter_chain_flex_tensor self frame)
  = [meta_header_bytes
       (set_meta_media_type _NNS_OCTET
          (gst_tensor_info_convert_to_meta (first_tensor self)))
     ++ payload].
Proof.
  intros Hnum Hmedia Hmem. unfold _gst_tensor_converter_chain_flex_tensor.
  rewrite Hnum, Hmedia. unfold gst_tensor_buffer_get_nth_memory.
  rewrite Hmem. reflexivity.
Qed.

(** Every non-empty buffer of a flexible octet stream: the leading dimension
    of the descriptor becomes the size of the buffer before the buffer is
    sent, and the invariant is kept. *)
Lemma chain_flexible_octet w self buf :
  flexible_octet self →
  0 < gst_buffer_get_size buf →
  ∃ ret self' frame,
    gst_tensor_converter_chain w self buf = Done (ret, self')
    ∧ flexible_octet self'
    ∧ leading_dimension self' = to_guint (gst_buffer_get_size buf)
    ∧ buffer_memory frame = [gst_buffer_get_all_memory buf]
    ∧ pushed_buffers (pad_pushed (srcpad self'))
      = pushed_buffers (pad_pushed (srcpad self)) ++ [outgoing_frame self' frame]
    ∧ (negb (do_not_append_header self)
       && gst_tensor_pad_caps_is_flexible (srcpad self) = true →
       buffer_memory (outgoing_frame self' frame)
       = [meta_header_bytes
            (set_meta_media_type _NNS_OCTET
               (gst_tensor_info_convert_to_meta (first_tensor self')))
          ++ gst_buffer_get_all_memory buf]).
Proof.
  intros (Hconf & Hmedia & Hflex & Hnum & (Hinfo & Hdim) & Hfpt & Hready)
    Hsize.
  unfold gst_tensor_converter_chain.
  rewrite (proj2 (Z.ltb_lt 0 _)) by lia.
  rewrite Hconf, Hmedia. cbn [negb g_assert mbind M_bind].
  unfold chain_octet, gst_tensors_config_is_flexible.
  rewrite bool_decide_eq_true_2 by exact Hflex.
  cbn [mbind M_bind mret M_ret].
  set (config' := upd_info0 (set_info_dimension 0 (gst_buffer_get_size buf))
                            (tensors_config self)).
  set (self_a := set_tensors_config config' self).
  assert (Hlead : dim_get
                    (info_dimension
                       (gst_tensors_info_get_nth_info (config_info config') 0))
                    0 = to_guint (gst_buffer_get_size buf)).
  { unfold config'. by rewrite upd_info0_leading by assumption. }
  assert (Hnum' : num_tensors (config_info config') = 1) by exact Hnum.
  assert (Hflex' : format (config_info config') = _NNS_TENSOR_FORMAT_FLEXIBLE)
    by exact Hflex.
  assert (Halloc' : (0 < length (info (config_info config')))%nat
                    ∧ (0 < length
                             (info_dimension
                                (gst_tensors_info_get_nth_info
                                   (config_info config') 0)))%nat).
  { unfold config', gst_tensors_info_get_nth_info.
    cbn [upd_info0 upd_config_info set_config_info config_info
         upd_nth_info info].
    rewrite length_insert. split; [exact Hinfo|].
    rewrite list_lookup_insert_eq; [|exact Hinfo].
    cbn [default from_option id set_info_dimension info_dimension].
    rewrite length_insert. exact Hdim. }
  destruct (chain_segment_done self_a (gst_buffer_get_size buf) Hready)
    as (self1 & -> & Hneed1 & Hpushed & Hcaps & _ & Hcfg & Hmed & Hhdr
        & Hfpt1 & _ & _ & Hconf1 & _).
  cbn [mbind M_bind].
  pose proof (chain_timestamp_spec w self1 buf 1) as Hts.
  destruct (_gst_tensor_converter_chain_timestamp w self1 buf 1)
    as [self2 inbuf].
  destruct Hts as (-> & Hmem & _).
  rewrite Hfpt. cbn [Z.eqb Pos.eqb].
  set (self2 := set_old_timestamp (buffer_pts inbuf) self1).
  assert (Hall : gst_buffer_get_all_memory inbuf = gst_buffer_get_all_memory buf)
    by (unfold gst_buffer_get_all_memory; by rewrite Hmem).
  destruct (chain_push_octet_single self2 inbuf) as (frame & Hframe & ->).
  { unfold self2. cbn [in_media_type set_old_timestamp]. by rewrite Hmed. }
  { unfold self2. cbn [tensors_config set_old_timestamp]. by rewrite Hcfg. }
  { unfold self2. cbn [frames_per_tensor set_old_timestamp].
    by rewrite Hfpt1. }
  { rewrite gst_buffer_get_size_all_memory, Hall,
      <- gst_buffer_get_size_all_memory. lia. }
  rewrite Hall in Hframe.
  set (self' := set_srcpad _ self2).
  assert (Hcfg' : tensors_config self' = config')
    by (unfold self', self2; cbn [tensors_config set_srcpad set_old_timestamp];
        exact Hcfg).
  assert (Hmed' : in_media_type self' = _NNS_OCTET)
    by (unfold self', self2; cbn [in_media_type set_srcpad set_old_timestamp];
        by rewrite Hmed).
  assert (Hout : outgoing_frame self' frame = outgoing_frame self2 frame)
    by (apply outgoing_frame_ext; reflexivity).
  eexists _, self', frame. split; [reflexivity|].
  split; [|split; [|split; [exact Hframe|split]]].
  - unfold flexible_octet, first_tensor_allocated, first_tensor.
    rewrite Hcfg', Hmed'. unfold self', self2.
    cbn [tensors_configured frames_per_tensor set_srcpad set_old_timestamp].
    rewrite Hconf1, Hfpt1.
    repeat split; try assumption; try apply Halloc'.
    unfold segment_ready.
    cbn [need_segment have_segment set_srcpad set_old_timestamp].
    rewrite Hneed1. intros [=].
  - unfold leading_dimension, first_tensor. by rewrite Hcfg'.
  - rewrite Hout. unfold self'.
    cbn [srcpad set_srcpad gst_pad_push snd pad_pushed].
    rewrite pushed_buffers_app. unfold self2.
    cbn [srcpad set_old_timestamp]. by rewrite Hpushed.
  - intros Hheader. unfold outgoing_frame at 1.
    replace (negb (do_not_append_header self')
             && gst_tensor_pad_caps_is_flexible (srcpad self'))
      with true.
    + apply flex_tensor_single; [by rewrite Hcfg'|exact Hmed'|exact Hframe].
    + rewrite <- Hheader. unfold self', self2, gst_tensor_pad_caps_is_flexible.
      cbn [do_not_append_header srcpad set_srcpad set_old_timestamp
           gst_pad_push snd pad_current_caps].
      by rewrite Hhdr, Hcaps.
Qed.

(** C9: an octet stream negotiated in flexible format declares exactly one
    tensor, and on every data buffer that the chain function takes (an empty
    buffer is refused at once and changes nothing) the element writes the
    size of the buffer into the leading dimension of that tensor before it
    sends the buffer; so "one tensor, flexible" holds after negotiation and
    after every call of the chain function, and the leading dimension is the
    placeholder 1 after negotiation and the size of the payload after every
    buffer taken (as far as the 32-bit dimension can hold it). *)
Theorem flexible_octet_invariant :
  (∀ w b self caps self',
      format (tensors_info self) = _NNS_TENSOR_FORMAT_STATIC →
      1 <= frames_per_tensor self →
      segment_ready self →
      gst_tensor_converter_parse_caps w b self caps = (true, self') →
      in_media_type self' = _NNS_OCTET →
      format (config_info (tensors_config self'))
      = _NNS_TENSOR_FORMAT_FLEXIBLE →
      flexible_octet self' ∧ leading_dimension self' = 1)
  ∧ (∀ w self buf,
        flexible_octet self →
        ∃ ret self',
          gst_tensor_converter_chain w self buf = Done (ret, self')
          ∧ flexible_octet self'
          ∧ num_tensors (config_info (tensors_config self')) = 1
          ∧ (gst_buffer_get_size buf = 0 → ret = GST_FLOW_ERROR ∧ self' = self)
          ∧ (0 < gst_buffer_get_size buf →
             leading_dimension self' = to_guint (gst_buffer_get_size buf)
             ∧ (gst_buffer_get_size buf < 2 ^ 32 →
                leading_dimension self' = gst_buffer_get_size buf)
             ∧ ∃ frame,
                 buffer_memory frame = [gst_buffer_get_all_memory buf]
                 ∧ pushed_buffers (pad_pushed (srcpad self'))
                   = pushed_buffers (pad_pushed (srcpad self))
                     ++ [outgoing_frame self' frame]
                 ∧ (negb (do_not_append_header self)
                    && gst_tensor_pad_caps_is_flexible (srcpad self) = true →
                    buffer_memory (outgoing_frame self' frame)
                    = [meta_header_bytes
                         (set_meta_media_type _NNS_OCTET
                            (gst_tensor_info_convert_to_meta
                               (first_tensor self')))
                       ++ gst_buffer_get_all_memory buf]))).
Proof.
  split; [exact negotiation_flexible_octet|].
  intros w self buf Hinv.
  destruct (Z.eq_dec (gst_buffer_get_size buf) 0) as [Hzero|Hpos].
  - exists GST_FLOW_ERROR, self.
    split; [unfold gst_tensor_converter_chain; by rewrite Hzero|].
    split; [exact Hinv|]. split; [apply Hinv|]. split; [done|lia].
  - pose proof (gst_buffer_get_size_nonneg buf) as Hnonneg.
    destruct (chain_flexible_octet w self buf Hinv ltac:(lia))
      as (ret & self' & frame & Hchain & Hinv' & Hlead & Hframe & Hout & Hhdr).
    exists ret, self'. split; [exact Hchain|]. split; [exact Hinv'|].
    split; [apply Hinv'|]. split; [intros Hz; lia|]. intros _.
    split; [exact Hlead|]. split.
    + intros Hsmall. rewrite Hlead. apply to_guint_small. lia.
    + exists frame. by repeat split.
Qed.

Lemma flexible_octet_invariant_witness :
  flexible_octet octet_element
  ∧ leading_dimension octet_element = 1
  ∧ gst_buffer_get_size octet_buffer = 3
  ∧ ∃ ret self' frame,
      gst_tensor_converter_chain empty_world octet_element octet_buffer
      = Done (ret, self')
      ∧ flexible_octet self'
      ∧ leading_dimension self' = 3
      ∧ buffer_memory frame = [[x01; x02; x03]]
      ∧ pushed_buffers (pad_pushed (srcpad self')) = [outgoing_frame self' frame].
Proof.
  destruct flexible_octet_invariant as [Hneg Hstep].
  destruct (Hneg empty_world default_build
              (gst_tensor_converter_init
                 (linked_pad (Some (flexible_config, true))))
              octet_caps
              (gst_tensor_converter_parse_caps empty_world default_build
                 (gst_tensor_converter_init
                    (linked_pad (Some (flexible_config, true))))
                 octet_caps).2) as [Hinv Hlead];
    [reflexivity | vm_compute; discriminate | intros H; exact H
    | vm_compute; reflexivity | reflexivity | reflexivity |].
  assert (Hinv0 : flexible_octet octet_element).
  { destruct Hinv as (H1 & H2 & H3 & H4 & H5 & H6 & H7).
    repeat split; try reflexivity; try (vm_compute; lia). }
  split; [exact Hinv0|]. split; [reflexivity|]. split; [reflexivity|].
  destruct (Hstep empty_world octet_element octet_buffer Hinv0)
    as (ret & self' & Hchain & Hinv' & _ & _ & Hbuf).
  destruct Hbuf as (_ & Hlead' & frame & Hframe & Hout & _);
    [vm_compute; reflexivity|].
  exists ret, self', frame.
  split; [exact Hchain|]. split; [exact Hinv'|].
  split; [apply Hlead'; vm_compute; reflexivity|].
  split; [exact Hframe|exact Hout].
Defined.

(** * Further properties of the element *)

(** ** What a successful negotiation establishes *)

(** Case analysis on the result of the parser that parse_caps has called. *)
Ltac destruct_parser :=
  match goal with
  | |- context [gst_tensor_converter_parse_custom ?w ?s ?c] =>
      destruct (gst_tensor_converter_parse_custom w s c) as [[? ?] ?]
  | |- context [gst_tensor_converter_parse_video ?b ?s ?c] =>
      destruct (gst_tensor_converter_parse_video b s c) as [[? ?] ?]
  | |- context [gst_tensor_converter_parse_audio ?s ?c] =>
      destruct (gst_tensor_converter_parse_audio s c) as [[? ?] ?]
  | |- context [gst_tensor_converter_parse_text ?s ?c] =>
      destruct (gst_tensor_converter_parse_text s c) as [[? ?] ?]
  | |- context [gst_tensor_converter_parse_octet ?s ?c] =>
      destruct (gst_tensor_converter_parse_octet s c) as [[? ?] ?]
  | |- context [gst_tensor_converter_parse_tensor ?s ?c] =>
      destruct (gst_tensor_converter_parse_tensor s c) as [[? ?] ?]
  end.

Ltac destruct_ifs :=
  repeat match goal with
         | |- context [if ?c then _ else _] => destruct c; simpl
         end.




(** ** Frames per tensor *)

(** X2: negotiation writes the frames-per-tensor property into the frames
    dimension of the descriptor: dimension 3 for video, dimension 1 for
    audio and text. *)
Theorem frames_per_tensor_in_dimension w b self caps self' :
  mode self = _CONVERTER_MODE_NONE →
  gst_tensor_converter_parse_caps w b self caps = (true, self') →
  let dims := info_dimension (first_tensor self') in
  frames_per_tensor self' = frames_per_tensor self
  ∧ match gst_structure_get_media_type (gst_caps_get_structure caps) with
    | _NNS_VIDEO => dim_get dims 3 = to_guint (frames_per_tensor self)
    | _NNS_AUDIO | _NNS_TEXT =>
        dim_get dims 1 = to_guint (frames_per_tensor self)
    | _ => True
    end.
Proof.
  intros Hmode Hparse. cbv zeta. split.
  { apply parse_caps_inv in Hparse as (sp & Hframe & config & in_type & -> & _).
    cbn. rewrite Hframe. by destruct self. }
  revert Hparse. unfold gst_tensor_converter_parse_caps, first_tensor.
  rewrite Hmode. destruct (gst_caps_is_fixed caps); simpl; [|intros [=]].
  destruct (gst_structure_get_media_type _); try exact (fun _ => I).
  - destruct (video_support b); simpl; [|intros [=]].
    unfold gst_tensor_converter_parse_video.
    destruct (gst_video_info_from_caps caps) as [[f wd ht vw fn fd sz]|];
      simpl; [|intros [=]].
    destruct f, (gst_check_version_1_20 b);
      destruct (gst_tensor_converter_video_stride _ _ _); cbn -[to_guint];
      destruct_ifs; intros [= <-] || intros [=]; reflexivity.
  - destruct (audio_support b); simpl; [|intros [=]].
    unfold gst_tensor_converter_parse_audio.
    destruct (gst_audio_info_from_caps caps) as [[f ch rt bpf]|];
      simpl; [|intros [=]].
    destruct f; cbn -[to_guint]; destruct_ifs;
      intros [= <-] || intros [=]; reflexivity.
  - unfold gst_tensor_converter_parse_text.
    destruct (_ =? 0); simpl; [intros [=]|].
    unfold set_rate_from_structure.
    destruct (structure_framerate _) as [[n d]|];
      (destruct (structure_format _) as [fs|]; simpl;
       [destruct (g_ascii_strcaseeq fs _); simpl; [|intros [=]]|]);
      cbn -[to_guint]; destruct_ifs; intros [= <-] || intros [=]; reflexivity.
Qed.

Lemma frames_per_tensor_in_dimension_witness :
  let self' :=
    (gst_tensor_converter_parse_caps empty_world default_build
       (set_frames_per_tensor 2 fresh_element) audio_caps).2 in
  dim_get (info_dimension (first_tensor self')) 1 = 2.
Proof.
  cbv zeta.
  destruct (frames_per_tensor_in_dimension empty_world default_build
              (set_frames_per_tensor 2 fresh_element) audio_caps
              (gst_tensor_converter_parse_caps empty_world default_build
                 (set_frames_per_tensor 2 fresh_element) audio_caps).2)
    as [_ H]; [reflexivity | vm_compute; reflexivity |].
  exact H.
Defined.

(** ** The audio parser *)

(** X3: for every audio capability the audio parser sets the frame size to
    the bytes per frame of the stream and derives one tensor of dimension
    [channels, 1] at the rate sample-rate/1, whose element type is that of
    the sample format; it accepts the capability exactly when the sample
    format has an element type. *)
Theorem parse_audio_descriptor self caps ainfo :
  gst_audio_info_from_caps caps = Some ainfo →
  0 <= ainfo_channels ainfo < 2 ^ 32 →
  let '(ok, self', config) := gst_tensor_converter_parse_audio self caps in
  let info0 := gst_tensors_info_get_nth_info (config_info config) 0 in
  ok = negb (bool_decide
               (audio_format_tensor_type (ainfo_format ainfo) = _NNS_END))
  ∧ self' = set_frame_size (ainfo_bpf ainfo) self
  ∧ num_tensors (config_info config) = 1
  ∧ info_type info0 = audio_format_tensor_type (ainfo_format ainfo)
  ∧ info_dimension info0 = dimension_of [ainfo_channels ainfo; 1]
  ∧ rate_n config = ainfo_rate ainfo
  ∧ rate_d config = 1.
Proof.
  intros Hai Hch. unfold gst_tensor_converter_parse_audio. rewrite Hai.
  destruct ainfo as [f ch rt bpf]. cbn [ainfo_format ainfo_channels ainfo_rate
    ainfo_bpf] in *.
  destruct f; cbn -[to_guint]; rewrite (to_guint_small ch) by lia; done.
Qed.

Lemma parse_audio_descriptor_witness :
  let '(ok, self', config) :=
    gst_tensor_converter_parse_audio fresh_element audio_caps in
  ok = true ∧ frame_size self' = 2
  ∧ info_type (gst_tensors_info_get_nth_info (config_info config) 0)
    = _NNS_INT16
  ∧ info_dimension (gst_tensors_info_get_nth_info (config_info config) 0)
    = dimension_of [1; 1].
Proof.
  pose proof (parse_audio_descriptor fresh_element audio_caps
                {| ainfo_format := GST_AUDIO_FORMAT_S16; ainfo_channels := 1;
                   ainfo_rate := 1000; ainfo_bpf := 2 |}
                eq_refl ltac:(simpl; lia)) as H.
  destruct (gst_tensor_converter_parse_audio fresh_element audio_caps)
    as [[ok self'] config].
  destruct H as (-> & -> & _ & Ht & Hd & _).
  split; [reflexivity|]. split; [reflexivity|]. split; [exact Ht|exact Hd].
Defined.

(** ** The text parser *)

(** X4: a text capability is accepted exactly when input-dim gives the size
    of the strings and the capability names the format utf8, in any letter
    case; a capability without a format is refused.  When it is accepted the
    descriptor is one uint8 tensor of dimension [size, 1] and the frame size
    is that size. *)
Theorem parse_text_accepts self structure :
  let text_size :=
    dim_get (info_dimension
               (gst_tensors_info_get_nth_info (tensors_info self) 0)) 0 in
  0 <= text_size < 2 ^ 32 →
  let '(ok, self', config) :=
    gst_tensor_converter_parse_text self structure in
  let info0 := gst_tensors_info_get_nth_info (config_info config) 0 in
  (ok = true ↔
   text_size ≠ 0
   ∧ ∃ f, structure_format structure = Some f
          ∧ g_ascii_strcaseeq f "utf8" = true)
  ∧ (ok = true →
     num_tensors (config_info config) = 1
     ∧ info_type info0 = _NNS_UINT8
     ∧ info_dimension info0 = dimension_of [text_size; 1]
     ∧ self' = set_frame_size text_size self).
Proof.
  cbv zeta. intros Hsize. unfold gst_tensor_converter_parse_text.
  set (text_size := dim_get _ 0) in *.
  destruct (text_size =? 0) eqn:Hz.
  { apply Z.eqb_eq in Hz. split; [|intros [=]].
    split; [intros [=]|]. intros [Hne _]. by destruct Hne. }
  apply Z.eqb_neq in Hz. unfold set_rate_from_structure.
  destruct (structure_format structure) as [f|].
  - destruct (g_ascii_strcaseeq f "utf8") eqn:Hf.
    + assert (Hrank : (text_size =? 0) = false) by (by apply Z.eqb_neq).
      split; [split; [intros _; split; [exact Hz|by exists f]|]|].
      { by destruct (structure_framerate structure) as [[n d]|]. }
      intros _.
      destruct (structure_framerate structure) as [[n d]|];
        cbn -[to_guint to_guint64]; rewrite (to_guint_small text_size) by lia.
      all: repeat split.
      all: unfold gst_tensor_info_get_size, gst_tensor_get_element_count.
      all: cbn -[to_guint to_guint64].
      all: rewrite ?(to_guint_small text_size) by lia.
      all: rewrite ?Hrank.
      all: change (to_guint 1) with 1; change (to_guint 0) with 0.
      all: cbn -[to_guint64].
      all: replace (text_size * (1 * 1)) with text_size by lia.
      all: rewrite (to_guint64_small text_size) by lia.
      all: replace (1 * text_size) with text_size by lia.
      all: by rewrite (to_guint64_small text_size) by lia.
    + split; [|intros [=]]. split; [intros [=]|].
      intros (_ & f' & [= <-] & Hf'). congruence.
  - destruct (structure_framerate structure) as [[n d]|]; cbn;
      (split; [|intros [=]]); (split; [intros [=]|]);
      intros (_ & f' & [=] & _).
Qed.

Lemma parse_text_accepts_witness :
  let self :=
    set_tensors_info (declared_info [declared_tensor _NNS_END [30]])
                     fresh_element in
  let utf8 := {| structure_name := "text/x-raw";
                 structure_format := Some "UTF8";
                 structure_framerate := None |} in
  let plain := {| structure_name := "text/x-raw";
                  structure_format := None;
                  structure_framerate := None |} in
  (gst_tensor_converter_parse_text self utf8).1.1 = true
  ∧ frame_size (gst_tensor_converter_parse_text self utf8).1.2 = 30
  ∧ (gst_tensor_converter_parse_text self plain).1.1 = false.
Proof.
  cbv zeta.
  pose proof (parse_text_accepts
                (set_tensors_info (declared_info [declared_tensor _NNS_END [30]])
                                  fresh_element)
                {| structure_name := "text/x-raw";
                   structure_format := Some "UTF8";
                   structure_framerate := None |}
                ltac:(vm_compute; split; [discriminate|reflexivity])) as H.
  destruct (gst_tensor_converter_parse_text _ _) as [[ok self'] config].
  destruct H as [Hok Hdesc].
  assert (ok = true) as ->.
  { apply Hok. split; [vm_compute; discriminate|]. by eexists. }
  destruct (Hdesc eq_refl) as (_ & _ & _ & ->).
  split; [reflexivity|]. split; reflexivity.
Defined.

(** ** Flexible tensor input *)



(** ** Octet streams *)






(** ** The video parser: what it accepts and the depadding flag *)

(** X8: the video parser accepts a capability exactly when its pixel format
    is one of the supported ones and, for the planar formats RGBP and BGRP,
    the width is a multiple of 4; and it only ever sets the depadding flag:
    after the parser the flag is set if it was set before or if the rows of
    the format are padded at this width. *)
Theorem parse_video_accepts b self caps :
  let '(ok, self', _) := gst_tensor_converter_parse_video b self caps in
  match gst_video_info_from_caps caps with
  | None => ok = false ∧ self' = self
  | Some vinfo =>
      let f := vinfo_format vinfo in
      let unaligned := negb (c_rem (vinfo_width vinfo) 4 =? 0) in
      ok = video_format_supported b f
           && negb (video_format_is_planar f && unaligned)
      ∧ remove_padding self'
        = remove_padding self
          || gst_tensor_converter_video_stride b f (vinfo_width vinfo)
  end.
Proof.
  unfold gst_tensor_converter_parse_video.
  destruct (gst_video_info_from_caps caps) as [[f wd ht vw fn fd sz]|];
    [|done].
  cbn [vinfo_format vinfo_width vinfo_height vinfo_fps_n vinfo_fps_d
       vinfo_size].
  unfold gst_tensor_converter_video_stride, video_format_supported.
  destruct f, (gst_check_version_1_20 b), (c_rem wd 4 =? 0);
    cbn; repeat case_bool_decide; try discriminate; try congruence;
    cbn; by rewrite ?orb_true_r, ?orb_false_r.
Qed.

Lemma parser_keeps_remove_padding w b s caps :
  remove_padding s = true →
  remove_padding (gst_tensor_converter_parse_caps w b s caps).2 = true.
Proof.
  intros Hflag.
  assert (Hvideo : remove_padding
                     (gst_tensor_converter_parse_video b s caps).1.2 = true).
  { unfold gst_tensor_converter_parse_video.
    destruct (gst_video_info_from_caps caps) as [vinfo|]; [|exact Hflag].
    destruct (gst_tensor_converter_video_stride _ _ _); [|exact Hflag].
    by destruct (_ && _). }
  assert (Hother : ∀ sp, parser_frame s sp →
                         remove_padding sp = remove_padding s →
                         remove_padding sp = true) by (intros; congruence).
  assert (Haudio : remove_padding
                     (gst_tensor_converter_parse_audio s caps).1.2 = true).
  { unfold gst_tensor_converter_parse_audio.
    by destruct (gst_audio_info_from_caps caps). }
  assert (Htext : ∀ st, remove_padding
                          (gst_tensor_converter_parse_text s st).1.2 = true).
  { intros st. unfold gst_tensor_converter_parse_text.
    destruct (_ =? 0); [done|].
    destruct (structure_format st) as [f|]; [|done].
    by destruct (g_ascii_strcaseeq f _). }
  assert (Hoctet : ∀ st, remove_padding
                           (gst_tensor_converter_parse_octet s st).1.2 = true).
  { intros st. unfold gst_tensor_converter_parse_octet.
    destruct (gst_tensors_config_from_peer (srcpad s)) as [[ok peer] fx].
    destruct (gst_tensors_info_validate (tensors_info s)); simpl;
      destruct_ifs; done. }
  assert (Htensor : ∀ st, remove_padding
                            (gst_tensor_converter_parse_tensor s st).1.2
                          = true).
  { intros st. unfold gst_tensor_converter_parse_tensor. destruct_ifs; done. }
  assert (Hcustom : remove_padding
                      (gst_tensor_converter_parse_custom w s caps).1.2 = true).
  { unfold gst_tensor_converter_parse_custom.
    destruct (gst_tensors_config_from_peer (srcpad s)) as [[ok peer] fx].
    repeat match goal with
           | |- context [if ?c then _ else _] => destruct c; simpl
           | |- context [match ?c with Some _ => _ | None => _ end] =>
               destruct c; simpl
           | |- context [match ?c with (_, _) => _ end] => destruct c; simpl
           end; done. }
  unfold gst_tensor_converter_parse_caps.
  destruct (gst_caps_is_fixed caps); simpl; [|exact Hflag].
  specialize (Htext (gst_caps_get_structure caps)).
  specialize (Hoctet (gst_caps_get_structure caps)).
  specialize (Htensor (gst_caps_get_structure caps)).
  destruct (if negb (bool_decide (mode s = _CONVERTER_MODE_NONE))
            then _NNS_MEDIA_ANY
            else gst_structure_get_media_type (gst_caps_get_structure caps));
    try destruct (video_support b); try destruct (audio_support b);
    try destruct_parser; simpl in *; destruct_ifs; done.
Qed.

(** X9: no event on the sink pad clears the depadding flag: once a video
    capability whose rows are padded has been seen, the flag stays set
    through every later capability, flush and segment event. *)
Theorem remove_padding_is_never_cleared w b self event :
  remove_padding self = true →
  remove_padding (gst_tensor_converter_sink_event w b self event).2 = true.
Proof.
  intros Hflag. destruct event as [caps| |seg]; simpl.
  - pose proof (parser_keeps_remove_padding w b self caps Hflag) as H.
    destruct (gst_tensor_converter_parse_caps w b self caps) as [[] sp];
      simpl in *; [|exact H].
    unfold gst_tensor_converter_update_caps.
    destruct (gst_pad_get_current_caps _); [destruct (negb _)|]; exact H.
  - exact Hflag.
  - by destruct (segment_format seg).
Qed.

Lemma remove_padding_is_never_cleared_witness :
  remove_padding gray8_element = true
  ∧ (gst_tensor_converter_sink_event empty_world default_build gray8_element
       (GST_EVENT_CAPS (video_caps GST_VIDEO_FORMAT_GRAY8 8 2 16))).1 = true
  ∧ remove_padding
      (gst_tensor_converter_sink_event empty_world default_build gray8_element
         (GST_EVENT_CAPS (video_caps GST_VIDEO_FORMAT_GRAY8 8 2 16))).2
    = true.
Proof.
  split; [reflexivity|]. split; [reflexivity|].
  apply remove_padding_is_never_cleared. reflexivity.
Defined.

(** X10: a video element whose depadding flag is set aborts on every
    non-empty buffer once the rows of the negotiated frame are a multiple of
    4 bytes long: the chain function runs into one of its assertions, at the
    latest the one on the row size in the depadding branch. *)
Theorem depadding_asserts_unaligned_rows w self buf :
  let info0 :=
    gst_tensors_info_get_nth_info (config_info (tensors_config self)) 0 in
  let row :=
    to_guint64 (gst_tensor_get_element_size (info_type info0)
                * dim_get (info_dimension info0) 0
                * dim_get (info_dimension info0) 1) in
  in_media_type self = _NNS_VIDEO →
  remove_padding self = true →
  row mod 4 = 0 →
  0 < gst_buffer_get_size buf →
  gst_tensor_converter_chain w self buf = Abort.
Proof.
  cbv zeta. intros Hmedia Hflag Hrow Hsize.
  unfold gst_tensor_converter_chain.
  rewrite (proj2 (Z.ltb_lt 0 _)) by lia. cbn [negb].
  destruct (tensors_configured self); [|reflexivity].
  rewrite Hmedia. cbn [g_assert mbind M_bind]. unfold chain_video.
  destruct (frame_size self =? 0); [reflexivity|]. cbn [negb g_assert mbind M_bind].
  destruct (gst_buffer_get_size buf / frame_size self =? 1); [|reflexivity].
  cbn [g_assert mbind M_bind]. rewrite Hflag, Hrow. reflexivity.
Qed.

Lemma depadding_asserts_unaligned_rows_witness :
  let self :=
    (gst_tensor_converter_sink_event empty_world default_build gray8_element
       (GST_EVENT_CAPS (video_caps GST_VIDEO_FORMAT_GRAY8 8 2 16))).2 in
  tensors_configured self = true
  ∧ remove_padding self = true
  ∧ frame_size self = 16
  ∧ gst_buffer_get_size padded_frame = 16
  ∧ gst_tensor_converter_chain empty_world self padded_frame = Abort.
Proof.
  cbv zeta. do 4 (split; [reflexivity|]).
  apply depadding_asserts_unaligned_rows;
    [reflexivity | reflexivity | reflexivity | reflexivity].
Defined.

(** ** The tail of the chain function for one frame *)

(** When the buffer holds as many frames as a tensor takes, the chain
    function sends the pending segment, stamps the buffer and pushes it. *)
Lemma chain_tail_single w self inbuf fsize frames_in :
  segment_ready self →
  in_media_type self ≠ _NNS_OCTET →
  ∃ frame,
    (self1 ← _gst_tensor_converter_chain_segment self fsize;
     let '(self2, inbuf2) :=
       _gst_tensor_converter_chain_timestamp w self1 inbuf frames_in in
     _gst_tensor_converter_chain_push self2 inbuf2)
    = Done (pad_peer_chain (srcpad self)
              (pad_pushed (srcpad self) ++ pending_segment self fsize)
              (outgoing_frame self frame),
            set_srcpad
              {| pad_current_caps := pad_current_caps (srcpad self);
                 pad_peer_config := pad_peer_config (srcpad self);
                 pad_peer_chain := pad_peer_chain (srcpad self);
                 pad_pushed :=
                   (pad_pushed (srcpad self) ++ pending_segment self fsize)
                   ++ [pushed_buffer (outgoing_frame self frame)] |}
              (set_old_timestamp (buffer_pts frame)
                 (set_need_segment false
                    (if need_segment self
                     then set_segment
                            match pending_segment self fsize with
                            | [pushed_segment seg] => seg
                            | _ => segment self
                            end self
                     else self))))
    ∧ buffer_memory frame = buffer_memory inbuf
    ∧ buffer_meta_query frame = buffer_meta_query inbuf
    ∧ (GST_CLOCK_TIME_IS_VALID (buffer_pts inbuf) = true →
       buffer_pts frame = buffer_pts inbuf).
Proof.
  intros Hready Hmedia.
  unfold _gst_tensor_converter_chain_segment, pending_segment.
  destruct (need_segment self) eqn:Hneed.
  - rewrite (Hready Hneed). cbn [g_assert mbind M_bind mret M_ret].
    match goal with
    | |- context [gst_pad_push_segment _ ?s] => generalize s; intros seg
    end.
    match goal with
    | |- context [_gst_tensor_converter_chain_timestamp w ?s1 inbuf frames_in] =>
        pose proof (chain_timestamp_spec w s1 inbuf frames_in) as Hts;
        destruct (_gst_tensor_converter_chain_timestamp w s1 inbuf frames_in)
          as [self2 frame]
    end.
    destruct Hts as (-> & Hmem & Hmeta & _ & Hpts).
    exists frame. split; [|by repeat split].
    rewrite chain_push_not_octet by (by destruct self).
    f_equal.
  - cbn [mbind M_bind mret M_ret].
    pose proof (chain_timestamp_spec w self inbuf frames_in) as Hts.
    destruct (_gst_tensor_converter_chain_timestamp w self inbuf frames_in)
      as [self2 frame].
    destruct Hts as (-> & Hmem & Hmeta & _ & Hpts).
    exists frame. split; [|by repeat split].
    rewrite chain_push_not_octet by (by destruct self).
    rewrite app_nil_r.
    assert (Hout : outgoing_frame (set_old_timestamp (buffer_pts frame) self)
                                  frame
                   = outgoing_frame self frame)
      by (apply outgoing_frame_ext; by destruct self).
    rewrite Hout. destruct self. cbn in *. by rewrite Hneed.
Qed.

Lemma pushed_buffers_pending_segment self fsize :
  pushed_buffers (pending_segment self fsize) = [].
Proof. unfold pending_segment. by destruct (need_segment self). Qed.

(** ** Text frames *)

(** X11: every text buffer leaves the element as a frame of exactly the
    configured size: a shorter string is followed by zero bytes, a longer
    one is cut, and one of the right size goes through as it is. *)
Theorem text_frames_have_fixed_size w self buf :
  tensors_configured self = true →
  in_media_type self = _NNS_TEXT →
  frames_per_tensor self = 1 →
  segment_ready self →
  0 < gst_buffer_get_size buf →
  0 <= frame_size self →
  ∃ ret self' frame,
    gst_tensor_converter_chain w self buf = Done (ret, self')
    ∧ gst_buffer_get_all_memory frame
      = take (Z.to_nat (frame_size self))
             (gst_buffer_get_all_memory buf
              ++ replicate (Z.to_nat (frame_size self)) x00)
    ∧ gst_buffer_get_size frame = frame_size self
    ∧ pushed_buffers (pad_pushed (srcpad self'))
      = pushed_buffers (pad_pushed (srcpad self)) ++ [outgoing_frame self frame].
Proof.
  intros Hconf Hmedia Hfpt Hready Hsize Hfs.
  pose proof (gst_buffer_get_size_all_memory buf) as Hlen.
  set (data := gst_buffer_get_all_memory buf) in *.
  set (fs := frame_size self) in *.
  assert (Hmem : ∃ inbuf,
             chain_text self buf (gst_buffer_get_size buf) 1
             = Done (chain_next self inbuf fs 1)
             ∧ gst_buffer_get_all_memory inbuf
               = take (Z.to_nat fs) (data ++ replicate (Z.to_nat fs) x00)).
  { unfold chain_text. fold fs.
    destruct (gst_buffer_get_size buf =? fs) eqn:Heq; cbn [negb].
    - apply Z.eqb_eq in Heq. exists buf. split; [reflexivity|]. fold data.
      rewrite take_app_le, take_ge by lia. reflexivity.
    - apply Z.eqb_neq in Heq. unfold memcpy, gst_buffer_new_zeroed.
      fold data. cbn [gst_buffer_get_all_memory buffer_memory set_buffer_memory
        concat gst_buffer_new]. rewrite !app_nil_r, length_replicate.
      rewrite (proj2 (Z.leb_le _ _)) by lia.
      rewrite (proj2 (Z.leb_le _ _)) by lia.
      cbn [andb mbind M_bind mret M_ret].
      eexists. split; [reflexivity|].
      cbn [gst_buffer_get_all_memory buffer_memory gst_buffer_copy_metadata
        set_buffer_memory concat]. rewrite ?app_nil_r. cbn [Z.to_nat take drop].
      rewrite drop_replicate. change (Z.to_nat 0) with 0%nat.
      rewrite Z.add_0_l, take_0, drop_0, app_nil_l.
      destruct (Z.le_gt_cases fs (gst_buffer_get_size buf)) as [Hle|Hgt].
      + rewrite Z.min_r by lia.
        replace (Z.to_nat fs - Z.to_nat fs)%nat with 0%nat by lia.
        rewrite take_app_le by lia. cbn. by rewrite app_nil_r.
      + rewrite Z.min_l by lia.
        rewrite (take_ge data) by lia.
        rewrite take_app_ge by lia. rewrite take_replicate. do 2 f_equal. lia. }
  destruct Hmem as (inbuf & Htext & Hdata).
  unfold gst_tensor_converter_chain.
  rewrite (proj2 (Z.ltb_lt 0 _)) by lia.
  rewrite Hconf, Hmedia. cbn [negb g_assert mbind M_bind].
  rewrite Htext. cbn [mbind M_bind]. rewrite Hfpt. cbn [Z.eqb Pos.eqb].
  destruct (chain_tail_single w self inbuf fs 1 Hready)
    as (frame & Htail & Hmem & _); [rewrite Hmedia; discriminate|].
  eexists _, _, frame. split; [exact Htail|].
  assert (Hall : gst_buffer_get_all_memory frame
                 = take (Z.to_nat fs) (data ++ replicate (Z.to_nat fs) x00))
    by (unfold gst_buffer_get_all_memory in *; by rewrite Hmem).
  split; [exact Hall|]. split.
  - rewrite gst_buffer_get_size_all_memory, Hall, length_take, length_app,
      length_replicate. lia.
  - cbn [srcpad set_srcpad pad_pushed].
    by rewrite !pushed_buffers_app, pushed_buffers_pending_segment, app_nil_r.
Qed.

Lemma text_frames_have_fixed_size_witness :
  let self :=
    (gst_tensor_converter_sink_event empty_world default_build
       (set_tensors_info (declared_info [declared_tensor _NNS_END [4]])
                         fresh_element)
       (GST_EVENT_CAPS
          {| caps_structure :=
               {| structure_name := "text/x-raw";
                  structure_format := Some "utf8";
                  structure_framerate := None |};
             caps_is_fixed := true; caps_video_info := None;
             caps_audio_info := None |})).2 in
  frame_size self = 4
  ∧ ∃ ret self' frame,
      gst_tensor_converter_chain empty_world self (buffer_of [[x61; x62]] 0)
      = Done (ret, self')
      ∧ gst_buffer_get_all_memory frame = [x61; x62; x00; x00]
      ∧ pushed_buffers (pad_pushed (srcpad self')) = [frame].
Proof.
  cbv zeta. split; [reflexivity|].
  match goal with
  | |- ∃ ret self' frame, gst_tensor_converter_chain ?w ?s ?b = _ ∧ _ =>
      destruct (text_frames_have_fixed_size w s b)
        as (ret & self' & frame & Hchain & Hdata & _ & Hout);
        [reflexivity | reflexivity | reflexivity | intros H; exact H
        | reflexivity | vm_compute; discriminate |]
  end.
  exists ret, self', frame.
  split; [exact Hchain|]. split; [exact Hdata|exact Hout].
Defined.

(** ** The adapter as a byte queue *)

Lemma queue_size_bytes q :
  queue_size q
  = Z.of_nat (length (concat (map gst_buffer_get_all_memory q))).
Proof.
  unfold queue_size. induction q as [|b q IH]; [reflexivity|].
  cbn [map foldr concat]. rewrite length_app, IH.
  rewrite gst_buffer_get_size_all_memory. lia.
Qed.

Lemma queue_size_app q1 q2 :
  queue_size (q1 ++ q2) = queue_size q1 + queue_size q2.
Proof.
  unfold queue_size. induction q1 as [|b q1 IH]; [reflexivity|].
  cbn [app map foldr]. rewrite IH. lia.
Qed.

Lemma queue_size_nonneg q : 0 <= queue_size q.
Proof. rewrite queue_size_bytes. lia. Qed.

Lemma adapter_wf_new : adapter_wf gst_adapter_new.
Proof. unfold adapter_wf. cbn. lia. Qed.

Lemma flush_whole_bytes q flush a :
  0 <= flush →
  drop (Z.to_nat (flush_whole q flush a).2)
       (concat (map gst_buffer_get_all_memory (queue (flush_whole q flush a).1)))
  = drop (Z.to_nat flush) (concat (map gst_buffer_get_all_memory q))
  ∧ 0 <= (flush_whole q flush a).2.
Proof.
  revert flush a. induction q as [|cur q IH]; intros flush a Hflush.
  { by split. }
  cbn [flush_whole].
  destruct (gst_buffer_get_size cur <=? flush) eqn:Hle; [|by split].
  apply Z.leb_le in Hle.
  pose proof (gst_buffer_get_size_all_memory cur) as Hcur.
  pose proof (gst_buffer_get_size_nonneg cur) as Hpos.
  destruct q as [|next q'].
  - cbn [fst snd queue set_queue map concat]. rewrite app_nil_r.
    rewrite (drop_ge (gst_buffer_get_all_memory cur)) by lia.
    split; [by rewrite drop_nil|lia].
  - destruct (IH (flush - gst_buffer_get_size cur)
                (update_timestamps (add_distance (gst_buffer_get_size cur) a)
                                   next)) as [Hbytes Hrest]; [lia|].
    split; [|exact Hrest]. rewrite Hbytes.
    change (concat (map gst_buffer_get_all_memory (cur :: next :: q')))
      with (gst_buffer_get_all_memory cur
            ++ concat (map gst_buffer_get_all_memory (next :: q'))).
    rewrite drop_app_ge by lia. f_equal. lia.
Qed.

(** Flushing n bytes drops them from the front of what the adapter holds. *)
Lemma gst_adapter_flush_unchecked_bytes a n :
  adapter_wf a → 0 <= n <= gst_adapter_available a →
  adapter_bytes (gst_adapter_flush_unchecked a n)
  = drop (Z.to_nat n) (adapter_bytes a)
  ∧ adapter_wf (gst_adapter_flush_unchecked a n).
Proof.
  intros [Hskip Hheld] Hn.
  pose proof (gst_adapter_flush_unchecked_available a n) as Havail.
  unfold adapter_bytes, adapter_wf, gst_adapter_available in *.
  unfold gst_adapter_flush_unchecked in *.
  pose proof (flush_whole_bytes (queue (add_distance (- skip a) a))
                (n + skip a) (add_distance (- skip a) a)) as Hbytes.
  destruct (flush_whole _ _ _) as [a' rest]. cbn in Hbytes, Havail |- *.
  destruct Hbytes as [Hbytes Hrest]; [lia|].
  split; [|lia]. rewrite Hbytes, drop_drop. f_equal. lia.
Qed.

(** Pushing a buffer appends its bytes. *)
Lemma gst_adapter_push_bytes a b :
  adapter_wf a →
  adapter_bytes (gst_adapter_push a b)
  = adapter_bytes a ++ gst_buffer_get_all_memory b
  ∧ adapter_wf (gst_adapter_push a b)
  ∧ gst_adapter_available (gst_adapter_push a b)
    = gst_adapter_available a + gst_buffer_get_size b.
Proof.
  intros [Hskip Hheld].
  pose proof (gst_buffer_get_size_nonneg b) as Hb.
  unfold gst_adapter_push, adapter_bytes, adapter_wf, gst_adapter_available
    in *.
  destruct (queue a) as [|hd q] eqn:Hq.
  - cbn in Hheld |- *. assert (skip a = 0) as -> by lia.
    cbn. rewrite app_nil_r. unfold queue_size. cbn. repeat split; lia.
  - cbn [queue set_queue skip].
    assert (Hsize : queue_size ((hd :: q) ++ [b])
                    = queue_size (hd :: q) + gst_buffer_get_size b).
    { rewrite queue_size_app. unfold queue_size. cbn. lia. }
    rewrite Hsize. split; [|lia].
    rewrite map_app, concat_app. cbn [map concat]. rewrite app_nil_r.
    rewrite drop_app_le; [reflexivity|].
    rewrite queue_size_bytes in Hheld. cbn [map concat] in Hheld. lia.
Qed.

(** Taking a buffer gives the first nbytes bytes and leaves the rest. *)
Lemma gst_adapter_take_buffer_bytes a n outbuf a' :
  adapter_wf a →
  gst_adapter_take_buffer a n = Some (outbuf, a') →
  ∃ m, buffer_memory outbuf = [m]
       ∧ Z.of_nat (length m) = n
       ∧ adapter_bytes a = m ++ adapter_bytes a'
       ∧ adapter_wf a'.
Proof.
  intros Hwf Htake.
  destruct (gst_adapter_take_buffer_available _ _ _ _ Htake) as [Hn _].
  unfold gst_adapter_take_buffer in Htake.
  destruct ((n <=? 0) || (gst_adapter_available a <? n)); [discriminate|].
  injection Htake as <- <-.
  destruct (gst_adapter_flush_unchecked_bytes a n Hwf) as [Hbytes Hwf'];
    [lia|].
  eexists. split; [reflexivity|].
  assert (Hlen : Z.of_nat (length (adapter_bytes a)) = gst_adapter_available a).
  { destruct Hwf as [Hskip Hheld]. unfold adapter_bytes, gst_adapter_available.
    rewrite length_drop, queue_size_bytes in *. lia. }
  split; [rewrite length_take; lia|].
  split; [by rewrite Hbytes, take_drop|exact Hwf'].
Qed.

(** ** Windowing keeps the byte stream *)

Lemma set_srcpad_same self : self = set_srcpad (srcpad self) self.
Proof. by destruct self. Qed.

(** _gst_tensor_converter_chain_push sends the pushed frame, if there is
    one. *)
Lemma chain_push_pushed_frame self buf :
  _gst_tensor_converter_chain_push self buf
  = sent ← pushed_frame self buf;
    mret (pad_peer_chain (srcpad self) (pad_pushed (srcpad self)) sent,
          set_srcpad (gst_pad_push (srcpad self) sent).2 self).
Proof.
  unfold _gst_tensor_converter_chain_push, pushed_frame, outgoing_frame.
  destruct (bool_decide (in_media_type self = _NNS_OCTET));
    [destruct (_gst_tensor_converter_chain_octet self buf)|]; reflexivity.
Qed.

Lemma pushed_frame_ext s s' frame :
  tensors_config s' = tensors_config s →
  in_media_type s' = in_media_type s →
  do_not_append_header s' = do_not_append_header s →
  frames_per_tensor s' = frames_per_tensor s →
  pad_current_caps (srcpad s') = pad_current_caps (srcpad s) →
  pushed_frame s' frame = pushed_frame s frame.
Proof.
  intros Hc Hm Hd Hf Hp.
  assert (Hout : ∀ buf, outgoing_frame s' buf = outgoing_frame s buf)
    by (intros buf; by apply outgoing_frame_ext).
  unfold pushed_frame, _gst_tensor_converter_chain_octet.
  rewrite Hc, Hm, Hf.
  destruct (bool_decide (in_media_type s = _NNS_OCTET));
    [|cbn; by rewrite Hout].
  destruct (_ || _); [|cbn; by rewrite Hout].
  destruct (frames_per_tensor s =? 1); cbn; by rewrite ?Hout.
Qed.

(** A frame of one block is pushed unless the assertion of the octet
    routine fails, and as it is on a stream that is not an octet stream. *)
Lemma pushed_frame_single self frame m :
  buffer_memory frame = [m] →
  ¬ octet_assertion_fails self →
  ∃ sent, pushed_frame self frame = Done sent.
Proof.
  intros Hmem Hsafe. unfold pushed_frame, _gst_tensor_converter_chain_octet.
  case_bool_decide as Hmedia; [|by eexists].
  unfold gst_buffer_n_memory. rewrite Hmem.
  change (1 <? Z.of_nat (length [m])) with false. rewrite orb_false_r.
  destruct (1 <? num_tensors (config_info (tensors_config self))) eqn:Hmulti;
    [|by eexists].
  apply Z.ltb_lt in Hmulti.
  destruct (frames_per_tensor self =? 1) eqn:Hone; [by eexists|].
  apply Z.eqb_neq in Hone. by destruct Hsafe.
Qed.

Lemma pushed_frame_not_octet self frame :
  in_media_type self ≠ _NNS_OCTET →
  pushed_frame self frame = Done (outgoing_frame self frame).
Proof.
  intros Hmedia. unfold pushed_frame.
  by rewrite bool_decide_eq_false_2 by exact Hmedia.
Qed.

Lemma pushed_frame_fails self frame :
  octet_assertion_fails self → pushed_frame self frame = Abort.
Proof.
  intros (Hmedia & Hmulti & Hone).
  unfold pushed_frame, _gst_tensor_converter_chain_octet.
  rewrite bool_decide_eq_true_2 by exact Hmedia.
  rewrite (proj2 (Z.ltb_lt _ _) Hmulti), (proj2 (Z.eqb_neq _ _) Hone).
  reflexivity.
Qed.

(** The loop of _gst_tensor_converter_chain_chunk, with rounds enough for
    what the adapter holds: it ends, the frames it pushes are the leading
    pieces of out_size bytes of what the adapter held, and the adapter keeps
    the rest. *)
Lemma chain_chunk_loop_conserves n self adapter frames_in fsize out_size
    duration ret :
  (octet_assertion_fails self → gst_adapter_available adapter < out_size) →
  adapter_wf adapter →
  0 < out_size →
  gst_adapter_available adapter <= Z.of_nat n →
  ∃ ret' self' adapter' frames sent,
    chain_chunk_loop (S n) self adapter frames_in fsize out_size duration ret
    = Done (ret', self', adapter')
    ∧ self' = set_srcpad (srcpad self') self
    ∧ pad_current_caps (srcpad self') = pad_current_caps (srcpad self)
    ∧ pad_peer_config (srcpad self') = pad_peer_config (srcpad self)
    ∧ pad_peer_chain (srcpad self') = pad_peer_chain (srcpad self)
    ∧ pad_pushed (srcpad self')
      = pad_pushed (srcpad self) ++ map pushed_buffer sent
    ∧ Forall2 (fun f s => pushed_frame self f = Done s) frames sent
    ∧ Forall (fun f => ∃ m, buffer_memory f = [m]
                            ∧ Z.of_nat (length m) = out_size
                            ∧ buffer_duration f = duration) frames
    ∧ adapter_bytes adapter
      = concat (map gst_buffer_get_all_memory frames) ++ adapter_bytes adapter'
    ∧ adapter_wf adapter'
    ∧ (ret ≠ GST_FLOW_OK → frames = [] ∧ ret' = ret)
    ∧ (ret = GST_FLOW_OK →
       (∀ l b, pad_peer_chain (srcpad self) l b = GST_FLOW_OK) →
       ret' = GST_FLOW_OK ∧ gst_adapter_available adapter' < out_size).
Proof.
  intros Hsafe Hwf Hout. revert self adapter ret Hsafe Hwf.
  induction n as [|n IH]; intros self adapter ret Hsafe Hwf Havail.
  - exists ret, self, adapter, [], []. cbn [chain_chunk_loop].
    replace (out_size <=? gst_adapter_available adapter) with false
      by (symmetry; apply Z.leb_gt; lia).
    cbn [andb]. split; [reflexivity|]. split; [apply set_srcpad_same|].
    cbn [map]. rewrite app_nil_r. do 4 (split; [reflexivity|]).
    split; [constructor|]. split; [constructor|]. split; [reflexivity|].
    split; [exact Hwf|].
    split; [by intros _|]. intros -> _. split; [reflexivity|lia].
  - cbn [chain_chunk_loop gst_adapter_prev_pts gst_adapter_prev_dts].
    destruct ((out_size <=? gst_adapter_available adapter)
              && bool_decide (ret = GST_FLOW_OK)) eqn:Hcond.
    + apply andb_true_iff in Hcond as [Hheld Hok].
      apply Z.leb_le in Hheld. apply bool_decide_eq_true in Hok. subst ret.
      assert (Hnofail : ¬ octet_assertion_fails self)
        by (intros Hfail; specialize (Hsafe Hfail); lia).
      destruct (gst_adapter_take_buffer adapter out_size)
        as [[outbuf adapter1]|] eqn:Htake.
      2: { unfold gst_adapter_take_buffer in Htake.
           replace (out_size <=? 0) with false in Htake
             by (symmetry; apply Z.leb_gt; lia).
           replace (gst_adapter_available adapter <? out_size) with false
             in Htake by (symmetry; apply Z.ltb_ge; lia).
           discriminate Htake. }
      destruct (gst_adapter_take_buffer_available _ _ _ _ Htake)
        as [_ Hleft].
      destruct (gst_adapter_take_buffer_bytes _ _ _ _ Hwf Htake)
        as (m & Hmem & Hlen & Hbytes & Hwf1).
      match goal with
      | |- context [let '(_, _) := ?stamps in _] =>
          destruct stamps as [pts' dts']
      end.
      set (frame := set_buffer_duration duration
                      (set_buffer_dts dts' (set_buffer_pts pts' outbuf))).
      assert (Hframe : buffer_memory frame = [m]) by exact Hmem.
      destruct (pushed_frame_single self frame m Hframe Hnofail)
        as [out Hsent].
      rewrite chain_push_pushed_frame, Hsent.
      cbn [mbind M_bind mret M_ret].
      set (self1 := set_srcpad (gst_pad_push (srcpad self) out).2 self).
      assert (Hext : ∀ f, pushed_frame self1 f = pushed_frame self f)
        by (intros f; apply pushed_frame_ext; by destruct self).
      destruct (IH self1 adapter1
                  (pad_peer_chain (srcpad self) (pad_pushed (srcpad self))
                     out))
        as (ret' & self' & adapter' & frames & sent & Hloop & Hself & Hcaps
            & Hpeer & Hchain & Hpushed & Hsents & Hframes & Hrest & Hwf'
            & Hstop & Hgo);
        [| exact Hwf1 | lia |].
      { intros (Hmedia & Hmulti & Hone). destruct Hnofail.
        repeat split; [exact Hmedia|exact Hmulti|exact Hone]. }
      exists ret', self', adapter', (frame :: frames), (out :: sent).
      split; [exact Hloop|].
      split; [rewrite Hself; by destruct self|].
      split; [rewrite Hcaps; by destruct self|].
      split; [rewrite Hpeer; by destruct self|].
      split; [rewrite Hchain; by destruct self|].
      split.
      { rewrite Hpushed. cbn [map]. unfold self1. destruct self. cbn.
        by rewrite <- app_assoc. }
      split.
      { constructor; [exact Hsent|].
        eapply Forall2_impl; [exact Hsents|]. intros f s Hfs.
        by rewrite <- Hext. }
      split.
      { constructor; [|exact Hframes]. exists m. by repeat split. }
      split.
      { cbn [map concat]. rewrite <- app_assoc, <- Hrest, Hbytes.
        f_equal. unfold gst_buffer_get_all_memory, frame. cbn.
        rewrite Hmem. cbn. by rewrite app_nil_r. }
      split; [exact Hwf'|]. split; [intros Hne; by destruct Hne|].
      intros _ Hall. apply Hgo.
      * apply Hall.
      * intros l b. unfold self1. destruct self. cbn. apply Hall.
    + exists ret, self, adapter, [], []. split; [reflexivity|].
      split; [apply set_srcpad_same|]. cbn [map]. rewrite app_nil_r.
      do 4 (split; [reflexivity|]).
      split; [constructor|]. split; [constructor|]. split; [reflexivity|].
      split; [exact Hwf|].
      split; [by intros _|]. intros -> _. split; [reflexivity|].
      apply andb_false_iff in Hcond as [Hc|Hc].
      * apply Z.leb_gt in Hc. lia.
      * by rewrite bool_decide_eq_true_2 in Hc.
Qed.

(** With a whole frame in the adapter, the loop stops at the assertion of
    the octet routine when that assertion fails. *)
Lemma chain_chunk_loop_asserts n self adapter frames_in fsize out_size
    duration :
  octet_assertion_fails self →
  0 < out_size <= gst_adapter_available adapter →
  chain_chunk_loop (S n) self adapter frames_in fsize out_size duration
                   GST_FLOW_OK
  = Abort.
Proof.
  intros Hfail [Hout Hheld].
  cbn [chain_chunk_loop gst_adapter_prev_pts gst_adapter_prev_dts].
  rewrite (proj2 (Z.leb_le _ _) Hheld).
  rewrite bool_decide_eq_true_2 by reflexivity. cbn [andb].
  match goal with
  | |- context [let '(_, _) := ?stamps in _] =>
      destruct stamps as [pts' dts']
  end.
  destruct (gst_adapter_take_buffer adapter out_size)
    as [[outbuf adapter1]|]; [|reflexivity].
  rewrite chain_push_pushed_frame, (pushed_frame_fails _ _ Hfail).
  reflexivity.
Qed.

(** X12: the chunk routine neither loses nor duplicates a byte.  For an
    adapter whose read position lies within what it holds and a positive
    output size frames_out * frame_size, the routine stops at the assertion
    of the octet routine when the stream is an octet stream of several
    tensors with frames-per-tensor other than 1 and the adapter, with the
    new buffer, holds a whole frame.  In every other case it returns: the
    frames it cuts have the output size each and are sent in order in the
    form _gst_tensor_converter_chain_push gives them (as they are, or
    behind their headers, when the stream is not an octet stream); the
    frames, followed by what the adapter of the substream keeps, are what
    the adapter held followed by the bytes of the new buffer; the adapter
    stays sound; the adapters of the other substreams are not touched; and
    while the peer accepts buffers, less than one frame stays behind. *)
Theorem chunk_windowing_conserves_bytes self inbuf frames_in frames_out fsize :
  let out_size := to_guint64 (frames_out * fsize) in
  let held :=
    gst_adapter_available (substream_adapter self inbuf)
    + gst_buffer_get_size inbuf in
  adapter_wf (substream_adapter self inbuf) →
  0 < out_size →
  (octet_assertion_fails self → out_size <= held →
   _gst_tensor_converter_chain_chunk self inbuf frames_in frames_out fsize
   = Abort)
  ∧ (¬ (octet_assertion_fails self ∧ out_size <= held) →
     ∃ ret self' frames sent,
       _gst_tensor_converter_chain_chunk self inbuf frames_in frames_out fsize
       = Done (ret, self')
       ∧ Forall2 (fun f s => pushed_frame self f = Done s) frames sent
       ∧ pushed_buffers (pad_pushed (srcpad self'))
         = pushed_buffers (pad_pushed (srcpad self)) ++ sent
       ∧ (in_media_type self ≠ _NNS_OCTET →
          sent = map (outgoing_frame self) frames)
       ∧ Forall (fun f => gst_buffer_get_size f = out_size) frames
       ∧ concat (map gst_buffer_get_all_memory frames)
         ++ adapter_bytes (substream_adapter self' inbuf)
         = adapter_bytes (substream_adapter self inbuf)
           ++ gst_buffer_get_all_memory inbuf
       ∧ adapter_wf (substream_adapter self' inbuf)
       ∧ (∀ key, key ≠ adapter_key inbuf →
                 adapter_table self' !! key = adapter_table self !! key)
       ∧ ((∀ l b, pad_peer_chain (srcpad self) l b = GST_FLOW_OK) →
          ret = GST_FLOW_OK
          ∧ gst_adapter_available (substream_adapter self' inbuf)
            < out_size)).
Proof.
  cbv zeta. intros Hwf Hout.
  unfold _gst_tensor_converter_chain_chunk, gst_tensor_converter_get_adapter,
    gst_tensor_aggregation_get_adapter.
  set (key := adapter_key inbuf).
  set (adapter0 := substream_adapter self inbuf) in *.
  assert (Hget : (match adapter_table self !! key with
                  | Some a => (a, adapter_table self)
                  | None => (gst_adapter_new,
                             <[key := gst_adapter_new]> (adapter_table self))
                  end).1 = adapter0).
  { unfold adapter0, substream_adapter. fold key.
    by destruct (adapter_table self !! key). }
  destruct (match adapter_table self !! key with
            | Some a => (a, adapter_table self)
            | None => _
            end) as [adapter table] eqn:Htable.
  cbn [fst] in Hget. subst adapter.
  destruct (gst_adapter_push_bytes adapter0 inbuf Hwf)
    as (Hpush & Hwf1 & Havail1).
  set (self1 := set_adapter_table table self).
  assert (Hsame : octet_assertion_fails self1 ↔ octet_assertion_fails self)
    by (unfold octet_assertion_fails, self1; by destruct self).
  split.
  { intros Hfail Hheld.
    rewrite chain_chunk_loop_asserts;
      [reflexivity | by apply Hsame | rewrite Havail1; lia]. }
  intros Hsafe.
  match goal with
  | |- context [chain_chunk_loop _ self1 ?a ?fi ?fs ?os ?d ?r] =>
      destruct (chain_chunk_loop_conserves
                  (Z.to_nat (gst_adapter_available a)) self1 a fi fs os d r)
        as (ret' & self' & adapter' & frames & sent & Hloop & Hself & Hcaps
            & Hpeer & Hchain & Hpushed & Hsents & Hframes & Hrest & Hwf'
            & _ & Hgo);
        [| exact Hwf1 | exact Hout | lia |]
  end.
  { intros Hfail. apply Hsame in Hfail. rewrite Havail1.
    destruct (Z.le_gt_cases (to_guint64 (frames_out * fsize))
                (gst_adapter_available adapter0 + gst_buffer_get_size inbuf))
      as [Hle|Hgt]; [|lia].
    destruct Hsafe. by split. }
  rewrite Hloop. cbn [mbind M_bind mret M_ret].
  eexists _, _, frames, sent. split; [reflexivity|].
  assert (Hext : ∀ f, pushed_frame self1 f = pushed_frame self f)
    by (intros f; apply pushed_frame_ext; by destruct self).
  assert (Hsub : substream_adapter
                   (set_adapter_table
                      (<[key := adapter']> (adapter_table self')) self')
                   inbuf = adapter').
  { unfold substream_adapter. fold key. cbn [adapter_table set_adapter_table].
    by rewrite lookup_insert_eq. }
  rewrite Hsub.
  assert (Hsents' : Forall2 (fun f s => pushed_frame self f = Done s)
                            frames sent).
  { eapply Forall2_impl; [exact Hsents|]. intros f s Hfs.
    by rewrite <- Hext. }
  split; [exact Hsents'|]. split.
  { cbn [srcpad set_adapter_table]. rewrite Hpushed, pushed_buffers_app.
    f_equal. clear. induction sent as [|s sent IH]; [reflexivity|].
    cbn [map pushed_buffers omap list_omap]. f_equal. exact IH. }
  split.
  { intros Hmedia. clear -Hsents' Hmedia.
    induction Hsents' as [|f s frames sent Hfs _ IH]; [reflexivity|].
    cbn [map]. rewrite pushed_frame_not_octet in Hfs by exact Hmedia.
    injection Hfs as <-. by rewrite IH. }
  split.
  { eapply Forall_impl; [exact Hframes|]. intros f (m & Hm & Hlen & _).
    unfold gst_buffer_get_size. rewrite Hm. cbn. unfold gst_memory_get_sizes.
    lia. }
  split; [by rewrite <- Hrest, Hpush|]. split; [exact Hwf'|]. split.
  { intros k Hk. cbn [adapter_table set_adapter_table].
    rewrite lookup_insert_ne by done. rewrite Hself.
    cbn [adapter_table set_srcpad]. unfold self1.
    cbn [adapter_table set_adapter_table].
    destruct (adapter_table self !! key) eqn:Hlook;
      injection Htable as _ <-; [reflexivity|].
    by rewrite lookup_insert_ne. }
  intros Hall. apply Hgo; [reflexivity|].
  intros l b. unfold self1. destruct self. apply Hall.
Qed.

Lemma chunk_windowing_conserves_bytes_witness :
  let inbuf := buffer_of [[x01; x02; x03; x04; x05; x06]] 0 in
  ∃ ret self' frames,
    _gst_tensor_converter_chain_chunk audio_element inbuf 3 2 2
    = Done (ret, self')
    ∧ pushed_buffers (pad_pushed (srcpad self'))
      = pushed_buffers (pad_pushed (srcpad audio_element))
        ++ map (outgoing_frame audio_element) frames
    ∧ Forall (fun f => gst_buffer_get_size f = 4) frames
    ∧ concat (map gst_buffer_get_all_memory frames)
      ++ adapter_bytes (substream_adapter self' inbuf)
      = [x01; x02; x03; x04; x05; x06]
    ∧ gst_adapter_available (substream_adapter self' inbuf) < 4.
Proof.
  cbv zeta.
  destruct (chunk_windowing_conserves_bytes audio_element
              (buffer_of [[x01; x02; x03; x04; x05; x06]] 0) 3 2 2)
    as [_ Hreturns]; [vm_compute; split; discriminate | reflexivity |].
  destruct Hreturns
    as (ret & self' & frames & sent & Hchunk & _ & Hpushed & Hsent & Hsizes
        & Hbytes & _ & _ & Hgo).
  { intros [(Hmedia & _) _]. vm_compute in Hmedia. discriminate Hmedia. }
  exists ret, self', frames. split; [exact Hchunk|].
  split.
  { rewrite Hpushed, Hsent; [reflexivity|]. vm_compute. discriminate. }
  split; [exact Hsizes|]. split; [exact Hbytes|].
  apply Hgo. intros l b. reflexivity.
Defined.

(** ** Segment events *)

Lemma to_gint_small z : - 2 ^ 31 <= z < 2 ^ 31 → to_gint z = z.
Proof. intros. unfold to_gint. rewrite Z.mod_small; lia. Qed.

Lemma gst_util_uint64_scale_int_exact val num denom :
  0 <= num < 2 ^ 31 → 0 < denom < 2 ^ 31 →
  val * num / denom <= G_MAXUINT64 →
  gst_util_uint64_scale_int val num denom = val * num / denom.
Proof.
  intros Hnum Hdenom Hfit. unfold gst_util_uint64_scale_int.
  rewrite (to_gint_small num), (to_gint_small denom) by lia.
  replace (denom <=? 0) with false by (symmetry; apply Z.leb_gt; lia).
  replace (num <? 0) with false by (symmetry; apply Z.ltb_ge; lia).
  cbn [orb].
  by replace (G_MAXUINT64 <? val * num / denom) with false
    by (symmetry; apply Z.ltb_ge; lia).
Qed.

(** X13: a segment event is stored in the element whatever its format.  A
    segment in time format is forwarded at once; one in another format than
    time or bytes is refused; one in byte format is answered without
    anything being sent, and the next buffer makes
    _gst_tensor_converter_chain_segment send one segment in time format,
    whose start is the byte position divided by the bytes per second of the
    stream (0 when the rate is unknown or the position is 0), after which
    the routine sends nothing more. *)
Theorem segment_event_handling w b self seg fsize :
  let '(ok, self1) :=
    gst_tensor_converter_sink_event w b self (GST_EVENT_SEGMENT seg) in
  let config := tensors_config self in
  segment self1 = seg
  ∧ have_segment self1 = true
  ∧ match segment_format seg with
    | GST_FORMAT_TIME =>
        ok = true
        ∧ pad_pushed (srcpad self1)
          = pad_pushed (srcpad self) ++ [pushed_segment seg]
    | GST_FORMAT_BYTES =>
        ok = true
        ∧ pad_pushed (srcpad self1) = pad_pushed (srcpad self)
        ∧ ∃ self2 tseg,
            _gst_tensor_converter_chain_segment self1 fsize = Done self2
            ∧ pad_pushed (srcpad self2)
              = pad_pushed (srcpad self) ++ [pushed_segment tseg]
            ∧ segment self2 = tseg
            ∧ segment_format tseg = GST_FORMAT_TIME
            ∧ segment_time tseg = segment_start tseg
            ∧ (0 < rate_n config → 0 < rate_d config →
               0 < segment_start seg →
               segment_start seg * rate_d config < 2 ^ 64 →
               0 < fsize * rate_n config < 2 ^ 31 →
               segment_start seg * rate_d config * GST_SECOND
               / (fsize * rate_n config) < 2 ^ 64 →
               segment_start tseg
               = segment_start seg * rate_d config * GST_SECOND
                 / (fsize * rate_n config))
            ∧ (rate_n config <= 0 ∨ rate_d config <= 0
               ∨ segment_start seg <= 0 →
               segment_start tseg = 0)
            ∧ _gst_tensor_converter_chain_segment self2 fsize = Done self2
    | _ => ok = false ∧ pad_pushed (srcpad self1) = pad_pushed (srcpad self)
    end.
Proof.
  cbn [gst_tensor_converter_sink_event].
  destruct (segment_format seg) eqn:Hformat; cbn;
    try (split; [reflexivity|]; split; [reflexivity|]; by split).
  split; [reflexivity|]. split; [reflexivity|].
  split; [reflexivity|]. split; [reflexivity|].
  unfold _gst_tensor_converter_chain_segment.
  cbn [need_segment have_segment set_need_segment set_have_segment set_segment
       g_assert mbind M_bind mret M_ret segment tensors_config srcpad].
  eexists _, _. split; [reflexivity|].
  cbn [srcpad set_srcpad gst_pad_push_segment pad_pushed segment set_segment
       set_need_segment need_segment].
  split; [reflexivity|]. split; [reflexivity|].
  split; [by destruct (_ && _)|]. split; [by destruct (_ && _)|].
  split; [|split; [|reflexivity]].
  - intros Hn Hd Hstart Hfit Hdenom Hres.
    rewrite (proj2 (Z.ltb_lt 0 _) Hn), (proj2 (Z.ltb_lt 0 _) Hd),
      (proj2 (Z.ltb_lt 0 _) Hstart).
    cbn [andb segment_start].
    rewrite !to_guint64_small by lia.
    apply gst_util_uint64_scale_int_exact; [unfold GST_SECOND; lia|lia|].
    unfold G_MAXUINT64. lia.
  - intros Hcase.
    assert ((0 <? rate_n (tensors_config self))
            && (0 <? rate_d (tensors_config self))
            && (0 <? segment_start seg) = false) as ->; [|reflexivity].
    rewrite !andb_false_iff, !Z.ltb_ge. tauto.
Qed.

(** ** Flushing and state changes *)


(** ** Octet frames with several tensors *)

Lemma gst_tensor_info_get_size_range i :
  0 <= gst_tensor_info_get_size i < 2 ^ 64.
Proof. unfold gst_tensor_info_get_size, to_guint64. apply Z.mod_pos_bound. lia. Qed.

Lemma sum_nonneg sizes :
  Forall (fun s => 0 <= s) sizes → 0 <= foldr Z.add 0 sizes.
Proof. induction 1; cbn; lia. Qed.

Lemma split_at_sizes_concat data sizes :
  Forall (fun s => 0 <= s) sizes →
  Z.of_nat (length data) = foldr Z.add 0 sizes →
  concat (split_at_sizes data sizes) = data
  ∧ map (fun m => Z.of_nat (length m)) (split_at_sizes data sizes) = sizes.
Proof.
  intros Hpos. revert data. induction Hpos as [|s sizes Hs Hpos IH];
    intros data Hlen; cbn [split_at_sizes foldr] in *.
  - split; [|reflexivity]. destruct data; [reflexivity|]. cbn in Hlen. lia.
  - pose proof (sum_nonneg sizes Hpos) as Hsum.
    destruct (IH (drop (Z.to_nat s) data)) as [Hc Hl].
    { rewrite length_drop. lia. }
    cbn [concat map]. rewrite Hc, Hl, take_drop. split; [reflexivity|].
    f_equal. rewrite length_take. lia.
Qed.

(** The loop of _gst_tensor_converter_chain_octet over the tensors. *)
Lemma chain_octet_loop info mem l buffer offset :
  0 <= offset →
  offset + foldr Z.add 0
             (map (fun n => gst_tensor_info_get_size
                              (gst_tensors_info_get_nth_info info n)) l)
  < 2 ^ 64 →
  foldl (fun '(buffer, offset) i =>
           let _info := gst_tensors_info_get_nth_info info i in
           let size := gst_tensor_info_get_size _info in
           let new_mem := gst_memory_share mem offset size in
           (gst_tensor_buffer_append_memory buffer (Some new_mem),
            to_guint64 (offset + size)))
        (buffer, offset) l
  = (set_buffer_memory
       (buffer_memory buffer
        ++ split_at_sizes (drop (Z.to_nat offset) mem)
             (map (fun n => gst_tensor_info_get_size
                              (gst_tensors_info_get_nth_info info n)) l))
       buffer,
     offset + foldr Z.add 0
                (map (fun n => gst_tensor_info_get_size
                                 (gst_tensors_info_get_nth_info info n)) l)).
Proof.
  revert buffer offset. induction l as [|n l IH]; intros buffer offset Hoff Hfit.
  - cbn. rewrite app_nil_r, Z.add_0_r. by destruct buffer.
  - cbn [foldl map foldr split_at_sizes] in *.
    pose proof (gst_tensor_info_get_size_range
                  (gst_tensors_info_get_nth_info info n)) as Hsize.
    assert (Hrest : 0 <= foldr Z.add 0
                           (map (fun n => gst_tensor_info_get_size
                                            (gst_tensors_info_get_nth_info
                                               info n)) l)).
    { apply sum_nonneg, Forall_map, Forall_forall. intros k _.
      apply gst_tensor_info_get_size_range. }
    rewrite to_guint64_small by lia.
    rewrite IH by lia.
    unfold gst_tensor_buffer_append_memory, gst_memory_share.
    cbn [buffer_memory set_buffer_memory]. rewrite <- app_assoc. cbn [app].
    rewrite drop_drop.
    replace (Z.to_nat offset
             + Z.to_nat (gst_tensor_info_get_size
                           (gst_tensors_info_get_nth_info info n)))%nat
      with (Z.to_nat (offset + gst_tensor_info_get_size
                                 (gst_tensors_info_get_nth_info info n)))
      by lia.
    f_equal. lia.
Qed.

(** X15: an octet frame for a descriptor of several tensors leaves the
    element cut into one memory block per tensor, in order and with the
    metadata of the frame: the blocks are the consecutive pieces of the
    frame with the sizes of the tensors, so for a frame of the total size
    nothing is lost or reordered.  With frames-per-tensor other than 1 the
    routine stops at its assertion. *)
Theorem octet_frame_split self buf :
  let info := config_info (tensors_config self) in
  1 < num_tensors info →
  foldr Z.add 0 (tensor_sizes info) < 2 ^ 64 →
  (frames_per_tensor self ≠ 1 →
   _gst_tensor_converter_chain_octet self buf = Abort)
  ∧ (frames_per_tensor self = 1 →
     ∃ out,
       _gst_tensor_converter_chain_octet self buf = Done out
       ∧ buffer_memory out
         = split_at_sizes (gst_buffer_get_all_memory buf) (tensor_sizes info)
       ∧ Z.of_nat (length (buffer_memory out)) = num_tensors info
       ∧ (buffer_pts out, buffer_dts out, buffer_duration out,
          buffer_meta_query out)
         = (buffer_pts buf, buffer_dts buf, buffer_duration buf,
            buffer_meta_query buf)
       ∧ (gst_buffer_get_size buf = foldr Z.add 0 (tensor_sizes info) →
          concat (buffer_memory out) = gst_buffer_get_all_memory buf
          ∧ map (fun m => Z.of_nat (length m)) (buffer_memory out)
            = tensor_sizes info)).
Proof.
  cbv zeta. intros Hmulti Hfit.
  unfold _gst_tensor_converter_chain_octet.
  rewrite (proj2 (Z.ltb_lt 1 _) Hmulti). cbn [orb].
  split.
  - intros Hfpt. by rewrite (proj2 (Z.eqb_neq _ _) Hfpt).
  - intros ->. cbn [Z.eqb Pos.eqb g_assert mbind M_bind mret M_ret].
    rewrite (chain_octet_loop _ _ _ gst_buffer_new 0) by (fold (tensor_sizes
      (config_info (tensors_config self))); lia).
    fold (tensor_sizes (config_info (tensors_config self))).
    eexists. split; [reflexivity|].
    cbn [fst buffer_memory gst_buffer_copy_metadata set_buffer_memory
         gst_buffer_new app buffer_pts buffer_dts buffer_duration
         buffer_meta_query].
    change (Z.to_nat 0) with 0%nat. rewrite drop_0.
    split; [reflexivity|]. split.
    { assert (Hlen : ∀ data sizes,
                 length (split_at_sizes data sizes) = length sizes).
      { intros data sizes. revert data.
        induction sizes as [|s sizes IH]; intros data; [reflexivity|].
        cbn. by rewrite IH. }
      rewrite Hlen. unfold tensor_sizes, tensor_indices.
      rewrite length_map, length_seq. lia. }
    split; [reflexivity|]. intros Hsize.
    apply split_at_sizes_concat.
    + unfold tensor_sizes. apply Forall_map, Forall_forall. intros n _.
      apply gst_tensor_info_get_size_range.
    + by rewrite <- gst_buffer_get_size_all_memory.
Qed.

Lemma octet_frame_split_witness :
  let self :=
    (gst_tensor_converter_parse_caps empty_world default_build
       (set_tensors_info (declared_info [declared_tensor _NNS_UINT8 [4];
                                         declared_tensor _NNS_UINT8 [2]])
                         fresh_element) octet_caps).2 in
  ∃ out,
    _gst_tensor_converter_chain_octet self
      (buffer_of [[x01; x02; x03; x04; x05; x06]] 0) = Done out
    ∧ buffer_memory out = [[x01; x02; x03; x04]; [x05; x06]].
Proof.
  cbv zeta.
  match goal with
  | |- ∃ out, _gst_tensor_converter_chain_octet ?s ?b = _ ∧ _ =>
      destruct (octet_frame_split s b) as [_ H];
        [reflexivity | reflexivity |];
        destruct H as (out & Hout & Hmem & _); [reflexivity|]
  end.
  exists out. split; [exact Hout|exact Hmem].
Defined.

(** ** Headers of outgoing flexible records *)

Lemma meta_header_bytes_length meta :
  Z.of_nat (length (meta_header_bytes meta)) = GST_TENSOR_META_HEADER_SIZE.
Proof.
  unfold meta_header_bytes. rewrite length_take, length_app, length_replicate.
  unfold GST_TENSOR_META_HEADER_SIZE. lia.
Qed.

Lemma chain_flex_tensor_loop self buf k buffer :
  foldl
    (fun buffer i =>
       let _info :=
         gst_tensors_info_get_nth_info (config_info (tensors_config self)) i in
       let meta := gst_tensor_info_convert_to_meta _info in
       let meta :=
         match in_media_type self with
         | _NNS_VIDEO | _NNS_AUDIO | _NNS_TEXT | _NNS_OCTET =>
             set_meta_media_type (in_media_type self) meta
         | _ => set_meta_media_type _NNS_TENSOR meta
         end in
       let mem := gst_tensor_buffer_get_nth_memory buf i in
       let new_mem := gst_tensor_meta_info_append_header meta mem in
       gst_tensor_buffer_append_memory buffer new_mem)
    buffer (seq 0 k)
  = set_buffer_memory
      (buffer_memory buffer
       ++ imap (fun n m => outgoing_header self n ++ m)
               (take k (buffer_memory buf)))
      buffer.
Proof.
  induction k as [|k IH].
  - cbn. rewrite take_0. cbn. rewrite app_nil_r. by destruct buffer.
  - rewrite seq_S, foldl_app, IH. cbn [foldl Nat.add].
    unfold gst_tensor_buffer_get_nth_memory.
    assert (Hheader : ∀ m,
               gst_tensor_meta_info_append_header
                 match in_media_type self with
                 | _NNS_VIDEO | _NNS_AUDIO | _NNS_TEXT | _NNS_OCTET =>
                     set_meta_media_type (in_media_type self)
                       (gst_tensor_info_convert_to_meta
                          (gst_tensors_info_get_nth_info
                             (config_info (tensors_config self)) k))
                 | _ => set_meta_media_type _NNS_TENSOR
                          (gst_tensor_info_convert_to_meta
                             (gst_tensors_info_get_nth_info
                                (config_info (tensors_config self)) k))
                 end (Some m)
               = Some (outgoing_header self k ++ m)).
    { intros m. unfold outgoing_header, header_media_type.
      by destruct (in_media_type self). }
    destruct (buffer_memory buf !! k) as [m|] eqn:Hk.
    + rewrite Hheader. rewrite (take_S_r _ _ _ Hk), imap_app.
      cbn [gst_tensor_buffer_append_memory buffer_memory set_buffer_memory imap].
      rewrite length_take_le by (apply lookup_lt_Some in Hk; lia).
      rewrite Nat.add_0_r, <- app_assoc. by destruct buffer.
    + assert (gst_tensor_meta_info_append_header
                match in_media_type self with
                | _NNS_VIDEO | _NNS_AUDIO | _NNS_TEXT | _NNS_OCTET =>
                    set_meta_media_type (in_media_type self)
                      (gst_tensor_info_convert_to_meta
                         (gst_tensors_info_get_nth_info
                            (config_info (tensors_config self)) k))
                | _ => set_meta_media_type _NNS_TENSOR
                         (gst_tensor_info_convert_to_meta
                            (gst_tensors_info_get_nth_info
                               (config_info (tensors_config self)) k))
                end None = None) as -> by (by destruct (in_media_type self)).
      cbn [gst_tensor_buffer_append_memory].
      apply lookup_ge_None_1 in Hk.
      rewrite !take_ge by lia. by destruct buffer.
Qed.

(** X16: when the output is flexible the element sends one record per
    tensor of the descriptor, each the block of that tensor behind a
    header of fixed size made from the descriptor of that tensor and the
    media kind of the input; blocks and metadata of the frame are kept as
    they are, so cutting the header off every record gives the frame
    back. *)
Theorem flexible_header_injection self buf :
  let out := _gst_tensor_converter_chain_flex_tensor self buf in
  let blocks :=
    take (Z.to_nat (num_tensors (config_info (tensors_config self))))
         (buffer_memory buf) in
  buffer_memory out = imap (fun n m => outgoing_header self n ++ m) blocks
  ∧ drop (Z.to_nat GST_TENSOR_META_HEADER_SIZE) <$> buffer_memory out = blocks
  ∧ (buffer_pts out, buffer_dts out, buffer_duration out,
     buffer_meta_query out)
    = (buffer_pts buf, buffer_dts buf, buffer_duration buf,
       buffer_meta_query buf).
Proof.
  cbv zeta. unfold _gst_tensor_converter_chain_flex_tensor, tensor_indices.
  rewrite chain_flex_tensor_loop.
  cbn [buffer_memory gst_buffer_copy_metadata set_buffer_memory gst_buffer_new
       app buffer_pts buffer_dts buffer_duration buffer_meta_query].
  split; [reflexivity|]. split; [|reflexivity].
  generalize (take (Z.to_nat (num_tensors (config_info (tensors_config self))))
                   (buffer_memory buf)). intros blocks.
  rewrite fmap_imap.
  transitivity (imap (const id) blocks);
    [|by rewrite imap_const, list_fmap_id].
  apply imap_ext. intros n m _. cbn.
  rewrite drop_app_length'; [reflexivity|].
  pose proof (meta_header_bytes_length
                (set_meta_media_type (header_media_type self)
                   (gst_tensor_info_convert_to_meta
                      (gst_tensors_info_get_nth_info
                         (config_info (tensors_config self)) n)))) as H.
  unfold outgoing_header. lia.
Qed.

(** ** Flexible records that are accepted *)







(** ** The mode property *)









(** ** Looking up converter sub-plugins *)

Lemma get_subplugin_registered l name :
  name ∈ l.*1 → is_Some (get_subplugin l name).
Proof.
  induction l as [|[n ex] l IH]; cbn; [by intros ?%elem_of_nil|].
  intros Hin. destruct (String.eqb n name) eqn:Heq; [by eexists|].
  apply elem_of_cons in Hin as [->|Hin]; [|by apply IH].
  by rewrite String.eqb_refl in Heq.
Qed.

Lemma findExternalConverter_loop_sound w media_type names ex :
  findExternalConverter_loop w media_type names = Some ex →
  ∃ name mt,
    media_type = Some mt
    ∧ name ∈ names
    ∧ nnstreamer_converter_find w name = Some ex
    ∧ (mt = name
       ∨ ∃ caps_names, converter_query_caps ex = Some caps_names
                       ∧ mt ∈ caps_names).
Proof.
  induction names as [|name names IH]; [intros [=]|].
  cbn [findExternalConverter_loop].
  assert (Hrest : findExternalConverter_loop w media_type names = Some ex →
                  ∃ name0 mt,
                    media_type = Some mt
                    ∧ name0 ∈ name :: names
                    ∧ nnstreamer_converter_find w name0 = Some ex
                    ∧ (mt = name0
                       ∨ ∃ caps_names,
                           converter_query_caps ex = Some caps_names
                           ∧ mt ∈ caps_names)).
  { intros H. destruct (IH H) as (n & mt & Hmt & Hin & Hfind & Hwhy).
    exists n, mt. split; [exact Hmt|]. split; [by right|]. by split. }
  destruct (g_strcmp0_eq media_type name) eqn:Hname.
  - intros Hfind. destruct media_type as [mt|]; [|discriminate Hname].
    cbn in Hname. apply String.eqb_eq in Hname. subst mt.
    exists name, name. split; [reflexivity|]. split; [by left|].
    split; [exact Hfind|by left].
  - destruct (nnstreamer_converter_find w name) as [e|] eqn:Hfind;
      [|exact Hrest].
    destruct (converter_query_caps e) as [caps_names|] eqn:Hcaps;
      [|exact Hrest].
    destruct (existsb (g_strcmp0_eq media_type) caps_names) eqn:Hex;
      [|exact Hrest].
    intros [= <-]. apply existsb_exists in Hex as (cn & Hin & Hcn).
    destruct media_type as [mt|]; [|discriminate Hcn].
    cbn in Hcn. apply String.eqb_eq in Hcn. subst cn.
    exists name, mt. split; [reflexivity|]. split; [by left|].
    split; [exact Hfind|]. right. exists caps_names.
    split; [exact Hcaps|]. by apply list_elem_of_In.
Qed.

(** X20: findExternalConverter only returns registered sub-plugins that
    answer to the media type, by their name or by a structure name of the
    capability they report; it finds nothing for a NULL media type or in an
    empty registry; and a media type that is the name of a registered
    sub-plugin is always found. *)
Theorem findExternalConverter_spec w media_type :
  (∀ ex, findExternalConverter w media_type = Some ex →
         ∃ name mt,
           media_type = Some mt
           ∧ name ∈ get_all_subplugins w
           ∧ nnstreamer_converter_find w name = Some ex
           ∧ (mt = name
              ∨ ∃ caps_names, converter_query_caps ex = Some caps_names
                              ∧ mt ∈ caps_names))
  ∧ (media_type = None ∨ subplugins w = [] →
     findExternalConverter w media_type = None)
  ∧ (∀ name, media_type = Some name → name ∈ get_all_subplugins w →
             is_Some (findExternalConverter w media_type)).
Proof.
  split; [|split].
  - intros ex. apply findExternalConverter_loop_sound.
  - intros Hcase.
    destruct (findExternalConverter w media_type) as [ex|] eqn:Hfind;
      [|reflexivity].
    apply findExternalConverter_loop_sound in Hfind
      as (name & mt & Hmt & Hin & _).
    destruct Hcase as [->|Hempty]; [discriminate Hmt|].
    unfold get_all_subplugins in Hin. rewrite Hempty in Hin.
    by apply elem_of_nil in Hin.
  - intros name -> Hin. unfold findExternalConverter.
    assert (Hall : ∀ n, n ∈ get_all_subplugins w →
                        is_Some (nnstreamer_converter_find w n))
      by (intros n; apply get_subplugin_registered).
    revert Hin Hall. generalize (get_all_subplugins w). intros names.
    induction names as [|n names IH]; [by intros ?%elem_of_nil|].
    intros Hin Hall. cbn [findExternalConverter_loop].
    destruct (g_strcmp0_eq (Some name) n) eqn:Hname.
    + apply Hall. by left.
    + apply elem_of_cons in Hin as [->|Hin].
      { cbn in Hname. by rewrite String.eqb_refl in Hname. }
      assert (Hrest : is_Some (findExternalConverter_loop w (Some name) names)).
      { apply IH; [exact Hin|]. intros k Hk. apply Hall. by right. }
      destruct (nnstreamer_converter_find w n) as [e|]; [|exact Hrest].
      destruct (converter_query_caps e); [|exact Hrest].
      destruct (existsb _ _); [by eexists|exact Hrest].
Qed.

(** ** Timestamps made up by the element *)

Lemma stamp_buffers_from w self bufs frames_in start k out :
  let config := tensors_config self in
  let period := frames_in * rate_d config * GST_SECOND / rate_n config in
  set_timestamp self = true →
  0 < rate_n config < 2 ^ 31 → 0 < rate_d config → 0 <= frames_in →
  frames_in * rate_d config < 2 ^ 64 →
  Forall (fun buf => buffer_pts buf = GST_CLOCK_TIME_NONE
                     ∧ buffer_duration buf = GST_CLOCK_TIME_NONE) bufs →
  0 <= start →
  start + Z.of_nat (length bufs) * period < G_MAXUINT64 →
  (if GST_CLOCK_TIME_IS_VALID (old_timestamp self)
   then to_guint64 (old_timestamp self + period)
   else segment_start (segment self)) = start →
  stamp_buffers w self bufs frames_in !! k = Some out →
  buffer_pts out = start + Z.of_nat k * period
  ∧ buffer_duration out = period.
Proof.
  cbv zeta. revert self start k.
  induction bufs as [|buf bufs IH];
    intros self start k Hset Hn Hd Hfi Hfit Hall Hstart Hend Hnext;
    [intros [=]|].
  apply Forall_cons in Hall as [[Hpts Hdur] Hall].
  set (period := frames_in * rate_d (tensors_config self) * GST_SECOND
                 / rate_n (tensors_config self)) in *.
  assert (Hperiod : 0 <= period).
  { unfold period, GST_SECOND. apply Z.div_pos; nia. }
  assert (Hrest : 0 <= Z.of_nat (length bufs) * period)
    by (apply Z.mul_nonneg_nonneg; lia).
  assert (Hend' : start + period + Z.of_nat (length bufs) * period
                  < 2 ^ 64 - 1).
  { cbn [length] in Hend. unfold G_MAXUINT64 in Hend.
    rewrite Nat2Z.inj_succ in Hend. clearbody period. lia. }
  assert (Hscale : gst_util_uint64_scale_int
                     (to_guint64 (frames_in * rate_d (tensors_config self)))
                     GST_SECOND (rate_n (tensors_config self)) = period).
  { rewrite to_guint64_small by lia.
    apply gst_util_uint64_scale_int_exact;
      [unfold GST_SECOND; lia | lia |].
    fold period. unfold G_MAXUINT64. clearbody period. lia. }
  cbn [stamp_buffers].
  assert (Hstep : _gst_tensor_converter_chain_timestamp w self buf frames_in
                  = (set_old_timestamp start self,
                     set_buffer_pts start (set_buffer_duration period buf))).
  { unfold _gst_tensor_converter_chain_timestamp. rewrite Hset, Hdur.
    rewrite (proj2 (Z.ltb_lt 0 _)) by lia.
    rewrite (proj2 (Z.ltb_lt 0 _) Hd).
    change (GST_CLOCK_TIME_IS_VALID GST_CLOCK_TIME_NONE) with false.
    cbn [negb andb]. rewrite Hscale.
    cbn [buffer_pts set_buffer_duration]. rewrite Hpts.
    change (GST_CLOCK_TIME_IS_VALID GST_CLOCK_TIME_NONE) with false.
    cbn [negb]. rewrite <- Hnext.
    by destruct (GST_CLOCK_TIME_IS_VALID (old_timestamp self)). }
  rewrite Hstep. destruct k as [|k].
  - intros [= <-]. cbn. split; [lia|reflexivity].
  - cbn [lookup list_lookup]. intros Hout.
    cbn [length] in Hend.
    assert (Hcfg : tensors_config (set_old_timestamp start self)
                   = tensors_config self) by (by destruct self).
    assert (Hseg : segment (set_old_timestamp start self) = segment self)
      by (by destruct self).
    assert (Hvalid : GST_CLOCK_TIME_IS_VALID start = true).
    { unfold GST_CLOCK_TIME_IS_VALID, GST_CLOCK_TIME_NONE, G_MAXUINT64.
      apply negb_true_iff, Z.eqb_neq. clearbody period. lia. }
    destruct (IH (set_old_timestamp start self) (start + period) k)
      as [Hp Hd']; rewrite ?Hcfg; fold period;
      try assumption; try (by destruct self);
      try (unfold G_MAXUINT64; clearbody period; lia).
    + cbn [old_timestamp set_old_timestamp]. rewrite Hvalid.
      apply to_guint64_small. clearbody period. lia.
    + rewrite Hcfg in Hp, Hd'. fold period in Hp, Hd'.
      split; [|exact Hd']. rewrite Hp, Nat2Z.inj_succ. clearbody period. lia.
Qed.

(** X21: on a stream with a known frame rate, buffers that come without
    timestamp and duration leave the timestamp routine evenly spaced: after
    a reset the k-th buffer is stamped with the start of the segment plus k
    periods, where a period is the time of the frames in one buffer, and
    each duration is one period. *)
Theorem synthesized_timestamps w self bufs frames_in k out :
  let config := tensors_config self in
  let period := frames_in * rate_d config * GST_SECOND / rate_n config in
  let start := segment_start (segment self) in
  set_timestamp self = true →
  old_timestamp self = GST_CLOCK_TIME_NONE →
  0 < rate_n config < 2 ^ 31 → 0 < rate_d config → 0 <= frames_in →
  frames_in * rate_d config < 2 ^ 64 →
  Forall (fun buf => buffer_pts buf = GST_CLOCK_TIME_NONE
                     ∧ buffer_duration buf = GST_CLOCK_TIME_NONE) bufs →
  0 <= start →
  start + Z.of_nat (length bufs) * period < G_MAXUINT64 →
  stamp_buffers w self bufs frames_in !! k = Some out →
  buffer_pts out = start + Z.of_nat k * period
  ∧ buffer_duration out = period.
Proof.
  cbv zeta. intros Hset Hold Hn Hd Hfi Hfit Hall Hstart Hend.
  apply (stamp_buffers_from w self bufs frames_in); try assumption.
  by rewrite Hold.
Qed.

Lemma synthesized_timestamps_witness :
  let blank :=
    {| buffer_memory := [[x00]]; buffer_pts := GST_CLOCK_TIME_NONE;
       buffer_dts := GST_CLOCK_TIME_NONE;
       buffer_duration := GST_CLOCK_TIME_NONE; buffer_meta_query := None |} in
  rate_n (tensors_config gray8_element) = 30
  ∧ ∃ out, stamp_buffers empty_world gray8_element [blank; blank; blank] 1
           !! 2%nat = Some out
           ∧ buffer_pts out = 66666666
           ∧ buffer_duration out = 33333333.
Proof.
  cbv zeta. split; [reflexivity|].
  eexists. split; [reflexivity|].
  match goal with
  | |- buffer_pts ?o = _ ∧ _ =>
      pose proof (synthesized_timestamps empty_world gray8_element
                    (replicate 3
                       {| buffer_memory := [[x00]];
                          buffer_pts := GST_CLOCK_TIME_NONE;
                          buffer_dts := GST_CLOCK_TIME_NONE;
                          buffer_duration := GST_CLOCK_TIME_NONE;
                          buffer_meta_query := None |}) 1 2 o) as H
  end.
  apply H; try reflexivity; try (vm_compute; split; discriminate || reflexivity);
    try (vm_compute; discriminate); repeat constructor.
Defined.

(** ** Capabilities offered upstream *)

(** The video parser on a supported format whose rows need no depadding
    check to fail: it accepts, with the dimension of the format's layout. *)
Lemma parse_video_supported b self caps vinfo :
  gst_video_info_from_caps caps = Some vinfo →
  video_format_supported b (vinfo_format vinfo) = true →
  (video_format_is_planar (vinfo_format vinfo) = true →
   c_rem (vinfo_width vinfo) 4 = 0) →
  0 <= vinfo_width vinfo < 2 ^ 32 →
  0 <= vinfo_height vinfo < 2 ^ 32 →
  (gst_tensor_converter_parse_video b self caps).1.1 = true
  ∧ info_dimension
      (gst_tensors_info_get_nth_info
         (config_info (gst_tensor_converter_parse_video b self caps).2) 0)
    = if video_format_is_planar (vinfo_format vinfo)
      then dimension_of [vinfo_width vinfo; vinfo_height vinfo; 3; 1]
      else dimension_of [video_format_channels (vinfo_format vinfo);
                         vinfo_width vinfo; vinfo_height vinfo; 1].
Proof.
  intros Hvi Hsup Hplanar Hw Hh.
  unfold gst_tensor_converter_parse_video. rewrite Hvi.
  destruct vinfo as [f wd ht vw fn fd sz].
  cbn [vinfo_format vinfo_width vinfo_height vinfo_fps_n vinfo_fps_d
       vinfo_size] in *.
  unfold video_format_supported in Hsup.
  destruct f; try discriminate Hsup;
    unfold gst_tensor_converter_video_stride; rewrite ?Hsup;
    try (rewrite Hplanar by reflexivity);
    try destruct (negb (c_rem wd 4 =? 0));
    cbn -[to_guint];
    rewrite ?(to_guint_small wd), ?(to_guint_small ht) by lia.
  all: try done.
  all: destruct (gst_check_version_1_20 b); cbn -[to_guint];
    repeat case_bool_decide; try discriminate; cbn -[to_guint];
    rewrite ?(to_guint_small wd), ?(to_guint_small ht) by lia; done.
Qed.

(** One round of the loop of gst_tensor_converter_get_possible_media_caps
    rewrites the structure at its index in place and appends the planar
    structure, if there is one. *)
Lemma possible_media_caps_step_at b config pre st rest n :
  length pre = n →
  possible_media_caps_step b config (pre ++ st :: rest) n
  = pre ++ possible_structure b config st
        :: rest ++ option_list (appended_structure b config st).
Proof.
  intros <-.
  assert (Hins : ∀ st', <[length pre := st']> (pre ++ st :: rest)
                        = pre ++ st' :: rest).
  { intros st'. rewrite insert_app_r_alt by lia.
    by rewrite Nat.sub_diag. }
  unfold possible_media_caps_step.
  rewrite lookup_app_r by lia. rewrite Nat.sub_diag. cbn [lookup list_lookup].
  unfold possible_structure, appended_structure.
  destruct (caps_structure_media_type st); cbn [option_list];
    try (by rewrite app_nil_r).
  - destruct (video_support b); [|by rewrite app_nil_r].
    destruct (possible_video_caps b config st) as [st' [nchw|]];
      cbn [fst snd option_list]; rewrite Hins.
    + by rewrite <- app_assoc.
    + by rewrite app_nil_r.
  - destruct (audio_support b && _); rewrite ?Hins; by rewrite app_nil_r.
Qed.

Lemma possible_media_caps_loop b config template n :
  (n <= length template)%nat →
  foldl (possible_media_caps_step b config) template (seq 0 n)
  = (possible_structure b config <$> take n template)
    ++ drop n template
    ++ omap (appended_structure b config) (take n template).
Proof.
  induction n as [|n IH]; intros Hn.
  - cbn. by rewrite take_0, drop_0, app_nil_r.
  - destruct (lookup_lt_is_Some_2 template n) as [st Hst]; [lia|].
    rewrite seq_S, foldl_app, IH by lia. cbn [foldl Nat.add].
    assert (Hlen : length (possible_structure b config <$> take n template) = n)
      by (rewrite length_fmap, length_take; lia).
    rewrite (drop_S _ _ _ Hst), <- app_comm_cons.
    rewrite (possible_media_caps_step_at _ _ _ _ _ n Hlen).
    rewrite (take_S_r _ _ _ Hst), fmap_app, omap_app, <- !app_assoc.
    cbn. by destruct (appended_structure b config st).
Qed.

Lemma possible_media_caps_structures b template self peer fixed :
  pad_peer_config (srcpad self) = Some (peer, fixed) →
  gst_tensor_converter_get_possible_media_caps b template self
  = Some ((possible_structure b peer <$> template)
          ++ omap (appended_structure b peer) template).
Proof.
  intros Hpeer. unfold gst_tensor_converter_get_possible_media_caps,
    gst_tensors_config_from_peer. rewrite Hpeer.
  rewrite possible_media_caps_loop by lia.
  by rewrite take_ge, drop_ge by lia.
Qed.

(** X22: what the element offers upstream for video agrees with what it
    derives at negotiation.  When the peer asks for a descriptor whose first
    dimensions are [channels, width, height] with 1, 3 or 4 channels, the
    video structure of the template comes back with a list of formats and
    that width and height, and every format of the list, parsed at that
    width and height, gives a descriptor with dimension [channels, width,
    height, 1]. *)
Theorem offered_video_formats_parse_back b template self peer fixed i st :
  let dims :=
    info_dimension (gst_tensors_info_get_nth_info (config_info peer) 0) in
  let c := dim_get dims 0 in
  let wd := dim_get dims 1 in
  let ht := dim_get dims 2 in
  pad_peer_config (srcpad self) = Some (peer, fixed) →
  video_support b = true →
  template !! i = Some st →
  caps_structure_media_type st = _NNS_VIDEO →
  c = 1 ∨ c = 3 ∨ c = 4 →
  0 < wd < 2 ^ 31 → 0 < ht < 2 ^ 31 →
  ∃ (caps : list GstCapsStructure) (st' : GstCapsStructure)
    (formats : list string),
    gst_tensor_converter_get_possible_media_caps b template self = Some caps
    ∧ caps !! i = Some st'
    ∧ cs_name st' = cs_name st
    ∧ cs_fields st' !! "format"%string = Some (GST_TYPE_LIST formats)
    ∧ cs_fields st' !! "width"%string = Some (G_TYPE_INT wd)
    ∧ cs_fields st' !! "height"%string = Some (G_TYPE_INT ht)
    ∧ formats ≠ []
    ∧ ∀ name vcaps vinfo self0,
        name ∈ formats →
        gst_video_info_from_caps vcaps = Some vinfo →
        vinfo_format vinfo = gst_video_format_from_string name →
        vinfo_width vinfo = wd → vinfo_height vinfo = ht →
        let '(ok, _, config) :=
          gst_tensor_converter_parse_video b self0 vcaps in
        ok = true
        ∧ take 4 (info_dimension
                    (gst_tensors_info_get_nth_info (config_info config) 0))
          = [c; wd; ht; 1].
Proof.
  cbv zeta. intros Hpeer Hvideo Hst Hmedia Hc Hwd Hht.
  rewrite (possible_media_caps_structures _ _ _ _ _ Hpeer).
  set (dims := info_dimension
                 (gst_tensors_info_get_nth_info (config_info peer) 0)) in *.
  assert (Hlook : ((possible_structure b peer <$> template)
                   ++ omap (appended_structure b peer) template) !! i
                  = Some (possible_video_caps b peer st).1).
  { rewrite lookup_app_l
      by (rewrite length_fmap; by apply lookup_lt_Some in Hst).
    rewrite list_lookup_fmap, Hst. cbn.
    unfold possible_structure. by rewrite Hmedia, Hvideo. }
  assert (Hparse : ∀ f vcaps vinfo self0,
             gst_video_info_from_caps vcaps = Some vinfo →
             vinfo_format vinfo = f →
             vinfo_width vinfo = dim_get dims 1 →
             vinfo_height vinfo = dim_get dims 2 →
             video_format_supported b f = true →
             video_format_is_planar f = false →
             (gst_tensor_converter_parse_video b self0 vcaps).1.1 = true
             ∧ take 4 (info_dimension
                         (gst_tensors_info_get_nth_info
                            (config_info
                               (gst_tensor_converter_parse_video b self0
                                  vcaps).2) 0))
               = [video_format_channels f; dim_get dims 1; dim_get dims 2; 1]).
  { intros f vcaps vinfo self0 Hfrom Hf Hw Hh Hsup Hplanar.
    destruct (parse_video_supported b self0 vcaps vinfo Hfrom)
      as [Hok Hdims]; rewrite ?Hf, ?Hw, ?Hh; try lia; try assumption.
    { rewrite Hplanar. discriminate. }
    split; [exact Hok|].
    rewrite Hdims, Hf, Hplanar, Hw, Hh. reflexivity. }
  assert (Hfields : ∀ formats st0,
             formats ≠ [] →
             let st' :=
               (let st1 := set_format_list formats st0 in
                let st2 := set_int_if_positive "width"
                             (to_gint (dim_get dims 1)) st1 in
                let st3 := set_int_if_positive "height"
                             (to_gint (dim_get dims 2)) st2 in
                if (0 <=? rate_n peer) && (0 <? rate_d peer)
                then gst_structure_set "framerate"
                       (GST_TYPE_FRACTION (rate_n peer) (rate_d peer)) st3
                else st3) in
             cs_name st' = cs_name st0
             ∧ cs_fields st' !! "format"%string = Some (GST_TYPE_LIST formats)
             ∧ cs_fields st' !! "width"%string
               = Some (G_TYPE_INT (dim_get dims 1))
             ∧ cs_fields st' !! "height"%string
               = Some (G_TYPE_INT (dim_get dims 2))).
  { intros formats st0 Hne. cbv zeta.
    rewrite !to_gint_small by lia. unfold set_int_if_positive.
    rewrite (proj2 (Z.ltb_lt 0 (dim_get dims 1))) by lia.
    rewrite (proj2 (Z.ltb_lt 0 (dim_get dims 2))) by lia.
    destruct formats as [|f0 formats]; [done|].
    destruct ((0 <=? rate_n peer) && (0 <? rate_d peer));
      cbn [set_format_list gst_structure_set cs_name cs_fields];
      (split; [reflexivity|]);
      rewrite ?(lookup_insert_ne _ "framerate"%string) by done;
      rewrite ?(lookup_insert_ne _ "height"%string "format"%string) by done;
      rewrite ?(lookup_insert_ne _ "height"%string "width"%string) by done;
      rewrite ?(lookup_insert_ne _ "width"%string "format"%string) by done;
      by rewrite !lookup_insert_eq. }
  assert (Hst' : ∃ formats,
             formats ≠ []
             ∧ Forall (fun name =>
                         let f := gst_video_format_from_string name in
                         video_format_supported b f = true
                         ∧ video_format_is_planar f = false
                         ∧ video_format_channels f = dim_get dims 0) formats
             ∧ cs_name (possible_video_caps b peer st).1 = cs_name st
             ∧ cs_fields (possible_video_caps b peer st).1 !! "format"%string
               = Some (GST_TYPE_LIST formats)
             ∧ cs_fields (possible_video_caps b peer st).1 !! "width"%string
               = Some (G_TYPE_INT (dim_get dims 1))
             ∧ cs_fields (possible_video_caps b peer st).1 !! "height"%string
               = Some (G_TYPE_INT (dim_get dims 2))).
  { unfold possible_video_caps. fold dims.
    destruct Hc as [Hc|[Hc|Hc]]; rewrite Hc;
      change (to_gint 1) with 1; change (to_gint 3) with 3;
      change (to_gint 4) with 4; cbv iota;
      match goal with
      | |- context [set_format_list ?l st] => exists l
      end;
      (split; [done|]); (split; [by repeat constructor|]);
      match goal with
      | |- context [(if gst_check_version_1_20 b then _ else _).1] =>
          destruct (gst_check_version_1_20 b);
            [destruct (to_gint (dim_get dims 2) =? 3)|]
      end; cbn [fst]; by apply Hfields. }
  destruct Hst' as (formats & Hne & Hall & Hname & Hformat & Hwidth & Hheight).
  eexists _, _, formats. split; [reflexivity|]. split; [exact Hlook|].
  split; [exact Hname|]. split; [exact Hformat|]. split; [exact Hwidth|].
  split; [exact Hheight|]. split; [exact Hne|].
  intros name vcaps vinfo self0 Hin Hfrom Hf Hw Hh.
  rewrite Forall_forall in Hall. destruct (Hall name Hin) as (Hsup & Hpl & Hch).
  destruct (Hparse _ vcaps vinfo self0 Hfrom Hf Hw Hh Hsup Hpl) as [Hok Hdims].
  destruct (gst_tensor_converter_parse_video b self0 vcaps) as [[ok sp] config].
  cbn in Hok, Hdims. by rewrite Hch in Hdims.
Qed.

Lemma offered_video_formats_parse_back_witness :
  let self := linked_element (peer_of _NNS_UINT8 [3; 4; 2; 1] 30 1) in
  ∃ caps st' formats,
    gst_tensor_converter_get_possible_media_caps default_build media_template
      self = Some caps
    ∧ caps !! 0%nat = Some st'
    ∧ cs_fields st' !! "format"%string = Some (GST_TYPE_LIST formats)
    ∧ cs_fields st' !! "width"%string = Some (G_TYPE_INT 4)
    ∧ cs_fields st' !! "height"%string = Some (G_TYPE_INT 2)
    ∧ formats ≠ [].
Proof.
  cbv zeta.
  destruct (offered_video_formats_parse_back default_build media_template
              (linked_element (peer_of _NNS_UINT8 [3; 4; 2; 1] 30 1))
              (peer_of _NNS_UINT8 [3; 4; 2; 1] 30 1) true 0%nat
              {| cs_name := "video/x-raw"; cs_fields := ∅ |})
    as (caps & st' & formats & Hcaps & Hst & _ & Hf & Hw & Hh & Hne & _);
    [reflexivity | reflexivity | reflexivity | reflexivity
    | right; left; reflexivity
    | vm_compute; split; reflexivity
    | vm_compute; split; reflexivity |].
  exists caps, st', formats. repeat split; assumption.
Defined.

Lemma cs_name_set_format_list formats st :
  cs_name (set_format_list formats st) = cs_name st.
Proof. by destruct formats. Qed.

Lemma cs_name_set_int_if_positive field v st :
  cs_name (set_int_if_positive field v st) = cs_name st.
Proof. unfold set_int_if_positive. by destruct (0 <? v). Qed.

Lemma set_int_if_positive_lookup field v st :
  0 < v →
  cs_fields (set_int_if_positive field v st) !! field = Some (G_TYPE_INT v).
Proof.
  intros Hv. unfold set_int_if_positive.
  rewrite (proj2 (Z.ltb_lt 0 v) Hv). apply lookup_insert_eq.
Qed.

Lemma set_int_if_positive_lookup_ne field v st k :
  k ≠ field →
  cs_fields (set_int_if_positive field v st) !! k = cs_fields st !! k.
Proof.
  intros Hk. unfold set_int_if_positive. destruct (0 <? v); [|reflexivity].
  by apply lookup_insert_ne.
Qed.

(** The planar formats at a width that is no multiple of 4 are refused by
    the video parser. *)
Lemma parse_video_planar_unaligned b self caps vinfo :
  gst_video_info_from_caps caps = Some vinfo →
  gst_check_version_1_20 b = true →
  video_format_is_planar (vinfo_format vinfo) = true →
  c_rem (vinfo_width vinfo) 4 ≠ 0 →
  (gst_tensor_converter_parse_video b self caps).1.1 = false.
Proof.
  intros Hvi Hver Hplanar Hrem.
  unfold gst_tensor_converter_parse_video. rewrite Hvi.
  destruct vinfo as [f wd ht vw fn fd sz].
  cbn [vinfo_format vinfo_width vinfo_height vinfo_fps_n vinfo_fps_d
       vinfo_size] in *.
  apply Z.eqb_neq in Hrem.
  destruct f; try discriminate Hplanar;
    unfold gst_tensor_converter_video_stride; rewrite Hver, Hrem;
    cbn; by repeat case_bool_decide.
Qed.

(** X23: the planar offer.  When the third dimension the peer asks for is
    3, an element built against GStreamer 1.20 appends, behind the
    structures of the template, a copy of the video structure that offers
    the planar formats RGBP and BGRP with the first dimension as width and
    the second as height.  The video parser takes such a capability exactly
    when the width is a multiple of 4, and then gives the dimension
    [width, height, 3, 1]; at any other width it refuses what was offered. *)
Theorem offered_planar_formats_parse_back b template self peer fixed i st :
  let dims :=
    info_dimension (gst_tensors_info_get_nth_info (config_info peer) 0) in
  let wd := dim_get dims 0 in
  let ht := dim_get dims 1 in
  pad_peer_config (srcpad self) = Some (peer, fixed) →
  video_support b = true →
  gst_check_version_1_20 b = true →
  template !! i = Some st →
  caps_structure_media_type st = _NNS_VIDEO →
  dim_get dims 2 = 3 →
  0 < wd < 2 ^ 31 → 0 < ht < 2 ^ 31 →
  ∃ (caps : list GstCapsStructure) (nchw : GstCapsStructure),
    gst_tensor_converter_get_possible_media_caps b template self = Some caps
    ∧ take (length template) caps = possible_structure b peer <$> template
    ∧ nchw ∈ drop (length template) caps
    ∧ cs_name nchw = cs_name st
    ∧ cs_fields nchw !! "format"%string
      = Some (GST_TYPE_LIST ["RGBP"; "BGRP"]%string)
    ∧ cs_fields nchw !! "width"%string = Some (G_TYPE_INT wd)
    ∧ cs_fields nchw !! "height"%string = Some (G_TYPE_INT ht)
    ∧ ∀ name vcaps vinfo self0,
        name ∈ ["RGBP"; "BGRP"]%string →
        gst_video_info_from_caps vcaps = Some vinfo →
        vinfo_format vinfo = gst_video_format_from_string name →
        vinfo_width vinfo = wd → vinfo_height vinfo = ht →
        let '(ok, _, config) :=
          gst_tensor_converter_parse_video b self0 vcaps in
        ok = bool_decide (c_rem wd 4 = 0)
        ∧ (c_rem wd 4 = 0 →
           take 4 (info_dimension
                     (gst_tensors_info_get_nth_info (config_info config) 0))
           = [wd; ht; 3; 1]).
Proof.
  cbv zeta. intros Hpeer Hvideo Hver Hst Hmedia Hc Hwd Hht.
  rewrite (possible_media_caps_structures _ _ _ _ _ Hpeer).
  set (dims := info_dimension
                 (gst_tensors_info_get_nth_info (config_info peer) 0)) in *.
  assert (Hlen : length (possible_structure b peer <$> template)
                 = length template) by apply length_fmap.
  assert (Happ : ∃ nchw,
             appended_structure b peer st = Some nchw
             ∧ cs_name nchw = cs_name st
             ∧ cs_fields nchw !! "format"%string
               = Some (GST_TYPE_LIST ["RGBP"; "BGRP"]%string)
             ∧ cs_fields nchw !! "width"%string
               = Some (G_TYPE_INT (dim_get dims 0))
             ∧ cs_fields nchw !! "height"%string
               = Some (G_TYPE_INT (dim_get dims 1))).
  { unfold appended_structure. rewrite Hmedia, Hvideo.
    unfold possible_video_caps. fold dims. rewrite Hver, Hc.
    change (to_gint 3 =? 3) with true. cbv iota zeta. cbn [snd].
    eexists. split; [reflexivity|].
    rewrite !(to_gint_small (dim_get dims 0)),
      !(to_gint_small (dim_get dims 1)) by lia.
    split.
    { rewrite !cs_name_set_int_if_positive, cs_name_set_format_list.
      destruct (_ && _); cbn [gst_structure_set cs_name];
        by rewrite !cs_name_set_int_if_positive, cs_name_set_format_list. }
    split; [|split].
    - rewrite !set_int_if_positive_lookup_ne by done.
      cbn [set_format_list gst_structure_set cs_fields].
      apply lookup_insert_eq.
    - rewrite set_int_if_positive_lookup_ne by done.
      apply set_int_if_positive_lookup. lia.
    - apply set_int_if_positive_lookup. lia. }
  destruct Happ as (nchw & Happ & Hname & Hformat & Hwidth & Hheight).
  eexists _, nchw. split; [reflexivity|].
  split; [by rewrite <- Hlen, take_app_length|].
  split.
  { rewrite <- Hlen, drop_app_length. apply list_elem_of_omap.
    exists st. split; [by eapply list_elem_of_lookup_2|exact Happ]. }
  split; [exact Hname|]. split; [exact Hformat|]. split; [exact Hwidth|].
  split; [exact Hheight|].
  intros name vcaps vinfo self0 Hin Hfrom Hf Hw Hh.
  assert (Hplanar : video_format_is_planar (vinfo_format vinfo) = true).
  { rewrite Hf. apply elem_of_cons in Hin as [->|Hin]; [reflexivity|].
    apply list_elem_of_singleton in Hin as ->. reflexivity. }
  assert (Hsup : video_format_supported b (vinfo_format vinfo) = true).
  { rewrite Hf. apply elem_of_cons in Hin as [->|Hin]; [exact Hver|].
    apply list_elem_of_singleton in Hin as ->. exact Hver. }
  case_bool_decide as Hrem.
  - assert (Hrow : video_format_is_planar (vinfo_format vinfo) = true →
                   c_rem (vinfo_width vinfo) 4 = 0)
      by (intros _; by rewrite Hw).
    assert (Hwr : 0 <= vinfo_width vinfo < 2 ^ 32) by (rewrite Hw; lia).
    assert (Hhr : 0 <= vinfo_height vinfo < 2 ^ 32) by (rewrite Hh; lia).
    destruct (parse_video_supported b self0 vcaps vinfo Hfrom Hsup Hrow
                Hwr Hhr) as [Hok Hdims].
    destruct (gst_tensor_converter_parse_video b self0 vcaps)
      as [[ok sp] config].
    cbn in Hok, Hdims. split; [exact Hok|]. intros _.
    rewrite Hdims, Hplanar, Hw, Hh. reflexivity.
  - pose proof (parse_video_planar_unaligned b self0 vcaps vinfo Hfrom Hver
                  Hplanar) as Hok.
    rewrite Hw in Hok. specialize (Hok Hrem).
    destruct (gst_tensor_converter_parse_video b self0 vcaps)
      as [[ok sp] config].
    cbn in Hok. split; [exact Hok|]. intros Hzero. by destruct Hrem.
Qed.

Lemma offered_planar_formats_parse_back_witness :
  let self := linked_element (peer_of _NNS_UINT8 [4; 2; 3; 1] 30 1) in
  ∃ caps nchw,
    gst_tensor_converter_get_possible_media_caps default_build media_template
      self = Some caps
    ∧ nchw ∈ drop 4 caps
    ∧ cs_name nchw = "video/x-raw"%string
    ∧ cs_fields nchw !! "format"%string
      = Some (GST_TYPE_LIST ["RGBP"; "BGRP"]%string)
    ∧ cs_fields nchw !! "width"%string = Some (G_TYPE_INT 4)
    ∧ cs_fields nchw !! "height"%string = Some (G_TYPE_INT 2).
Proof.
  cbv zeta.
  destruct (offered_planar_formats_parse_back default_build media_template
              (linked_element (peer_of _NNS_UINT8 [4; 2; 3; 1] 30 1))
              (peer_of _NNS_UINT8 [4; 2; 3; 1] 30 1) true 0%nat
              {| cs_name := "video/x-raw"; cs_fields := ∅ |})
    as (caps & nchw & Hcaps & _ & Hin & Hname & Hf & Hw & Hh & _);
    [reflexivity | reflexivity | reflexivity | reflexivity | reflexivity
    | reflexivity
    | vm_compute; split; reflexivity
    | vm_compute; split; reflexivity |].
  exists caps, nchw. split; [exact Hcaps|]. split; [exact Hin|].
  split; [exact Hname|]. split; [exact Hf|]. split; [exact Hw|exact Hh].
Defined.

(** The audio parser on a sample format that has an element type. *)
Lemma parse_audio_supported self caps ainfo :
  gst_audio_info_from_caps caps = Some ainfo →
  audio_format_tensor_type (ainfo_format ainfo) ≠ _NNS_END →
  0 <= ainfo_channels ainfo < 2 ^ 32 →
  let config := (gst_tensor_converter_parse_audio self caps).2 in
  let info0 := gst_tensors_info_get_nth_info (config_info config) 0 in
  (gst_tensor_converter_parse_audio self caps).1.1 = true
  ∧ info_type info0 = audio_format_tensor_type (ainfo_format ainfo)
  ∧ info_dimension info0 = dimension_of [ainfo_channels ainfo; 1]
  ∧ rate_n config = ainfo_rate ainfo
  ∧ rate_d config = 1.
Proof.
  intros Hai Htype Hch. unfold gst_tensor_converter_parse_audio. rewrite Hai.
  destruct ainfo as [f ch rt bpf]. cbn [ainfo_format ainfo_channels ainfo_rate
    ainfo_bpf] in *.
  destruct f; try (by destruct Htype);
    cbn -[to_guint]; rewrite (to_guint_small ch) by lia; done.
Qed.

(** X24: the audio offer agrees with the audio parser.  When the peer asks
    for a tensor whose element type has a sample format, the audio
    structure of the template comes back with that format, the first
    dimension as channels and the rate as sample rate, and a capability
    with these three values is taken by the audio parser with the element
    type the peer asked for, the dimension [channels, 1] and the rate
    rate/1.  For an element type without a sample format (float16, the
    64-bit integers) no format is offered and the structure is handed back
    as it is in the template. *)
Theorem offered_audio_format_parses_back b template self peer fixed i st :
  let info0 := gst_tensors_info_get_nth_info (config_info peer) 0 in
  let aformat := audio_format_of_tensor_type (info_type info0) in
  let ch := dim_get (info_dimension info0) 0 in
  pad_peer_config (srcpad self) = Some (peer, fixed) →
  audio_support b = true →
  template !! i = Some st →
  caps_structure_media_type st = _NNS_AUDIO →
  0 < ch < 2 ^ 31 → 0 < rate_n peer < 2 ^ 31 →
  ∃ (caps : list GstCapsStructure) (st' : GstCapsStructure),
    gst_tensor_converter_get_possible_media_caps b template self = Some caps
    ∧ caps !! i = Some st'
    ∧ (aformat = GST_AUDIO_FORMAT_UNKNOWN → st' = st)
    ∧ (aformat ≠ GST_AUDIO_FORMAT_UNKNOWN →
       cs_name st' = cs_name st
       ∧ cs_fields st' !! "format"%string
         = Some (G_TYPE_STRING (gst_audio_format_to_string aformat))
       ∧ cs_fields st' !! "channels"%string = Some (G_TYPE_INT ch)
       ∧ cs_fields st' !! "rate"%string = Some (G_TYPE_INT (rate_n peer))
       ∧ ∀ acaps ainfo self0,
           gst_audio_info_from_caps acaps = Some ainfo →
           ainfo_format ainfo = aformat →
           ainfo_channels ainfo = ch →
           ainfo_rate ainfo = rate_n peer →
           let '(ok, _, config) :=
             gst_tensor_converter_parse_audio self0 acaps in
           let parsed :=
             gst_tensors_info_get_nth_info (config_info config) 0 in
           ok = true
           ∧ info_type parsed = info_type info0
           ∧ take 2 (info_dimension parsed) = [ch; 1]
           ∧ rate_n config = rate_n peer
           ∧ rate_d config = 1).
Proof.
  cbv zeta. intros Hpeer Haudio Hst Hmedia Hch Hrate.
  rewrite (possible_media_caps_structures _ _ _ _ _ Hpeer).
  set (info0 := gst_tensors_info_get_nth_info (config_info peer) 0) in *.
  eexists _, _. split; [reflexivity|]. split.
  { rewrite lookup_app_l
      by (rewrite length_fmap; by apply lookup_lt_Some in Hst).
    rewrite list_lookup_fmap, Hst. reflexivity. }
  unfold possible_structure. rewrite Hmedia, Haudio. fold info0.
  split.
  { intros Hunknown. unfold possible_audio_caps. fold info0.
    rewrite Hunknown. by destruct (_ && _). }
  intros Hknown.
  assert (Hback : audio_format_tensor_type
                    (audio_format_of_tensor_type (info_type info0))
                  = info_type info0)
    by (destruct (info_type info0); done).
  assert (Hend : info_type info0 ≠ _NNS_END)
    by (intros Hend; rewrite Hend in Hknown; done).
  rewrite bool_decide_eq_false_2 by exact Hend. cbn [andb negb].
  assert (Hcaps : possible_audio_caps peer st
                  = set_int_if_positive "rate" (to_gint (rate_n peer))
                      (set_int_if_positive "channels"
                         (to_gint (dim_get (info_dimension info0) 0))
                         (gst_structure_set "format"
                            (G_TYPE_STRING
                               (gst_audio_format_to_string
                                  (audio_format_of_tensor_type
                                     (info_type info0)))) st))).
  { unfold possible_audio_caps. fold info0.
    by destruct (audio_format_of_tensor_type (info_type info0)). }
  rewrite Hcaps, !to_gint_small by lia.
  split; [by rewrite !cs_name_set_int_if_positive|].
  split.
  { rewrite !set_int_if_positive_lookup_ne by done. apply lookup_insert_eq. }
  split.
  { rewrite set_int_if_positive_lookup_ne by done.
    apply set_int_if_positive_lookup. lia. }
  split; [apply set_int_if_positive_lookup; lia|].
  intros acaps ainfo self0 Hfrom Hf Hc Hr.
  assert (Htype : audio_format_tensor_type (ainfo_format ainfo) ≠ _NNS_END)
    by (by rewrite Hf, Hback).
  assert (Hcr : 0 <= ainfo_channels ainfo < 2 ^ 32) by (rewrite Hc; lia).
  pose proof (parse_audio_supported self0 acaps ainfo Hfrom Htype Hcr) as H.
  cbv zeta in H.
  destruct (gst_tensor_converter_parse_audio self0 acaps) as [[ok sp] config].
  cbn [fst snd] in H. destruct H as (Hok & Ht & Hd & Hn & Hdn).
  split; [exact Hok|]. split; [by rewrite Ht, Hf, Hback|].
  split; [by rewrite Hd, Hc|]. split; [by rewrite Hn, Hr|exact Hdn].
Qed.

Lemma offered_audio_format_parses_back_witness :
  let self := linked_element (peer_of _NNS_INT16 [2; 1] 16000 1) in
  ∃ caps st',
    gst_tensor_converter_get_possible_media_caps default_build media_template
      self = Some caps
    ∧ caps !! 1%nat = Some st'
    ∧ cs_fields st' !! "format"%string = Some (G_TYPE_STRING "S16LE")
    ∧ cs_fields st' !! "channels"%string = Some (G_TYPE_INT 2)
    ∧ cs_fields st' !! "rate"%string = Some (G_TYPE_INT 16000).
Proof.
  cbv zeta.
  destruct (offered_audio_format_parses_back default_build media_template
              (linked_element (peer_of _NNS_INT16 [2; 1] 16000 1))
              (peer_of _NNS_INT16 [2; 1] 16000 1) true 1%nat
              {| cs_name := "audio/x-raw"; cs_fields := ∅ |})
    as (caps & st' & Hcaps & Hst & _ & Hknown);
    [reflexivity | reflexivity | reflexivity | reflexivity
    | vm_compute; split; reflexivity
    | vm_compute; split; reflexivity |].
  destruct Hknown as (_ & Hf & Hc & Hr & _); [discriminate|].
  exists caps, st'. split; [exact Hcaps|]. split; [exact Hst|].
  split; [exact Hf|]. split; [exact Hc|exact Hr].
Defined.
